(** * Product-page validation engine of browser-atm-server

    A shallow embedding of [src/services/BrowserTestService.js] (the element
    locator, the product-page validator, the image auditor and the run
    orchestrator) together with the record shapes of [src/models/TestResult.js],
    and the properties the specification states about them.

    Conventions of the embedding.
    - A JavaScript string is a [string]: a sequence of code units below 256
      (the Latin-1 range); [length], [substring], [trim], [toLowerCase] and
      [includes] act on code units as their JavaScript namesakes do there.
    - Asynchronous calls into Playwright, the database and the analysis
      service are calls to an oracle that threads an abstract world [W] and
      either answers or throws; a thrown exception is its message.
    - Mutable objects of the source ([result], [testResult], [this.browser])
      live in the state of the monad, so that what was written before an
      exception is still there in the handler.
    - Logging calls have no effect on any value and are left out. *)

From Stdlib Require Import String Ascii List ZArith Lia Bool Arith.
From Stdlib Require Floats.PrimFloat.
Import ListNotations.
Open Scope string_scope.
Open Scope list_scope.
Open Scope nat_scope.

(** String concatenation (the template literals and [+] of the source). *)
Infix "+++" := String.append (at level 60, right associativity).

(* ===================================================================== *)
(** * JavaScript strings *)
(* ===================================================================== *)

Module JsString.

(** [String.prototype.toLowerCase] on one Latin-1 code unit: A-Z and the
    accented capitals U+00C0..U+00DE (the multiplication sign apart) move up
    by 32; nothing else changes. *)
Definition lowerChar (c : ascii) : ascii :=
  let n := nat_of_ascii c in
  if ((65 <=? n) && (n <=? 90)) || ((192 <=? n) && (n <=? 222) && negb (n =? 215))
  then ascii_of_nat (n + 32)
  else c.

Fixpoint toLowerCase (s : string) : string :=
  match s with
  | EmptyString => EmptyString
  | String c s' => String (lowerChar c) (toLowerCase s')
  end.

Fixpoint startsWith (s prefix : string) : bool :=
  match prefix, s with
  | EmptyString, _ => true
  | String _ _, EmptyString => false
  | String a p', String b s' => Ascii.eqb a b && startsWith s' p'
  end.

(** [s.includes(sub)] *)
Fixpoint includes (s sub : string) : bool :=
  startsWith s sub ||
  match s with
  | EmptyString => false
  | String _ s' => includes s' sub
  end.

(** White space of [trim] within Latin-1: TAB, LF, VT, FF, CR, SP, NBSP. *)
Definition isWhiteSpace (c : ascii) : bool :=
  let n := nat_of_ascii c in
  ((9 <=? n) && (n <=? 13)) || (n =? 32) || (n =? 160).

Fixpoint trimStart (s : string) : string :=
  match s with
  | EmptyString => EmptyString
  | String c s' => if isWhiteSpace c then trimStart s' else s
  end.

Fixpoint trimEnd (s : string) : string :=
  match s with
  | EmptyString => EmptyString
  | String c s' =>
      match trimEnd s' with
      | EmptyString => if isWhiteSpace c then EmptyString else String c EmptyString
      | t => String c t
      end
  end.

Definition trim (s : string) : string := trimEnd (trimStart s).

(** [s.substring(0, n)] *)
Definition substring0 (n : nat) (s : string) : string := String.substring 0 n s.

Definition isEmpty (s : string) : bool :=
  match s with EmptyString => true | _ => false end.

(** [s.split(' ')] *)
Fixpoint splitSpaces (s : string) : list string :=
  match s with
  | EmptyString => [EmptyString]
  | String c s' =>
      if Ascii.eqb c " "%char then EmptyString :: splitSpaces s'
      else match splitSpaces s' with
           | [] => [String c EmptyString]
           | w :: ws => String c w :: ws
           end
  end.

(** The double quote, for selectors that contain one. *)
Definition dq : string := String (ascii_of_nat 34) EmptyString.

(** [a || b] on values that are a string, [null] or [undefined]: the empty
    string and the absent value are falsy. *)
Definition truthy (o : option string) : bool :=
  match o with
  | Some s => negb (isEmpty s)
  | None => false
  end.

Definition or (a b : option string) : option string :=
  if truthy a then a else b.

(** [a || ''] *)
Definition orEmpty (a : option string) : string :=
  match a with
  | Some s => s
  | None => EmptyString
  end.

End JsString.

(* ===================================================================== *)
(** * Effects: a world-passing monad with exceptions *)
(* ===================================================================== *)

(** The result of awaiting a promise: a value, or a rejection carrying the
    error's message. *)
Inductive outcome (A : Type) : Type :=
| Ok (a : A)
| Throw (message : string).
Arguments Ok {A} a.
Arguments Throw {A} message.

(** A computation over a state [S]. The state is returned on both paths:
    what the code wrote before it threw stays written. *)
Definition M (S A : Type) : Type := S -> outcome A * S.

Definition ret {S A} (a : A) : M S A := fun s => (Ok a, s).

Definition bind {S A B} (m : M S A) (f : A -> M S B) : M S B :=
  fun s =>
    match m s with
    | (Ok a, s') => f a s'
    | (Throw e, s') => (Throw e, s')
    end.

Definition throw {S A} (e : string) : M S A := fun s => (Throw e, s).

(** [try { m } catch (error) { handler(error.message) }] *)
Definition try_catch {S A} (m : M S A) (handler : string -> M S A) : M S A :=
  fun s =>
    match m s with
    | (Ok a, s') => (Ok a, s')
    | (Throw e, s') => handler e s'
    end.

Definition get {S} : M S S := fun s => (Ok s, s).
Definition modify {S} (f : S -> S) : M S unit := fun s => (Ok tt, f s).

(** A world operation that cannot fail (a clock, an id generator). *)
Definition total {S A} (f : S -> A * S) : M S A :=
  fun s => let (a, s') := f s in (Ok a, s').

(** Run a computation on the first component of a pair of states. *)
Definition liftW {W R A} (m : M W A) : M (W * R) A :=
  fun s => let (o, w') := m (fst s) in (o, (w', snd s)).

Declare Scope js_scope.
Delimit Scope js_scope with js.
Notation "x <- m ;; k" := (bind m (fun x => k))
  (at level 61, m at next level, right associativity) : js_scope.
Notation "m ;;; k" := (bind m (fun _ => k))
  (at level 61, right associativity) : js_scope.
Open Scope js_scope.

(** [for (const x of xs) { ... }] whose body may [return] from the enclosing
    function: [Some v] is that return, [None] falls through to the next
    iteration. *)
Fixpoint for_first {S X R} (xs : list X) (body : X -> M S (option R)) : M S (option R) :=
  match xs with
  | [] => ret None
  | x :: xs' =>
      r <- body x ;;
      match r with
      | Some v => ret (Some v)
      | None => for_first xs' body
      end
  end.

(** [for (const x of xs) { ... }] with no early exit. *)
Fixpoint for_each {S X} (xs : list X) (body : X -> M S unit) : M S unit :=
  match xs with
  | [] => ret tt
  | x :: xs' => body x ;;; for_each xs' body
  end.

(** Run [m] with a fresh local object [init] beside the state, and hand the
    object back with the answer (a [const result = {...}] that the block
    fills in by assignment). *)
Definition scoped {W R A} (init : R) (m : M (W * R) A) : M W (A * R) :=
  fun w =>
    match m (w, init) with
    | (Ok a, (w', r)) => (Ok (a, r), w')
    | (Throw e, (w', _)) => (Throw e, w')
    end.

(* ===================================================================== *)
(** * Data model *)
(* ===================================================================== *)

(** Opaque references handed out by the browser. *)
Definition Handle := nat.
Definition Page := nat.
Definition BrowserContext := nat.
Definition BrowserProcess := nat.

(** What an element operation is aimed at: an element handle ([page.$$]),
    or [page.getByText(pattern, { exact: false }).first()]. *)
Inductive Target : Type :=
| Elem (h : Handle)
| FirstByText (page : Page) (pattern : string).

(** A regular expression literal. The expressions of this program carry no
    [g] or [y] flag, so [test] keeps no position between calls. *)
Record RegExp : Type := mkRegExp { source : string; flags : string }.

(** A content pattern: [pattern instanceof RegExp], or a string. *)
Inductive Pattern : Type :=
| PRegExp (re : RegExp)
| PString (s : string).

Record Attribute : Type := mkAttribute { name : string; value : string }.

(** [elementConfig]; a list the source leaves out is [[]], its default in the
    destructuring at the head of the locator. *)
Record ElementConfig : Type := mkElementConfig {
  selectors : list string;
  textPatterns : list string;
  contentPatterns : list Pattern;
  attributes : list Attribute
}.

(** What the locator returns when it finds an element. *)
Module LocateResult.
Record t : Type := mk {
  element : Target;
  text : string;
  selector : string;
  strategy : string
}.
End LocateResult.

(** One node as the in-page scan of strategy 4 reads it. *)
Record DomNode : Type := mkDomNode {
  rect_width : Z;
  rect_height : Z;
  style_display : string;
  style_visibility : string;
  node_textContent : option string;
  node_innerText : option string;
  node_id : string;
  node_className : option string;   (* [None]: [className] is not a string *)
  node_tagName : string
}.

(** [{ present, text, selector, strategy }] of title, price, description. *)
Module TextCheck.
Record t : Type := mk {
  present : bool;
  text : string;
  selector : string;
  strategy : string
}.
Definition absent : t := mk false "" "" "".
End TextCheck.

Module CartCheck.
Record t : Type := mk {
  present : bool;
  clickable : bool;
  selector : string;
  strategy : string
}.
Definition absent : t := mk false false "" "".
End CartCheck.

Module VariantCheck.
Record t : Type := mk {
  present : bool;
  count : nat;
  selector : string;
  strategy : string
}.
Definition absent : t := mk false 0 "" "".
End VariantCheck.

Module AvailabilityCheck.
Record t : Type := mk {
  present : bool;
  text : string;
  inStock : option bool;            (* [null], [true] or [false] *)
  selector : string;
  strategy : string
}.
Definition absent : t := mk false "" None "" "".
End AvailabilityCheck.

Record Elements : Type := mkElements {
  title : TextCheck.t;
  price : TextCheck.t;
  addToCart : CartCheck.t;
  description : TextCheck.t;
  variants : VariantCheck.t;
  availability : AvailabilityCheck.t
}.

Record Performance : Type := mkPerformance {
  loadTime : Z;
  timeToInteractive : Z
}.

Record PageResult : Type := mkPageResult {
  url : string;
  passed : bool;
  elements : Elements;
  performance : Performance;
  errors : list string
}.

Record Dimensions : Type := mkDimensions { width : Z; height : Z }.

Module ImageRecord.
Record t : Type := mk {
  url : string;
  src : string;
  loaded : bool;
  status : Z;
  altText : string;
  dimensions : Dimensions;
  errors : list string
}.
End ImageRecord.

Record JsError : Type := mkJsError {
  js_message : string; js_source : string; js_timestamp : Z }.
Record NetworkError : Type := mkNetworkError {
  net_url : string; net_status : Z; net_error : string; net_timestamp : Z }.
Record ConsoleWarning : Type := mkConsoleWarning {
  warn_message : string; warn_timestamp : Z }.

Record ErrorDetection : Type := mkErrorDetection {
  jsErrors : list JsError;
  networkErrors : list NetworkError;
  consoleWarnings : list ConsoleWarning
}.

Record Results : Type := mkResults {
  productPageTests : list PageResult;
  imageValidation : list ImageRecord.t;
  errorDetection : ErrorDetection
}.

Record AiAnalysis : Type := mkAiAnalysis {
  summary : string;
  recommendations : list string;
  riskLevel : string;
  score : Z
}.

(** [status] of the [TestResult] schema. *)
Inductive Status : Type := running | completed | failed | cancelled.

(** The [TestResult] document. [status] is absent from the constructor call
    of [runTest], so a new document has the schema's default, [running]. *)
Module TestResult.
Record t : Type := mk {
  configurationId : string;
  executionId : string;
  status : Status;
  startTime : Z;
  endTime : option Z;
  duration : option Z;
  results : Results;
  aiAnalysis : option AiAnalysis
}.
End TestResult.

Record Viewport : Type := mkViewport { vp_width : Z; vp_height : Z }.
Record TestSettings : Type := mkTestSettings { timeout : Z; viewport : Viewport }.
Record ProductPage : Type := mkProductPage { pp_url : string; identifier : string }.
Record TestConfiguration : Type := mkTestConfiguration {
  _id : string;
  productPages : list ProductPage;
  testSettings : TestSettings
}.

(* ===================================================================== *)
(** * The collaborators, as oracles over the world *)
(* ===================================================================== *)

(** Playwright, as far as the service calls it. Every call may reject. *)
Class Playwright (W : Type) : Type := {
  (* page.goto(url, { waitUntil: 'domcontentloaded', timeout }) *)
  page_goto : Page -> string -> option Z -> M W unit;
  page_waitForTimeout : Page -> Z -> M W unit;
  (* page.waitForLoadState(state, { timeout }) *)
  page_waitForLoadState : Page -> string -> Z -> M W unit;
  (* page.$$(selector), page.$(selector), handle.$$(selector) *)
  page_queryAll : Page -> string -> M W (list Handle);
  page_query : Page -> string -> M W (option Handle);
  handle_queryAll : Handle -> string -> M W (list Handle);
  isVisible : Target -> M W bool;
  isEnabled : Target -> M W bool;
  textContent : Target -> M W (option string);
  innerText : Handle -> M W string;
  (* page.getByText(pattern, { exact: false }).count() *)
  locator_count : Page -> string -> M W nat;
  (* document.querySelectorAll('*') inside page.evaluate, in document order *)
  page_document : Page -> M W (list DomNode);
  getAttribute : Handle -> string -> M W (option string);
  boundingBox : Handle -> M W (option Dimensions);
  (* chromium.launch, browser.newContext, context.newPage, context.close *)
  chromium_launch : M W BrowserProcess;
  browser_newContext : BrowserProcess -> Viewport -> M W BrowserContext;
  context_newPage : BrowserContext -> M W Page;
  context_close : BrowserContext -> M W unit;
  (* page.on(event, listener): the listeners only append to three arrays,
     whose contents the world holds *)
  page_on : Page -> string -> W -> W;
  collected : Page -> W -> ErrorDetection
}.

(** The JavaScript runtime: the clock, the id generator, and the regular
    expression engine ([RegExp.prototype.test], and the first capture group
    of [String.prototype.match]). *)
Class Runtime (W : Type) : Type := {
  date_now : W -> Z * W;
  uuidv4 : W -> string * W;
  regexp_test : RegExp -> string -> bool;
  regexp_match1 : RegExp -> string -> option string
}.

(** The persistence and narrative-analysis collaborators. *)
Class Collaborators (W : Type) : Type := {
  db_save : TestResult.t -> M W unit;
  analyzeTestResults : Results -> M W AiAnalysis
}.

(* ===================================================================== *)
(** * ElementLocator: [findElementWithMultipleStrategies] *)
(* ===================================================================== *)

Section ElementLocator.
Context {W : Type} {PW : Playwright W} {RT : Runtime W}.
Import JsString.

(** The callback of [contentPatterns.some] (strategy 1) and the pattern test
    of the in-page scan (strategy 4, which rebuilds each expression from its
    source and flags). *)
Definition matchesPattern (content : string) (pattern : Pattern) : bool :=
  match pattern with
  | PRegExp re => regexp_test re content
  | PString s => includes (toLowerCase content) (toLowerCase s)
  end.

(** Strategy 1, the body of the inner loop for one element of one selector. *)
Definition cssCandidate (contentPatterns : list Pattern) (selector : string)
    (element : Handle) : M W (option LocateResult.t) :=
  visible <- isVisible (Elem element) ;;
  if visible then
    text <- textContent (Elem element) ;;
    inner <- try_catch (s <- innerText element ;; ret (Some s)) (fun _ => ret text) ;;
    let content := trim (orEmpty (or (or inner text) (Some ""))) in
    if 0 <? String.length content then
      if 0 <? List.length contentPatterns then
        if existsb (matchesPattern content) contentPatterns then
          ret (Some (LocateResult.mk (Elem element) content selector "css-pattern"))
        else ret None
      else ret (Some (LocateResult.mk (Elem element) content selector "css"))
    else ret None
  else ret None.

(** Strategy 1, the [try] block for one selector. *)
Definition cssAttempt (page : Page) (cfg : ElementConfig) (selector : string)
    : M W (option LocateResult.t) :=
  found <- page_queryAll page selector ;;
  for_first found (cssCandidate (contentPatterns cfg) selector).

(** Strategy 1: CSS selectors with visibility and content checks. *)
Definition cssStrategy (page : Page) (cfg : ElementConfig) : M W (option LocateResult.t) :=
  for_first (selectors cfg) (fun selector =>
    try_catch (cssAttempt page cfg selector) (fun _ => ret None)).

(** Strategy 2, the [try] block for one text pattern. *)
Definition textAttempt (page : Page) (pattern : string) : M W (option LocateResult.t) :=
  n <- locator_count page pattern ;;
  if 0 <? n then
    let first := FirstByText page pattern in
    visible <- isVisible first ;;
    if visible then
      text <- textContent first ;;
      ret (Some (LocateResult.mk first
                   (orEmpty (or (option_map trim text) (Some "")))
                   ("text:" +++ pattern) "text"))
    else ret None
  else ret None.

(** Strategy 2: visible text through [getByText]. *)
Definition textStrategy (page : Page) (cfg : ElementConfig) : M W (option LocateResult.t) :=
  for_first (textPatterns cfg) (fun pattern =>
    try_catch (textAttempt page pattern) (fun _ => ret None)).

(** The selector of strategy 3, [[name*="value"]]. *)
Definition attributeSelector (attr : Attribute) : string :=
  "[" +++ name attr +++ "*=" +++ dq +++ value attr +++ dq +++ "]".

Definition attributeCandidate (selector : string) (element : Handle)
    : M W (option LocateResult.t) :=
  visible <- isVisible (Elem element) ;;
  if visible then
    text <- textContent (Elem element) ;;
    let content := orEmpty (or (option_map trim text) (Some "")) in
    if 0 <? String.length content then
      ret (Some (LocateResult.mk (Elem element) content selector "attribute"))
    else ret None
  else ret None.

(** Strategy 3, the [try] block for one attribute. *)
Definition attributeAttempt (page : Page) (attr : Attribute) : M W (option LocateResult.t) :=
  found <- page_queryAll page (attributeSelector attr) ;;
  for_first found (attributeCandidate (attributeSelector attr)).

(** Strategy 3: attributes. *)
Definition attributeStrategy (page : Page) (cfg : ElementConfig) : M W (option LocateResult.t) :=
  for_first (attributes cfg) (fun attr =>
    try_catch (attributeAttempt page attr) (fun _ => ret None)).

(** Strategy 4, the selector the in-page function makes up for a node: its
    id, else its first class, else its tag name. *)
Definition synthSelector (node : DomNode) : string :=
  let selector :=
    if negb (isEmpty (node_id node)) then "#" +++ node_id node
    else match node_className node with
         | Some cls =>
             if negb (isEmpty cls) then
               match filter (fun c => 0 <? String.length c) (splitSpaces cls) with
               | c :: _ => "." +++ c
               | [] => ""
               end
             else ""
         | None => ""
         end in
  if isEmpty selector then toLowerCase (node_tagName node) else selector.

(** Strategy 4, the in-page function on one node: [Some (text, selector)]
    is its [return], [None] its [continue]. *)
Definition scanNode (patterns : list Pattern) (node : DomNode) : option (string * string) :=
  if (rect_width node =? 0)%Z || (rect_height node =? 0)%Z then None
  else if String.eqb (style_display node) "none"
          || String.eqb (style_visibility node) "hidden" then None
  else
    let text := orEmpty (or (or (node_textContent node) (node_innerText node)) (Some "")) in
    let cleanText := trim text in
    if 0 <? String.length cleanText then
      match find (matchesPattern cleanText) patterns with
      | Some _ => Some (cleanText, synthSelector node)
      | None => None
      end
    else None.

Fixpoint scanDocument (patterns : list Pattern) (nodes : list DomNode)
    : option (string * string) :=
  match nodes with
  | [] => None
  | node :: rest =>
      match scanNode patterns node with
      | Some r => Some r
      | None => scanDocument patterns rest
      end
  end.

(** Strategy 4, its [try] block: the scan inside [page.evaluate], then the
    selector it made up resolved against the page. *)
Definition contentAttempt (page : Page) (cfg : ElementConfig) : M W (option LocateResult.t) :=
  nodes <- page_document page ;;
  match scanDocument (contentPatterns cfg) nodes with
  | Some (text, selector) =>
      element <- try_catch (page_query page selector) (fun _ => ret None) ;;
      match element with
      | Some h => ret (Some (LocateResult.mk (Elem h) text selector "content-search"))
      | None => ret None
      end
  | None => ret None
  end.

(** Strategy 4: full-document content scan, only with content patterns. *)
Definition contentStrategy (page : Page) (cfg : ElementConfig) : M W (option LocateResult.t) :=
  if 0 <? List.length (contentPatterns cfg) then
    try_catch (contentAttempt page cfg) (fun _ => ret None)
  else ret None.

(** A strategy's [return] ends the search; otherwise the next one runs. *)
Definition orElse {S A} (m k : M S (option A)) : M S (option A) :=
  r <- m ;;
  match r with
  | Some v => ret (Some v)
  | None => k
  end.

Definition findElementWithMultipleStrategies (page : Page) (cfg : ElementConfig)
    : M W (option LocateResult.t) :=
  orElse (cssStrategy page cfg)
    (orElse (textStrategy page cfg)
       (orElse (attributeStrategy page cfg)
          (contentStrategy page cfg))).

End ElementLocator.

(* ===================================================================== *)
(** * ProductPageValidator: [testProductPage] *)
(* ===================================================================== *)

(** ** The six element configurations

    [ci a v] is the selector [[a*="v" i]] and [eq a v] the selector
    [[a="v"]]. Regular-expression sources are names for the engine; the
    currency signs outside Latin-1 are written in UTF-8. *)
Module Config.
Import JsString.

Definition ci (a v : string) : string := "[" +++ a +++ "*=" +++ dq +++ v +++ dq +++ " i]".
Definition eq (a v : string) : string := "[" +++ a +++ "=" +++ dq +++ v +++ dq +++ "]".
Definition re (src fl : string) : Pattern := PRegExp (mkRegExp src fl).

Definition titleConfig : ElementConfig := {|
  selectors := [
    "h1"; "h2"; "h3";
    ci "class" "title"; ci "class" "name"; ci "class" "product";
    ci "data-testid" "title"; ci "data-testid" "name";
    ci "data-testid" "product"; ci "id" "title"; ci "id" "name";
    ".product-title"; ".product-name"; ".item-title"; ".item-name";
    ".pdp-title"; ".entry-title"; ".main-title"; ".page-title";
    eq "itemprop" "name"; eq "role" "heading" ];
  textPatterns := [];
  contentPatterns := [];
  attributes := [
    mkAttribute "data-testid" "title";
    mkAttribute "data-testid" "name";
    mkAttribute "data-testid" "product";
    mkAttribute "itemprop" "name" ]
|}.

Definition priceConfig : ElementConfig := {|
  selectors := [
    ci "class" "price" +++ ":not(" +++ ci "class" "compare" +++ "):not("
      +++ ci "class" "was" +++ "):not(" +++ ci "class" "original" +++ ")";
    ci "data-testid" "price"; "[data-price]"; "[data-product-price]";
    ".money"; ".currency"; ".cost"; ".amount"; ".value";
    ci "id" "price"; eq "itemprop" "price";
    eq "itemprop" "offers" +++ " " +++ eq "itemprop" "price";
    ".current-price"; ".sale-price"; ".selling-price"; ".final-price";
    ".product-price"; ".item-price"; ".pdp-price" ];
  textPatterns := [];
  contentPatterns := [
    re "\$\s*[\d,]+\.?\d*" "i";
    re "₹\s*[\d,]+\.?\d*" "i";
    re "€\s*[\d,]+\.?\d*" "i";
    re "£\s*[\d,]+\.?\d*" "i";
    re "USD\s*[\d,]+\.?\d*" "i";
    re "INR\s*[\d,]+\.?\d*" "i";
    re "\b\d+\.\d{2}\b" "";
    re "\b\d{1,3}(,\d{3})*(\.\d{2})?\b" "" ];
  attributes := [
    mkAttribute "data-testid" "price";
    mkAttribute "data-price" "";
    mkAttribute "itemprop" "price" ]
|}.

Definition cartConfig : ElementConfig := {|
  selectors := [
    "button" +++ eq "type" "submit"; "input" +++ eq "type" "submit";
    ci "class" "add" +++ ci "class" "cart"; ci "class" "cart" +++ ci "class" "btn";
    ci "class" "buy"; ci "class" "purchase"; ci "class" "shop";
    "button"; "input" +++ eq "type" "button"; eq "role" "button";
    ci "data-testid" "add"; ci "data-testid" "cart"; ci "data-testid" "buy" ];
  textPatterns := [
    "Add to Cart"; "Add to Bag"; "Buy Now"; "Purchase"; "Add to Basket";
    "Shop Now"; "Order Now"; "Add"; "Buy"; "Cart" ];
  contentPatterns := [];
  attributes := [
    mkAttribute "data-testid" "add";
    mkAttribute "data-testid" "cart";
    mkAttribute "data-action" "add-to-cart" ]
|}.

Definition descConfig : ElementConfig := {|
  selectors := [
    ci "class" "description"; ci "class" "details"; ci "class" "summary";
    ci "data-testid" "description"; ci "data-testid" "details";
    ci "id" "description"; ci "id" "details";
    ".product-description"; ".item-description"; ".product-details";
    ".product-summary"; ".product-info"; ".description";
    eq "itemprop" "description"; ".desc"; ".details"; ".summary" ];
  textPatterns := [];
  contentPatterns := [];
  attributes := [
    mkAttribute "data-testid" "description";
    mkAttribute "itemprop" "description" ]
|}.

Definition variantConfig : ElementConfig := {|
  selectors := [
    ci "class" "variant"; ci "class" "option"; ci "class" "choice";
    ci "class" "size"; ci "class" "color"; ci "class" "style";
    "select"; "input" +++ eq "type" "radio"; "input" +++ eq "type" "checkbox";
    ci "data-testid" "variant"; ci "data-testid" "option";
    ".swatch"; ".picker"; ".selector" ];
  textPatterns := [];
  contentPatterns := [];
  attributes := [
    mkAttribute "data-testid" "variant";
    mkAttribute "name" "variant";
    mkAttribute "name" "option" ]
|}.

(** The selectors of the container tier of variant detection. *)
Definition variantContainers : string :=
  ci "class" "variant" +++ ", " +++ ci "class" "option"
    +++ ", .product-options, .product-variants".
Definition variantOptions : string :=
  "button, input, select, .swatch, " +++ eq "role" "button".

Definition availConfig : ElementConfig := {|
  selectors := [
    ci "class" "availability"; ci "class" "stock"; ci "class" "inventory";
    ci "data-testid" "stock"; ci "data-testid" "availability";
    ".in-stock"; ".out-of-stock"; ".stock-status" ];
  textPatterns := [
    "In Stock"; "Out of Stock"; "Available"; "Unavailable";
    "In stock"; "out of stock"; "available"; "unavailable" ];
  contentPatterns := [
    re "in\s*stock" "i"; re "out\s*of\s*stock" "i"; re "available" "i";
    re "unavailable" "i"; re "\d+\s*in\s*stock" "i"; re "\d+\s*left" "i";
    re "\d+\s*remaining" "i" ];
  attributes := [
    mkAttribute "data-testid" "stock";
    mkAttribute "data-testid" "availability" ]
|}.

(** The image selector of the auditor and its background-image expression. *)
Definition imageSelector : string :=
  "img[src], img[data-src], [style*=" +++ dq +++ "background-image" +++ dq +++ "]".
Definition backgroundImage : RegExp :=
  mkRegExp ("background-image:\s*url\(['" +++ dq +++ "]?([^'" +++ dq +++ "]+)['"
              +++ dq +++ "]?\)") "".

End Config.

(** ** Field updates of the result object *)

Definition initialResult (u : string) : PageResult := {|
  url := u;
  passed := false;
  elements := {|
    title := TextCheck.absent;
    price := TextCheck.absent;
    addToCart := CartCheck.absent;
    description := TextCheck.absent;
    variants := VariantCheck.absent;
    availability := AvailabilityCheck.absent |};
  performance := {| loadTime := 0; timeToInteractive := 0 |};
  errors := []
|}.

Definition withElements (f : Elements -> Elements) (r : PageResult) : PageResult :=
  mkPageResult (url r) (passed r) (f (elements r)) (performance r) (errors r).
Definition withPassed (b : bool) (r : PageResult) : PageResult :=
  mkPageResult (url r) b (elements r) (performance r) (errors r).
Definition withLoadTime (t : Z) (r : PageResult) : PageResult :=
  mkPageResult (url r) (passed r) (elements r)
    (mkPerformance t (timeToInteractive (performance r))) (errors r).
(** [result.errors.push(message)] *)
Definition pushError (message : string) (r : PageResult) : PageResult :=
  mkPageResult (url r) (passed r) (elements r) (performance r) (errors r ++ [message]).

Definition withTitle (f : TextCheck.t -> TextCheck.t) (e : Elements) : Elements :=
  mkElements (f (title e)) (price e) (addToCart e) (description e) (variants e) (availability e).
Definition withPrice (f : TextCheck.t -> TextCheck.t) (e : Elements) : Elements :=
  mkElements (title e) (f (price e)) (addToCart e) (description e) (variants e) (availability e).
Definition withAddToCart (f : CartCheck.t -> CartCheck.t) (e : Elements) : Elements :=
  mkElements (title e) (price e) (f (addToCart e)) (description e) (variants e) (availability e).
Definition withDescription (f : TextCheck.t -> TextCheck.t) (e : Elements) : Elements :=
  mkElements (title e) (price e) (addToCart e) (f (description e)) (variants e) (availability e).
Definition withVariants (f : VariantCheck.t -> VariantCheck.t) (e : Elements) : Elements :=
  mkElements (title e) (price e) (addToCart e) (description e) (f (variants e)) (availability e).
Definition withAvailability (f : AvailabilityCheck.t -> AvailabilityCheck.t) (e : Elements)
    : Elements :=
  mkElements (title e) (price e) (addToCart e) (description e) (variants e) (f (availability e)).

(** An assignment to a field of the local object of a [scoped] block. *)
Definition assign {W R} (f : R -> R) : M (W * R) unit :=
  modify (fun s => (fst s, f (snd s))).

Section ProductPageValidator.
Context {W : Type} {PW : Playwright W} {RT : Runtime W}.
Import JsString.

Definition locate (page : Page) (cfg : ElementConfig)
    : M (W * PageResult) (option LocateResult.t) :=
  liftW (findElementWithMultipleStrategies page cfg).

(** Navigation, the settle delay, the quiescence wait and the load time. *)
Definition navigate (page : Page) (u : string) (settings : TestSettings) (startTime : Z)
    : M (W * PageResult) unit :=
  liftW (page_goto page u (Some (timeout settings))) ;;;
  liftW (page_waitForTimeout page 2000%Z) ;;;
  liftW (try_catch (page_waitForLoadState page "networkidle" 5000%Z) (fun _ => ret tt)) ;;;
  now <- liftW (total date_now) ;;
  assign (withLoadTime (now - startTime)%Z).

Definition foundText (r : LocateResult.t) (shown : string) : TextCheck.t :=
  TextCheck.mk true shown (LocateResult.selector r) (LocateResult.strategy r).

Definition checkTitle (page : Page) : M (W * PageResult) unit :=
  titleResult <- locate page Config.titleConfig ;;
  match titleResult with
  | Some r => assign (withElements (withTitle (fun _ => foundText r (LocateResult.text r))))
  | None => ret tt
  end.

Definition checkPrice (page : Page) : M (W * PageResult) unit :=
  priceResult <- locate page Config.priceConfig ;;
  match priceResult with
  | Some r => assign (withElements (withPrice (fun _ => foundText r (LocateResult.text r))))
  | None => ret tt
  end.

(** [await element.isEnabled() && await element.isVisible()], with the
    fallback of its [catch]. *)
Definition isClickable (element : Target) : M W bool :=
  try_catch
    (enabled <- isEnabled element ;;
     if enabled then isVisible element else ret false)
    (fun _ => ret true).

Definition checkAddToCart (page : Page) : M (W * PageResult) unit :=
  cartResult <- locate page Config.cartConfig ;;
  match cartResult with
  | Some r =>
      assign (withElements (withAddToCart (fun c =>
        CartCheck.mk true (CartCheck.clickable c)
          (LocateResult.selector r) (LocateResult.strategy r)))) ;;;
      clickable <- liftW (isClickable (LocateResult.element r)) ;;
      assign (withElements (withAddToCart (fun c =>
        CartCheck.mk (CartCheck.present c) clickable
          (CartCheck.selector c) (CartCheck.strategy c))))
  | None => ret tt
  end.

Definition checkDescription (page : Page) : M (W * PageResult) unit :=
  descResult <- locate page Config.descConfig ;;
  match descResult with
  | Some r =>
      assign (withElements (withDescription (fun _ =>
        foundText r (substring0 200 (LocateResult.text r)))))
  | None => ret tt
  end.

(** The three local variables of variant detection. *)
Record VariantVars : Type := mkVariantVars {
  variantCount : nat;
  variantSelector : string;
  variantStrategy : string
}.

(** The container tier: the loop over the containers, left by [break] at the
    first one that holds options. *)
Definition containerTier (page : Page) : M (W * PageResult * VariantVars) unit :=
  variantContainers <- liftW (liftW (page_queryAll page Config.variantContainers)) ;;
  for_first variantContainers (fun container =>
    options <- liftW (liftW (handle_queryAll container Config.variantOptions)) ;;
    if 0 <? List.length options then
      assign (fun v => mkVariantVars (variantCount v + List.length options)
                         "container-based" "container") ;;;
      ret (Some tt)
    else ret None) ;;;
  ret tt.

(** The fallback tier: the locator, then every element of its selector. *)
Definition fallbackTier (page : Page) : M (W * PageResult * VariantVars) unit :=
  variantResult <- liftW (locate page Config.variantConfig) ;;
  match variantResult with
  | Some r =>
      allVariants <- liftW (liftW (page_queryAll page (LocateResult.selector r))) ;;
      assign (fun _ => mkVariantVars (List.length allVariants)
                         (LocateResult.selector r) (LocateResult.strategy r))
  | None => ret tt
  end.

Definition detectVariants (page : Page) : M (W * PageResult * VariantVars) unit :=
  try_catch
    (containerTier page ;;;
     v <- get ;;
     if variantCount (snd v) =? 0 then fallbackTier page else ret tt)
    (fun e => liftW (assign (pushError ("Variant detection error: " +++ e)))).

Definition checkVariants (page : Page) : M (W * PageResult) unit :=
  v <- scoped (mkVariantVars 0 "" "") (detectVariants page) ;;
  let vars := snd v in
  if 0 <? variantCount vars then
    assign (withElements (withVariants (fun _ =>
      VariantCheck.mk true (variantCount vars) (variantSelector vars) (variantStrategy vars))))
  else ret tt.

(** The stock flag written for an availability text; [None] leaves the
    field as it is. *)
Definition stockFlag (text : string) : option bool :=
  let stockText := toLowerCase text in
  if includes stockText "in stock" || includes stockText "available" then Some true
  else if includes stockText "out of stock" || includes stockText "unavailable" then Some false
  else None.

Definition checkAvailability (page : Page) : M (W * PageResult) unit :=
  availResult <- locate page Config.availConfig ;;
  match availResult with
  | Some r =>
      assign (withElements (withAvailability (fun a =>
        AvailabilityCheck.mk true (LocateResult.text r) (AvailabilityCheck.inStock a)
          (LocateResult.selector r) (LocateResult.strategy r)))) ;;;
      match stockFlag (LocateResult.text r) with
      | Some flag =>
          assign (withElements (withAvailability (fun a =>
            AvailabilityCheck.mk (AvailabilityCheck.present a) (AvailabilityCheck.text a)
              (Some flag) (AvailabilityCheck.selector a) (AvailabilityCheck.strategy a))))
      | None => ret tt
      end
  | None => ret tt
  end.

(** The pass criterion. *)
Definition verdict (e : Elements) : bool :=
  TextCheck.present (title e) && TextCheck.present (price e)
    && (CartCheck.present (addToCart e) || VariantCheck.present (variants e)).

Definition setVerdict : M (W * PageResult) unit :=
  assign (fun r => withPassed (verdict (elements r)) r).

(** The six checks and the verdict, after navigation. *)
Definition inspect (page : Page) : M (W * PageResult) unit :=
  checkTitle page ;;;
  checkPrice page ;;;
  checkAddToCart page ;;;
  checkDescription page ;;;
  checkVariants page ;;;
  checkAvailability page ;;;
  setVerdict.

(** The body of the [try] of [testProductPage]. *)
Definition validate (page : Page) (u : string) (settings : TestSettings) (startTime : Z)
    : M (W * PageResult) unit :=
  navigate page u settings startTime ;;;
  inspect page.

Definition testProductPage (page : Page) (u : string) (settings : TestSettings)
    : M W PageResult :=
  startTime <- total date_now ;;
  r <- scoped (initialResult u)
         (try_catch (validate page u settings startTime)
            (fun error => assign (pushError error))) ;;
  ret (snd r).

End ProductPageValidator.

(* ===================================================================== *)
(** * ImageAuditor: [testImageLoading] *)
(* ===================================================================== *)

Section ImageAuditor.
Context {W : Type} {PW : Playwright W} {RT : Runtime W}.
Import JsString.

Definition newImage (u src alt : string) : ImageRecord.t :=
  ImageRecord.mk u src false 0%Z alt (mkDimensions 0 0) [].

Definition markLoaded (r : ImageRecord.t) : ImageRecord.t :=
  ImageRecord.mk (ImageRecord.url r) (ImageRecord.src r) true 200%Z
    (ImageRecord.altText r) (ImageRecord.dimensions r) (ImageRecord.errors r).
Definition withDimensions (d : Dimensions) (r : ImageRecord.t) : ImageRecord.t :=
  ImageRecord.mk (ImageRecord.url r) (ImageRecord.src r) (ImageRecord.loaded r)
    (ImageRecord.status r) (ImageRecord.altText r) d (ImageRecord.errors r).
Definition pushImageError (message : string) (r : ImageRecord.t) : ImageRecord.t :=
  ImageRecord.mk (ImageRecord.url r) (ImageRecord.src r) (ImageRecord.loaded r)
    (ImageRecord.status r) (ImageRecord.altText r) (ImageRecord.dimensions r)
    (ImageRecord.errors r ++ [message]).

(** The source of an image node: [src], else [data-src], else the [url(...)]
    of an inline background image. *)
Definition resolveSource (src style : option string) : option string :=
  if negb (truthy src) && truthy style && includes (orEmpty style) "background-image" then
    match regexp_match1 Config.backgroundImage (orEmpty style) with
    | Some m => Some m
    | None => src
    end
  else src.

Definition auditImage (u : string) (img : Handle) : M (W * list ImageRecord.t) unit :=
  src1 <- liftW (getAttribute img "src") ;;
  src <- (if truthy src1 then ret src1 else liftW (getAttribute img "data-src")) ;;
  alt <- liftW (getAttribute img "alt") ;;
  style <- liftW (getAttribute img "style") ;;
  let imageSrc := resolveSource src style in
  if truthy imageSrc then
    r <- scoped (newImage u (orEmpty imageSrc) (orEmpty (or alt (Some ""))))
           (try_catch
              (visible <- liftW (liftW (isVisible (Elem img))) ;;
               if visible then
                 assign markLoaded ;;;
                 box <- liftW (liftW (boundingBox img)) ;;
                 match box with
                 | Some d => assign (withDimensions d)
                 | None => ret tt
                 end
               else ret tt)
              (fun error => assign (pushImageError error))) ;;
    assign (fun imageResults => imageResults ++ [snd r])
  else ret tt.

Definition testImageLoading (page : Page) (urls : list string) : M W (list ImageRecord.t) :=
  r <- scoped []
         (for_each urls (fun u =>
            try_catch
              (liftW (page_goto page u None) ;;;
               liftW (page_waitForTimeout page 2000%Z) ;;;
               images <- liftW (page_queryAll page Config.imageSelector) ;;
               for_each images (auditImage u))
              (fun _ => ret tt))) ;;
  ret (snd r).

End ImageAuditor.

(* ===================================================================== *)
(** * TestRunOrchestrator: [runTest] *)
(* ===================================================================== *)

(** The service object: [this.browser]. *)
Record Service : Type := mkService { browser : option BrowserProcess }.

(** The state of one execution: the world, the service object, the
    [testResult] document in memory, and two logs kept to state properties
    of the run: every value assigned to [testResult.status], in order, and
    every call of [testResult.save()] with the document as it was handed
    over and whether the call succeeded. *)
Record Exec (W : Type) : Type := mkExec {
  world : W;
  service : Service;
  testResult : TestResult.t;
  history : list Status;
  saves : list (TestResult.t * bool)
}.
Arguments mkExec {W}.
Arguments world {W}.
Arguments service {W}.
Arguments testResult {W}.
Arguments history {W}.
Arguments saves {W}.

Definition newTestResult (configurationId executionId : string) (startTime : Z)
    : TestResult.t := {|
  TestResult.configurationId := configurationId;
  TestResult.executionId := executionId;
  TestResult.status := running;
  TestResult.startTime := startTime;
  TestResult.endTime := None;
  TestResult.duration := None;
  TestResult.results := {|
    productPageTests := [];
    imageValidation := [];
    errorDetection := {| jsErrors := []; networkErrors := []; consoleWarnings := [] |} |};
  TestResult.aiAnalysis := None
|}.

Definition withStatus (s : Status) (d : TestResult.t) : TestResult.t :=
  TestResult.mk (TestResult.configurationId d) (TestResult.executionId d) s
    (TestResult.startTime d) (TestResult.endTime d) (TestResult.duration d)
    (TestResult.results d) (TestResult.aiAnalysis d).
Definition withEndTime (t : Z) (d : TestResult.t) : TestResult.t :=
  TestResult.mk (TestResult.configurationId d) (TestResult.executionId d) (TestResult.status d)
    (TestResult.startTime d) (Some t) (TestResult.duration d)
    (TestResult.results d) (TestResult.aiAnalysis d).
(** [testResult.duration = testResult.endTime - testResult.startTime] *)
Definition withDuration (d : TestResult.t) : TestResult.t :=
  TestResult.mk (TestResult.configurationId d) (TestResult.executionId d) (TestResult.status d)
    (TestResult.startTime d) (TestResult.endTime d)
    (option_map (fun e => (e - TestResult.startTime d)%Z) (TestResult.endTime d))
    (TestResult.results d) (TestResult.aiAnalysis d).
Definition withResults (f : Results -> Results) (d : TestResult.t) : TestResult.t :=
  TestResult.mk (TestResult.configurationId d) (TestResult.executionId d) (TestResult.status d)
    (TestResult.startTime d) (TestResult.endTime d) (TestResult.duration d)
    (f (TestResult.results d)) (TestResult.aiAnalysis d).
Definition withAiAnalysis (a : AiAnalysis) (d : TestResult.t) : TestResult.t :=
  TestResult.mk (TestResult.configurationId d) (TestResult.executionId d) (TestResult.status d)
    (TestResult.startTime d) (TestResult.endTime d) (TestResult.duration d)
    (TestResult.results d) (Some a).

(** [productPageTests.push(pageResult)]. The array is a document array:
    what it keeps of a page result is what its schema names (the URL, the
    verdict, the [present] flags with [text], [clickable] and [count], the
    performance figures and the errors). The model keeps the whole result,
    and what is stated of the document reads only fields the schema keeps. *)
Definition pushPageResult (r : PageResult) (rs : Results) : Results :=
  mkResults (productPageTests rs ++ [r]) (imageValidation rs) (errorDetection rs).
Definition withImageValidation (l : list ImageRecord.t) (rs : Results) : Results :=
  mkResults (productPageTests rs) l (errorDetection rs).
Definition withErrorDetection (e : ErrorDetection) (rs : Results) : Results :=
  mkResults (productPageTests rs) (imageValidation rs) e.

Section TestRunOrchestrator.
Context {W : Type} {PW : Playwright W} {RT : Runtime W} {CO : Collaborators W}.

(** A call on the world from within an execution. *)
Definition io {A} (m : M W A) : M (Exec W) A :=
  fun ex =>
    let (o, w') := m (world ex) in
    (o, mkExec w' (service ex) (testResult ex) (history ex) (saves ex)).

(** An assignment to a field of [testResult] other than [status]. *)
Definition update (f : TestResult.t -> TestResult.t) : M (Exec W) unit :=
  modify (fun ex => mkExec (world ex) (service ex) (f (testResult ex)) (history ex) (saves ex)).

(** [testResult.status = s] *)
Definition setStatus (s : Status) : M (Exec W) unit :=
  modify (fun ex =>
    mkExec (world ex) (service ex) (withStatus s (testResult ex)) (history ex ++ [s]) (saves ex)).

(** [await testResult.save()] *)
Definition save : M (Exec W) unit :=
  fun ex =>
    match db_save (testResult ex) (world ex) with
    | (Ok _, w') =>
        (Ok tt, mkExec w' (service ex) (testResult ex) (history ex)
                  (saves ex ++ [(testResult ex, true)]))
    | (Throw e, w') =>
        (Throw e, mkExec w' (service ex) (testResult ex) (history ex)
                    (saves ex ++ [(testResult ex, false)]))
    end.

(** [initializeBrowser] as one run goes through it with no other run in
    flight. Its two halves around the [await], between which another run
    can be scheduled, are [startInitialize] and [finishInitialize] below. *)
Definition initializeBrowser : M (Exec W) BrowserProcess :=
  ex <- get ;;
  match browser (service ex) with
  | Some b => ret b
  | None =>
      b <- io chromium_launch ;;
      modify (fun ex => mkExec (world ex) (mkService (Some b)) (testResult ex)
                          (history ex) (saves ex)) ;;;
      ret b
  end.

(** The three [page.on] registrations. *)
Definition installListeners (page : Page) : M (Exec W) unit :=
  io (fun w => (Ok tt, page_on page "console"
                         (page_on page "response" (page_on page "pageerror" w)))).

(** The body of the loop over the configured product pages. *)
Definition testOnePage (page : Page) (settings : TestSettings) (productPage : ProductPage)
    : M (Exec W) unit :=
  pageResult <- io (testProductPage page (pp_url productPage) settings) ;;
  update (withResults (pushPageResult pageResult)).

Definition testProductPages (page : Page) (configuration : TestConfiguration)
    : M (Exec W) unit :=
  for_each (productPages configuration) (testOnePage page (testSettings configuration)).

(** The [try] block of [runTest] up to the narrative analysis. *)
Definition prepare (configuration : TestConfiguration) : M (Exec W) unit :=
  save ;;;
  b <- initializeBrowser ;;
  context <- io (browser_newContext b (viewport (testSettings configuration))) ;;
  page <- io (context_newPage context) ;;
  installListeners page ;;;
  testProductPages page configuration ;;;
  imageResults <- io (testImageLoading page (map pp_url (productPages configuration))) ;;
  update (withResults (withImageValidation imageResults)) ;;;
  detected <- io (fun w => (Ok (collected page w), w)) ;;
  update (withResults (withErrorDetection detected)) ;;;
  io (context_close context) ;;;
  ex <- get ;;
  analysis <- io (analyzeTestResults (TestResult.results (testResult ex))) ;;
  update (withAiAnalysis analysis).

(** The rest of the [try] block: the final update of the document. *)
Definition complete : M (Exec W) TestResult.t :=
  setStatus completed ;;;
  endTime <- io (total date_now) ;;
  update (withEndTime endTime) ;;;
  update withDuration ;;;
  save ;;;
  ex <- get ;;
  ret (testResult ex).

(** The [try] block of [runTest]. *)
Definition execute (configuration : TestConfiguration) : M (Exec W) TestResult.t :=
  prepare configuration ;;;
  complete.

(** The [catch] block of [runTest]. *)
Definition onFailure (error : string) : M (Exec W) TestResult.t :=
  setStatus failed ;;;
  endTime <- io (total date_now) ;;
  update (withEndTime endTime) ;;;
  update withDuration ;;;
  save ;;;
  throw error.

(** The document [runTest] creates, and the world it is created in. *)
Definition startExec (configuration : TestConfiguration) (w : W) (svc : Service) : Exec W :=
  let (executionId, w1) := uuidv4 w in
  let (startTime, w2) := date_now w1 in
  mkExec w2 svc (newTestResult (_id configuration) executionId startTime) [] [].

Definition runTest (configuration : TestConfiguration) (w : W) (svc : Service)
    : outcome TestResult.t * Exec W :=
  try_catch (execute configuration) onFailure (startExec configuration w svc).

End TestRunOrchestrator.

(* ===================================================================== *)
(** * A small deterministic browser, for concrete runs *)
(* ===================================================================== *)

(** A site is a table from URL to the nodes of its page; a URL missing from
    the table cannot be reached. A node lists the selectors that select it.
    Calls of [save] fail at the positions listed. *)
Module Sim.
Import JsString.

Record Node : Type := mkNode {
  handle : Handle;
  selectedBy : list string;
  visible : bool;
  enabled : bool;
  detached : bool;               (* element operations reject *)
  nodeText : option string;      (* textContent *)
  rendered : option string;      (* innerText; [None]: the call rejects *)
  options : list Handle          (* handle.$$(selector) *)
}.

Record World : Type := mkWorld {
  clock : Z;
  site : list (string * list Node);
  dom : list Node;
  failingSaves : list nat;
  saveCalls : nat
}.

Definition tick (ms : Z) (w : World) : World :=
  mkWorld (clock w + ms) (site w) (dom w) (failingSaves w) (saveCalls w).
Definition load (d : list Node) (w : World) : World :=
  mkWorld (clock w) (site w) d (failingSaves w) (saveCalls w).
Definition countSave (w : World) : World :=
  mkWorld (clock w) (site w) (dom w) (failingSaves w) (S (saveCalls w)).

Fixpoint lookup (u : string) (table : list (string * list Node)) : option (list Node) :=
  match table with
  | [] => None
  | (k, d) :: rest => if String.eqb k u then Some d else lookup u rest
  end.

Definition selects (sel : string) (n : Node) : bool :=
  existsb (String.eqb sel) (selectedBy n).

Definition nodeOf (h : Handle) (w : World) : option Node :=
  find (fun n => handle n =? h) (dom w).

(** [getByText(pattern, { exact: false })]: case-insensitive substring. *)
Definition shows (pattern : string) (n : Node) : bool :=
  includes (toLowerCase (orEmpty (nodeText n))) (toLowerCase pattern).

Definition resolve (t : Target) (w : World) : option Node :=
  match t with
  | Elem h => nodeOf h w
  | FirstByText _ pattern => find (shows pattern) (dom w)
  end.

Definition onNode {A} (t : Target) (f : Node -> A) : M World A :=
  fun w =>
    match resolve t w with
    | Some n => if detached n then (Throw "Element is not attached to the DOM", w)
                else (Ok (f n), w)
    | None => (Throw "Element not found", w)
    end.

Definition asDomNode (n : Node) : DomNode := {|
  rect_width := if visible n then 100 else 0;
  rect_height := if visible n then 20 else 0;
  style_display := "block";
  style_visibility := "visible";
  node_textContent := nodeText n;
  node_innerText := rendered n;
  node_id := "";
  node_className := None;
  node_tagName := "DIV"
|}.

#[global] Instance playwright : Playwright World := {|
  page_goto := fun _ u _ w =>
    match lookup u (site w) with
    | Some d => (Ok tt, load d w)
    | None => (Throw ("net::ERR_NAME_NOT_RESOLVED at " +++ u), w)
    end;
  page_waitForTimeout := fun _ ms w => (Ok tt, tick ms w);
  page_waitForLoadState := fun _ _ _ w => (Ok tt, w);
  page_queryAll := fun _ sel w => (Ok (map handle (filter (selects sel) (dom w))), w);
  page_query := fun _ sel w => (Ok (option_map handle (find (selects sel) (dom w))), w);
  handle_queryAll := fun h _ => onNode (Elem h) options;
  isVisible := fun t => onNode t visible;
  isEnabled := fun t => onNode t enabled;
  textContent := fun t => onNode t nodeText;
  innerText := fun h w =>
    match nodeOf h w with
    | Some n => match rendered n with
                | Some s => (Ok s, w)
                | None => (Throw "innerText is not available", w)
                end
    | None => (Throw "Element not found", w)
    end;
  locator_count := fun _ pattern w => (Ok (List.length (filter (shows pattern) (dom w))), w);
  page_document := fun _ w => (Ok (map asDomNode (dom w)), w);
  getAttribute := fun _ _ w => (Ok None, w);
  boundingBox := fun _ w => (Ok None, w);
  chromium_launch := fun w => (Ok 1, w);
  browser_newContext := fun _ _ w => (Ok 1, w);
  context_newPage := fun _ w => (Ok 1, w);
  context_close := fun _ w => (Ok tt, w);
  page_on := fun _ _ w => w;
  collected := fun _ _ => mkErrorDetection [] [] []
|}.

(** The regular-expression engine: the (source, text) pairs that match,
    among the expressions of [Config] and the texts of the pages below. *)
Definition facts : list (string * string) := [
  ("\$\s*[\d,]+\.?\d*", "$19.99");
  ("\b\d+\.\d{2}\b", "$19.99");
  ("\b\d{1,3}(,\d{3})*(\.\d{2})?\b", "$19.99");
  ("in\s*stock", "In Stock");
  ("available", "Unavailable");
  ("unavailable", "Unavailable")
].

#[global] Instance runtime : Runtime World := {|
  date_now := fun w => (clock w, tick 1 w);
  uuidv4 := fun w => ("00000000-0000-4000-8000-000000000001", w);
  regexp_test := fun r content =>
    existsb (fun f => String.eqb (fst f) (source r) && String.eqb (snd f) content) facts;
  regexp_match1 := fun _ _ => None
|}.

#[global] Instance collaborators : Collaborators World := {|
  db_save := fun _ w =>
    if existsb (Nat.eqb (saveCalls w)) (failingSaves w)
    then (Throw "MongoNetworkError", countSave w)
    else (Ok tt, countSave w);
  analyzeTestResults := fun rs w =>
    (Ok (mkAiAnalysis "basic analysis" [] "low" 100), w)
|}.

End Sim.

(** ** Pages and configurations used in the concrete runs *)
Module Fixture.
Import Sim.

(** A visible, enabled, attached node whose rendered text is its text. *)
Definition node (h : Handle) (sels : list string) (txt : string) : Node :=
  mkNode h sels true true false (Some txt) (Some txt) [].

Definition titleNode : Node := node 1 ["h1"] "Blue Shirt".
Definition priceNode : Node := node 2 [".money"] "$19.99".
Definition cartNode : Node := node 3 ["button"] "Add to Cart".
Definition descNode : Node := node 4 [".description"] "A fine shirt.".
Definition sizeNode : Node := node 5 ["select"] "S M L".
Definition stockNode (txt : string) : Node := node 6 [".stock-status"] txt.

(** The page that holds exactly the chosen elements. *)
Definition pageWith (t p c d v a : bool) : list Node :=
  (if t then [titleNode] else []) ++ (if p then [priceNode] else [])
    ++ (if c then [cartNode] else []) ++ (if d then [descNode] else [])
    ++ (if v then [sizeNode] else []) ++ (if a then [stockNode "In Stock"] else []).

Definition shop : string := "https://shop.example/products/1".
Definition gone : string := "https://unreachable.invalid/".

Definition worldOf (pages : list (string * list Node)) (failing : list nat) : World :=
  mkWorld 0 pages [] failing 0.

Definition settings : TestSettings := mkTestSettings 30000 (mkViewport 1280 720).

(** The validator on the page that holds the chosen elements. *)
Definition validated (t p c d v a : bool) : outcome PageResult :=
  fst (testProductPage 1 shop settings (worldOf [(shop, pageWith t p c d v a)] [])).

(** The presence flags of a result: title, price, add-to-cart, description,
    variants, availability. *)
Definition flags (r : PageResult) : bool * bool * bool * bool * bool * bool :=
  (TextCheck.present (title (elements r)), TextCheck.present (price (elements r)),
   CartCheck.present (addToCart (elements r)), TextCheck.present (description (elements r)),
   VariantCheck.present (variants (elements r)),
   AvailabilityCheck.present (availability (elements r))).

(** A page that shows only a stock notice. *)
Definition notice (txt : string) : World := worldOf [(shop, [stockNode txt])] [].

(** A button that is there but disabled, and one whose state cannot be read. *)
Definition disabledButton : Node :=
  mkNode 3 ["button"] true false false (Some "Add to Cart") (Some "Add to Cart") [].

(** A description of 263 characters. *)
Definition longText : string :=
  let ten := "abcdefghij" in
  let fifty := ten +++ ten +++ ten +++ ten +++ ten in
  "Description: " +++ fifty +++ fifty +++ fifty +++ fifty +++ fifty.

(** Two option containers, the first one empty, and a size picker. *)
Definition swatches : list Node := [
  mkNode 1 [Config.variantContainers] true true false (Some "") (Some "") [];
  mkNode 2 [Config.variantContainers] true true false (Some "Color") (Some "Color") [10; 11; 12];
  sizeNode
].

(** Two pages, the first of them unreachable. *)
Definition twoPages : TestConfiguration :=
  mkTestConfiguration "cfg-1" [mkProductPage gone "a"; mkProductPage shop "b"] settings.

Definition fullShop : list (string * list Node) :=
  [(shop, pageWith true true true true true true)].

Definition idle : Service := mkService None.

End Fixture.

(* ===================================================================== *)
(** * Specifications used in the statements *)
(* ===================================================================== *)

(** [hoare P m Q]: from a state in [P], [m] ends, with a value or a thrown
    error, in an outcome and a state related by [Q]. *)
Definition hoare {S A} (P : S -> Prop) (m : M S A) (Q : outcome A -> S -> Prop) : Prop :=
  forall s, P s -> Q (fst (m s)) (snd (m s)).

(** [m] never throws. *)
Definition safe {S A} (m : M S A) : Prop :=
  hoare (fun _ => True) m (fun o _ => exists a, o = Ok a).

(** From a world in [I], the call [m] gives [v] and stays in [I]. *)
Definition answers {S A} (I : S -> Prop) (m : M S A) (v : outcome A) : Prop :=
  hoare I m (fun o s => o = v /\ I s).


(** ** What a locate result can be *)

Section LocatorSpecs.
Context {W : Type} {PW : Playwright W} {RT : Runtime W}.
Import JsString.

(** A result of strategy 1: an element handle under one of the selectors,
    with its trimmed, non-empty text; tagged [css-pattern] and matching a
    content pattern when the configuration has any, tagged [css] otherwise. *)
Definition cssResult (cfg : ElementConfig) (r : LocateResult.t) : Prop :=
  In (LocateResult.selector r) (selectors cfg)
  /\ (exists h, LocateResult.element r = Elem h)
  /\ (exists raw, LocateResult.text r = trim raw)
  /\ 0 < String.length (LocateResult.text r)
  /\ (if 0 <? List.length (contentPatterns cfg)
      then LocateResult.strategy r = "css-pattern"
           /\ existsb (matchesPattern (LocateResult.text r)) (contentPatterns cfg) = true
      else LocateResult.strategy r = "css").

Definition textResult (page : Page) (cfg : ElementConfig) (r : LocateResult.t) : Prop :=
  LocateResult.strategy r = "text"
  /\ exists pattern, In pattern (textPatterns cfg)
       /\ LocateResult.selector r = "text:" +++ pattern
       /\ LocateResult.element r = FirstByText page pattern.

Definition attributeResult (cfg : ElementConfig) (r : LocateResult.t) : Prop :=
  LocateResult.strategy r = "attribute"
  /\ 0 < String.length (LocateResult.text r)
  /\ exists attr, In attr (attributes cfg)
       /\ LocateResult.selector r = attributeSelector attr.

Definition contentResult (cfg : ElementConfig) (r : LocateResult.t) : Prop :=
  LocateResult.strategy r = "content-search"
  /\ 0 < List.length (contentPatterns cfg)
  /\ existsb (matchesPattern (LocateResult.text r)) (contentPatterns cfg) = true.

Definition provenance (page : Page) (cfg : ElementConfig) (r : LocateResult.t) : Prop :=
  cssResult cfg r \/ textResult page cfg r \/ attributeResult cfg r \/ contentResult cfg r.

(** ** A page that answers from a snapshot

    What the page shows at one moment: the handles each selector finds, in
    document order, and for each handle its visibility, its [textContent]
    and the outcome of [innerText()]. *)
Record Snapshot : Type := mkSnapshot {
  snap_query : string -> list Handle;
  snap_visible : Handle -> bool;
  snap_text : Handle -> option string;
  snap_inner : Handle -> outcome string
}.

(** The page answers from [d] in every world of [I]: queries and the
    operations on the handles they return succeed with the snapshot's
    values ([innerText] with the snapshot's outcome). *)
Definition reads (I : W -> Prop) (page : Page) (d : Snapshot) : Prop :=
  (forall sel, answers I (page_queryAll page sel) (Ok (snap_query d sel)))
  /\ (forall sel h, In h (snap_query d sel) ->
        answers I (isVisible (Elem h)) (Ok (snap_visible d h))
        /\ answers I (textContent (Elem h)) (Ok (snap_text d h))
        /\ answers I (innerText h) (snap_inner d h)).

(** The text strategy 1 reads off an element: its rendered text, else its
    text content, trimmed. *)
Definition shown (d : Snapshot) (h : Handle) : string :=
  let inner := match snap_inner d h with
               | Ok s => Some s
               | Throw _ => snap_text d h
               end in
  trim (orEmpty (or (or inner (snap_text d h)) (Some ""))).

(** Visible, with non-empty trimmed text. *)
Definition eligible (d : Snapshot) (h : Handle) : bool :=
  snap_visible d h && (0 <? String.length (shown d h)).

(** Eligible, and matching one of the content patterns when there are any. *)
Definition accepted (d : Snapshot) (patterns : list Pattern) (h : Handle) : bool :=
  eligible d h
  && (if 0 <? List.length patterns then existsb (matchesPattern (shown d h)) patterns
      else true).

(** The matches of the selectors: selector order, then document order. *)
Definition candidates (d : Snapshot) (sels : list string) : list (string * Handle) :=
  flat_map (fun sel => map (pair sel) (snap_query d sel)) sels.

Definition firstEligible (d : Snapshot) (sels : list string) : option (string * Handle) :=
  find (fun c => eligible d (snd c)) (candidates d sels).

Definition firstAccepted (d : Snapshot) (patterns : list Pattern) (sels : list string)
    : option (string * Handle) :=
  find (fun c => accepted d patterns (snd c)) (candidates d sels).

(** What strategy 1 returns for the candidate it settles on. *)
Definition cssFound (d : Snapshot) (patterns : list Pattern) (c : string * Handle)
    : LocateResult.t :=
  LocateResult.mk (Elem (snd c)) (shown d (snd c)) (fst c)
    (if 0 <? List.length patterns then "css-pattern" else "css").


End LocatorSpecs.

(** ** The snapshot of a page of the deterministic browser *)
Module SimPage.
Import Sim.

Definition nodeIn (d : list Node) (h : Handle) : option Node :=
  find (fun n => handle n =? h) d.

Definition snapshot (d : list Node) : Snapshot := {|
  snap_query := fun sel => map handle (filter (selects sel) d);
  snap_visible := fun h => match nodeIn d h with Some n => visible n | None => false end;
  snap_text := fun h => match nodeIn d h with Some n => nodeText n | None => None end;
  snap_inner := fun h =>
    match nodeIn d h with
    | Some n => match rendered n with
                | Some s => Ok s
                | None => Throw "innerText is not available"
                end
    | None => Throw "Element not found"
    end
|}.

(** The worlds in which the page [d] is loaded. *)
Definition showing (d : list Node) (w : World) : Prop := dom w = d.

(** No node of the page is detached. *)
Definition attached (d : list Node) : bool := forallb (fun n => negb (detached n)) d.

End SimPage.

(** ** Pages for the locator *)
Module LocatorFixture.
Import Sim.

(** Two headings that cannot be used (one hidden, one blank) before two
    that can. *)
Definition headings : list Node := [
  mkNode 1 ["h1"] false true false (Some "Hidden") (Some "Hidden") [];
  mkNode 2 ["h1"] true true false (Some "   ") (Some "   ") [];
  mkNode 3 ["h2"] true true false (Some " Blue Shirt ") (Some "Blue Shirt") [];
  mkNode 4 ["h2"] true true false (Some "Red Shirt") (Some "Red Shirt") []
].

(** A price tag whose first match carries no amount. *)
Definition prices : list Node := [
  mkNode 1 [".money"] true true false (Some "Call us") (Some "Call us") [];
  mkNode 2 [".money"] true true false (Some "$19.99") (Some "$19.99") []
].

(** A detached heading before a usable one under the same selector, and a
    usable one under the next selector. *)
Definition stale : list Node := [
  mkNode 1 ["h1"] true true true (Some "Gone") (Some "Gone") [];
  mkNode 2 ["h1"] true true false (Some "Blue Shirt") (Some "Blue Shirt") [];
  mkNode 3 ["h2"] true true false (Some "Red Shirt") (Some "Red Shirt") []
].

(** The world in which page [d] is loaded. *)
Definition loaded (d : list Node) : World := mkWorld 0 [] d [] 0.

End LocatorFixture.

(** ** The result as a function of what the six checks found *)

(** What variant detection ends with: nothing, an error recorded in the
    result, or a count with the selector and strategy that gave it. *)
Inductive VariantOutcome : Type :=
| NoVariants
| VariantError (message : string)
| VariantsFound (n : nat) (selector strategy : string).

Definition applyTitle (found : option LocateResult.t) (r : PageResult) : PageResult :=
  match found with
  | Some l => withElements (withTitle (fun _ =>
                TextCheck.mk true (LocateResult.text l)
                  (LocateResult.selector l) (LocateResult.strategy l))) r
  | None => r
  end.

Definition applyPrice (found : option LocateResult.t) (r : PageResult) : PageResult :=
  match found with
  | Some l => withElements (withPrice (fun _ =>
                TextCheck.mk true (LocateResult.text l)
                  (LocateResult.selector l) (LocateResult.strategy l))) r
  | None => r
  end.

Definition applyAddToCart (found : option (LocateResult.t * bool)) (r : PageResult)
    : PageResult :=
  match found with
  | Some (l, clickable) =>
      withElements (withAddToCart (fun _ =>
        CartCheck.mk true clickable (LocateResult.selector l) (LocateResult.strategy l))) r
  | None => r
  end.

Definition applyDescription (found : option LocateResult.t) (r : PageResult) : PageResult :=
  match found with
  | Some l => withElements (withDescription (fun _ =>
                TextCheck.mk true (JsString.substring0 200 (LocateResult.text l))
                  (LocateResult.selector l) (LocateResult.strategy l))) r
  | None => r
  end.

Definition applyVariants (v : VariantOutcome) (r : PageResult) : PageResult :=
  match v with
  | NoVariants => r
  | VariantError message => pushError ("Variant detection error: " +++ message) r
  | VariantsFound n sel strat =>
      withElements (withVariants (fun _ => VariantCheck.mk true n sel strat)) r
  end.

Definition applyAvailability (found : option LocateResult.t) (r : PageResult) : PageResult :=
  match found with
  | Some l =>
      withElements (withAvailability (fun a =>
        AvailabilityCheck.mk true (LocateResult.text l)
          (match stockFlag (LocateResult.text l) with
           | Some flag => Some flag
           | None => AvailabilityCheck.inStock a
           end)
          (LocateResult.selector l) (LocateResult.strategy l))) r
  | None => r
  end.

(** Everything [inspect] can find, in one record. *)
Record Findings : Type := mkFindings {
  f_title : option LocateResult.t;
  f_price : option LocateResult.t;
  f_cart : option (LocateResult.t * bool);
  f_description : option LocateResult.t;
  f_variants : VariantOutcome;
  f_availability : option LocateResult.t
}.

Definition wellFormed (f : Findings) : Prop :=
  match f_variants f with
  | VariantsFound n _ _ => 0 < n
  | _ => True
  end.

Definition assemble (f : Findings) (r : PageResult) : PageResult :=
  let filled :=
    applyAvailability (f_availability f)
      (applyVariants (f_variants f)
         (applyDescription (f_description f)
            (applyAddToCart (f_cart f)
               (applyPrice (f_price f)
                  (applyTitle (f_title f) r))))) in
  withPassed (verdict (elements filled)) filled.

(** The count of the container tier: the options of the first container
    that holds any. *)
Definition containerCount (containers : list Handle) (options : Handle -> list Handle) : nat :=
  match find (fun c => 0 <? List.length (options c)) containers with
  | Some c => List.length (options c)
  | None => 0
  end.

(** ** The status trace of an execution *)

(** The status was assigned once, to a terminal value. *)
Definition singleTransition (h : list Status) : Prop :=
  exists s, h = [s] /\ s <> running.

(** ** Variant detection without its local variables *)

Section VariantSpecs.
Context {W : Type} {PW : Playwright W} {RT : Runtime W}.

(** The loop over the containers: the options of the first container that
    holds any. *)
Definition containerScan (containers : list Handle) : M W (option (list Handle)) :=
  for_first containers (fun container =>
    options <- handle_queryAll container Config.variantOptions ;;
    if 0 <? List.length options then ret (Some options) else ret None).

(** What variant detection ends with, world by world. *)
Definition variantOutcome (page : Page) (w : W) : VariantOutcome * W :=
  match page_queryAll page Config.variantContainers w with
  | (Throw e, w1) => (VariantError e, w1)
  | (Ok containers, w1) =>
      match containerScan containers w1 with
      | (Throw e, w2) => (VariantError e, w2)
      | (Ok (Some options), w2) =>
          (VariantsFound (List.length options) "container-based" "container", w2)
      | (Ok None, w2) =>
          match findElementWithMultipleStrategies page Config.variantConfig w2 with
          | (Throw e, w3) => (VariantError e, w3)
          | (Ok None, w3) => (NoVariants, w3)
          | (Ok (Some l), w3) =>
              match page_queryAll page (LocateResult.selector l) w3 with
              | (Throw e, w4) => (VariantError e, w4)
              | (Ok allVariants, w4) =>
                  (if 0 <? List.length allVariants
                   then VariantsFound (List.length allVariants)
                          (LocateResult.selector l) (LocateResult.strategy l)
                   else NoVariants, w4)
              end
          end
      end
  end.

End VariantSpecs.

Module SimOptions.
Import Sim.

(** The options the deterministic browser reports inside a container. *)
Definition optionsOf (d : list Node) (c : Handle) : list Handle :=
  match SimPage.nodeIn d c with
  | Some n => options n
  | None => []
  end.

End SimOptions.

(** ** What the steps between the two status assignments leave alone *)

(** The two documents agree on everything but results and analysis. *)
Definition sameHeader (d0 d : TestResult.t) : Prop :=
  TestResult.configurationId d = TestResult.configurationId d0
  /\ TestResult.executionId d = TestResult.executionId d0
  /\ TestResult.status d = TestResult.status d0
  /\ TestResult.startTime d = TestResult.startTime d0
  /\ TestResult.endTime d = TestResult.endTime d0
  /\ TestResult.duration d = TestResult.duration d0.

(** [ex] differs from [ex0] at most in the world, the service object, and
    the results and analysis of the document. *)
Definition keeps {W : Type} (ex0 ex : Exec W) : Prop :=
  history ex = history ex0
  /\ saves ex = saves ex0
  /\ sameHeader (testResult ex0) (testResult ex).

(** A step that assigns no status, saves nothing and leaves the header. *)
Definition quiet {W A : Type} (m : M (Exec W) A) : Prop :=
  forall ex0, hoare (keeps ex0) m (fun _ ex => keeps ex0 ex).

(** The document after the final stamp with status [s] at time [t]. *)
Definition stamped (s : Status) (t : Z) (d : TestResult.t) : TestResult.t :=
  withDuration (withEndTime t (withStatus s d)).

(** The page results of an execution. *)
Definition pageResults {W : Type} (ex : Exec W) : list PageResult :=
  productPageTests (TestResult.results (testResult ex)).

(** The first answer among those [val] gives along a list. *)
Fixpoint firstSome {X R : Type} (val : X -> option R) (xs : list X) : option R :=
  match xs with
  | [] => None
  | x :: rest =>
      match val x with
      | Some r => Some r
      | None => firstSome val rest
      end
  end.

(* ===================================================================== *)
(** * Specifications of the other strategies of the locator *)
(* ===================================================================== *)

Section StrategySpecs.
Context {W : Type} {PW : Playwright W} {RT : Runtime W}.
Import JsString.

(** What [getByText] shows for each pattern at one moment: the number of
    matches and, for the first of them, its visibility and [textContent]. *)
Record TextSnapshot : Type := mkTextSnapshot {
  text_count : string -> nat;
  text_visible : string -> bool;
  text_content : string -> option string
}.

(** The page answers text lookups from [d] in every world of [I]. *)
Definition readsText (I : W -> Prop) (page : Page) (d : TextSnapshot) : Prop :=
  (forall pattern, answers I (locator_count page pattern) (Ok (text_count d pattern)))
  /\ (forall pattern, 0 < text_count d pattern ->
        answers I (isVisible (FirstByText page pattern)) (Ok (text_visible d pattern))
        /\ answers I (textContent (FirstByText page pattern)) (Ok (text_content d pattern))).

(** The pattern occurs, and its first occurrence is visible. *)
Definition textEligible (d : TextSnapshot) (pattern : string) : bool :=
  (0 <? text_count d pattern) && text_visible d pattern.

(** What strategy 2 returns for the pattern it settles on. *)
Definition textFound (page : Page) (d : TextSnapshot) (pattern : string) : LocateResult.t :=
  LocateResult.mk (FirstByText page pattern)
    (orEmpty (or (option_map trim (text_content d pattern)) (Some "")))
    ("text:" +++ pattern) "text".

(** The page answers queries, visibility and [textContent] from [d]; nothing
    is asked of [innerText]. *)
Definition readsElements (I : W -> Prop) (page : Page) (d : Snapshot) : Prop :=
  (forall sel, answers I (page_queryAll page sel) (Ok (snap_query d sel)))
  /\ (forall sel h, In h (snap_query d sel) ->
        answers I (isVisible (Elem h)) (Ok (snap_visible d h))
        /\ answers I (textContent (Elem h)) (Ok (snap_text d h))).

(** The text strategy 3 reads off an element: its text content, trimmed. *)
Definition ownText (d : Snapshot) (h : Handle) : string :=
  orEmpty (or (option_map trim (snap_text d h)) (Some "")).

Definition attributeEligible (d : Snapshot) (h : Handle) : bool :=
  snap_visible d h && (0 <? String.length (ownText d h)).

Definition firstByAttribute (d : Snapshot) (attrs : list Attribute) : option (string * Handle) :=
  find (fun c => attributeEligible d (snd c)) (candidates d (map attributeSelector attrs)).

Definition attributeFound (d : Snapshot) (c : string * Handle) : LocateResult.t :=
  LocateResult.mk (Elem (snd c)) (ownText d (snd c)) (fst c) "attribute".

(** The document scan of strategy 4, node by node: a node counts when it
    has a box and is not hidden by its own style, its trimmed text is not
    empty, and that text matches a pattern. *)
Definition hasBox (node : DomNode) : bool :=
  negb ((rect_width node =? 0)%Z || (rect_height node =? 0)%Z).

Definition styledVisible (node : DomNode) : bool :=
  negb (String.eqb (style_display node) "none"
        || String.eqb (style_visibility node) "hidden").

Definition scanText (node : DomNode) : string :=
  trim (orEmpty (or (or (node_textContent node) (node_innerText node)) (Some ""))).

Definition scanAccepts (patterns : list Pattern) (node : DomNode) : bool :=
  hasBox node && styledVisible node
  && (0 <? String.length (scanText node))
  && existsb (matchesPattern (scanText node)) patterns.

(** A run of [n] spaces, and the strings that hold no space: the shapes a
    class attribute is made of. *)
Fixpoint spaces (n : nat) : string :=
  match n with
  | O => ""
  | S m => String " " (spaces m)
  end.

Fixpoint spaceFree (s : string) : bool :=
  match s with
  | EmptyString => true
  | String c s' => negb (Ascii.eqb c " ") && spaceFree s'
  end.

(** What strategy 4 returns for the node the scan settles on, given what
    [page.$] makes of the selector made up for it. *)
Definition contentFound (resolved : string -> outcome (option Handle)) (node : DomNode)
    : option LocateResult.t :=
  match resolved (synthSelector node) with
  | Ok (Some h) =>
      Some (LocateResult.mk (Elem h) (scanText node) (synthSelector node) "content-search")
  | _ => None
  end.

(** The five strategy tags, each with what it says of the result. *)
Definition tagged (page : Page) (cfg : ElementConfig) (r : LocateResult.t) : Prop :=
  (LocateResult.strategy r = "css"
   /\ contentPatterns cfg = [] /\ In (LocateResult.selector r) (selectors cfg)
   /\ (exists h, LocateResult.element r = Elem h)
   /\ 0 < String.length (LocateResult.text r))
  \/ (LocateResult.strategy r = "css-pattern"
      /\ contentPatterns cfg <> [] /\ In (LocateResult.selector r) (selectors cfg)
      /\ (exists h, LocateResult.element r = Elem h)
      /\ 0 < String.length (LocateResult.text r)
      /\ existsb (matchesPattern (LocateResult.text r)) (contentPatterns cfg) = true)
  \/ (LocateResult.strategy r = "text"
      /\ exists pattern, In pattern (textPatterns cfg)
           /\ LocateResult.selector r = "text:" +++ pattern
           /\ LocateResult.element r = FirstByText page pattern)
  \/ (LocateResult.strategy r = "attribute"
      /\ (exists attr, In attr (attributes cfg)
            /\ LocateResult.selector r = attributeSelector attr)
      /\ (exists h, LocateResult.element r = Elem h)
      /\ 0 < String.length (LocateResult.text r))
  \/ (LocateResult.strategy r = "content-search"
      /\ contentPatterns cfg <> []
      /\ (exists h, LocateResult.element r = Elem h)
      /\ 0 < String.length (LocateResult.text r)
      /\ existsb (matchesPattern (LocateResult.text r)) (contentPatterns cfg) = true).

End StrategySpecs.

(** The text snapshot of a page of the deterministic browser. *)
Module SimText.
Import Sim.

Definition snapshot (d : list Node) : TextSnapshot := {|
  text_count := fun pattern => List.length (filter (shows pattern) d);
  text_visible := fun pattern =>
    match find (shows pattern) d with Some n => visible n | None => false end;
  text_content := fun pattern =>
    match find (shows pattern) d with Some n => nodeText n | None => None end
|}.

End SimText.

(** Pages for the other strategies. *)
Module StrategyFixture.
Import Sim.

(** A hidden "Buy Now" label, and a visible link that says "Add". *)
Definition labels : list Node := [
  mkNode 1 [] false true false (Some "Buy Now") (Some "Buy Now") [];
  mkNode 2 [] true true false (Some " Add one ") (Some "Add one") []
].

(** Two elements under a test id: the first blank, the second a price
    without amount. *)
Definition testIds : list Node := [
  mkNode 1 [attributeSelector (mkAttribute "data-testid" "price")] true true false
    (Some "  ") (Some "") [];
  mkNode 2 [attributeSelector (mkAttribute "data-testid" "price")] true true false
    (Some " Call us ") (Some "Call us") []
].

(** A banner that the selector [div] finds, before a price that no
    selector finds. *)
Definition loose : list Node := [
  mkNode 1 ["div"] true true false (Some "Welcome") (Some "Welcome") [];
  mkNode 2 [] true true false (Some "$19.99") (Some "$19.99") []
].

End StrategyFixture.

(* ===================================================================== *)
(** * Where the findings of the validator come from *)
(* ===================================================================== *)

Section FindingSpecs.
Context {W : Type} {PW : Playwright W} {RT : Runtime W}.

(** Every located element carries a tag its configuration can give; a
    variant count comes from the container tier or from a located
    element. *)
Definition sourced (page : Page) (f : Findings) : Prop :=
  (forall l, f_title f = Some l -> tagged page Config.titleConfig l)
  /\ (forall l, f_price f = Some l -> tagged page Config.priceConfig l)
  /\ (forall l b, f_cart f = Some (l, b) -> tagged page Config.cartConfig l)
  /\ (forall l, f_description f = Some l -> tagged page Config.descConfig l)
  /\ (forall l, f_availability f = Some l -> tagged page Config.availConfig l)
  /\ (forall n sel strat, f_variants f = VariantsFound n sel strat ->
        (sel = "container-based" /\ strat = "container")
        \/ exists l, tagged page Config.variantConfig l
                     /\ sel = LocateResult.selector l /\ strat = LocateResult.strategy l).

End FindingSpecs.

Module ValidatorFixture.
Import Sim.

(** A page with title, price and button, and an option container that has
    left the document. *)
Definition staleContainer : list Node :=
  [Fixture.titleNode; Fixture.priceNode; Fixture.cartNode;
   mkNode 7 [Config.variantContainers] true true true (Some "Size") (Some "Size") [8; 9]].

End ValidatorFixture.

(* ===================================================================== *)
(** * Specifications of the image auditor *)
(* ===================================================================== *)

(** What every record of the auditor looks like: filed under the page it
    was found on, with a source; loaded with status 200, or not loaded with
    status 0 and no dimensions; at most one error, and none beside
    dimensions. *)
Definition audited (u : string) (r : ImageRecord.t) : Prop :=
  ImageRecord.url r = u
  /\ ImageRecord.src r <> ""
  /\ ((ImageRecord.loaded r = true /\ ImageRecord.status r = 200%Z)
      \/ (ImageRecord.loaded r = false /\ ImageRecord.status r = 0%Z
          /\ ImageRecord.dimensions r = mkDimensions 0 0))
  /\ List.length (ImageRecord.errors r) <= 1
  /\ (ImageRecord.errors r <> [] -> ImageRecord.dimensions r = mkDimensions 0 0).

Section AuditorSpecs.
Context {W : Type} {RT : Runtime W}.
Import JsString.

(** The source the auditor settles on, from the four attributes it reads. *)
Definition imageSource (src dataSrc style : option string) : option string :=
  resolveSource (if truthy src then src else dataSrc) style.

(** The record for an image with a source, from the outcomes of
    [isVisible] and [boundingBox]. *)
Definition auditedImage (u imageSrc : string) (alt : option string)
    (visible : outcome bool) (box : outcome (option Dimensions)) : ImageRecord.t :=
  let fresh := newImage u imageSrc (orEmpty (or alt (Some ""))) in
  match visible with
  | Ok true =>
      match box with
      | Ok (Some d) => withDimensions d (markLoaded fresh)
      | Ok None => markLoaded fresh
      | Throw e => pushImageError e (markLoaded fresh)
      end
  | Ok false => fresh
  | Throw e => pushImageError e fresh
  end.

End AuditorSpecs.

(** ** A browser that shows images, for concrete runs of the auditor *)
Module Gallery.
Import JsString.

Record Image : Type := mkImage {
  handle : Handle;
  attrs : list (string * string);
  visible : bool;
  box : option Dimensions;
  stale : bool                      (* [isVisible] rejects *)
}.

Record World : Type := mkWorld {
  site : list (string * list Image);
  shown : list Image
}.

Fixpoint lookup {A : Type} (k : string) (table : list (string * A)) : option A :=
  match table with
  | [] => None
  | (k', v) :: rest => if String.eqb k' k then Some v else lookup k rest
  end.

Definition imageOf (h : Handle) (w : World) : option Image :=
  find (fun i => handle i =? h) (shown w).

Definition onImage {A : Type} (h : Handle) (f : Image -> outcome A) : M World A :=
  fun w =>
    match imageOf h w with
    | Some i => (f i, w)
    | None => (Throw "Element not found", w)
    end.

Definition unsupported {A : Type} : M World A := throw "not part of the gallery".

Definition playwright : Playwright World := {|
  page_goto := fun _ u _ w =>
    match lookup u (site w) with
    | Some images => (Ok tt, mkWorld (site w) images)
    | None => (Throw ("net::ERR_NAME_NOT_RESOLVED at " +++ u), w)
    end;
  page_waitForTimeout := fun _ _ => ret tt;
  page_waitForLoadState := fun _ _ _ => ret tt;
  page_queryAll := fun _ sel w =>
    (Ok (if String.eqb sel Config.imageSelector then map handle (shown w) else []), w);
  page_query := fun _ _ => ret None;
  handle_queryAll := fun _ _ => ret [];
  isVisible := fun t =>
    match t with
    | Elem h => onImage h (fun i => if stale i then Throw "Element is not attached to the DOM"
                                    else Ok (visible i))
    | FirstByText _ _ => unsupported
    end;
  isEnabled := fun _ => unsupported;
  textContent := fun _ => unsupported;
  innerText := fun _ => unsupported;
  locator_count := fun _ _ => ret 0;
  page_document := fun _ => ret [];
  getAttribute := fun h a => onImage h (fun i => Ok (lookup a (attrs i)));
  boundingBox := fun h => onImage h (fun i => Ok (box i));
  chromium_launch := ret 1;
  browser_newContext := fun _ _ => ret 1;
  context_newPage := fun _ => ret 1;
  context_close := fun _ => ret tt;
  page_on := fun _ _ w => w;
  collected := fun _ _ => mkErrorDetection [] [] []
|}.

(** The inline style of the hero banner, and what the background-image
    expression captures in it. *)
Definition heroStyle : string := "background-image: url('/img/hero.png')".

Definition runtime : Runtime World := {|
  date_now := fun w => (0%Z, w);
  uuidv4 := fun w => ("00000000-0000-4000-8000-000000000002", w);
  regexp_test := fun _ _ => false;
  regexp_match1 := fun r s =>
    if String.eqb (source r) (source Config.backgroundImage) && String.eqb s heroStyle
    then Some "/img/hero.png" else None
|}.

(** A page with a plain image, a lazy one, a hero banner, a node with an
    empty [src] and nothing else, a hidden image and one that has left the
    document. *)
Definition home : string := "https://shop.example/".
Definition images : list Image := [
  mkImage 1 [("src", "/img/a.png"); ("data-src", "/img/lazy-a.png"); ("alt", "Shirt")]
    true (Some (mkDimensions 640 480)) false;
  mkImage 2 [("src", ""); ("data-src", "/img/b.png")] true None false;
  mkImage 3 [("style", heroStyle)] true (Some (mkDimensions 1280 300)) false;
  mkImage 4 [("src", ""); ("style", "color: red")] true (Some (mkDimensions 10 10)) false;
  mkImage 5 [("src", "/img/c.png"); ("alt", "")] false (Some (mkDimensions 5 5)) false;
  mkImage 6 [("src", "/img/d.png")] true (Some (mkDimensions 7 7)) true
].

Definition world : World := mkWorld [(home, images)] [].

End Gallery.

(* ===================================================================== *)
(** * Specifications of the run orchestrator *)
(* ===================================================================== *)

(** The document holds no page result and no analysis yet. *)
Definition noPages (d : TestResult.t) : Prop :=
  productPageTests (TestResult.results d) = [] /\ TestResult.aiAnalysis d = None.

(** The document holds one page result per configured page, in order, each
    under its page's URL. *)
Definition allPages (cfg : TestConfiguration) (d : TestResult.t) : Prop :=
  map url (productPageTests (TestResult.results d)) = map pp_url (productPages cfg).

(** A step that leaves the service object as it is. *)
Definition steady {W A : Type} (m : M (Exec W) A) : Prop :=
  forall svc, hoare (fun ex => service ex = svc) m (fun _ ex => service ex = svc).

(** ** [closeBrowser]

    [browser.close()] is called by [closeBrowser] alone, so it is an oracle
    of its own. *)
Class BrowserShutdown (W : Type) : Type := {
  browser_close : BrowserProcess -> M W unit
}.

Section BrowserHandle.
Context {W : Type} {BS : BrowserShutdown W}.

Definition closeBrowser : M (Exec W) unit :=
  ex <- get ;;
  match browser (service ex) with
  | Some b =>
      io (browser_close b) ;;;
      modify (fun ex => mkExec (world ex) (mkService None) (testResult ex)
                          (history ex) (saves ex))
  | None => ret tt
  end.

End BrowserHandle.

(** A browser of the deterministic world that closes unless it is the
    one numbered 13. *)
Definition simShutdown : BrowserShutdown Sim.World := {|
  browser_close := fun b w =>
    if b =? 13 then (Throw "Target closed", w) else (Ok tt, w)
|}.

(* ===================================================================== *)
(** * ErrorCollector: the three listeners [runTest] registers *)
(* ===================================================================== *)

(** What the page emits, as far as the listeners read it: [error.message]
    and [error.stack] (which may be undefined); [response.ok()], [url()],
    [status()] and [statusText()]; [msg.type()] and [msg.text()]. *)
Inductive PageEvent : Type :=
| PageErrorEvent (message : string) (stack : option string)
| ResponseEvent (ok : bool) (url : string) (status : Z) (statusText : string)
| ConsoleEvent (type text : string).

(** [s.split(sep)] for a separator of one character. *)
Fixpoint splitOn (sep : ascii) (s : string) : list string :=
  match s with
  | EmptyString => [EmptyString]
  | String c s' =>
      if Ascii.eqb c sep then EmptyString :: splitOn sep s'
      else match splitOn sep s' with
           | [] => [String c EmptyString]
           | w :: ws => String c w :: ws
           end
  end.

Definition newline : ascii := ascii_of_nat 10.

(** [error.stack?.split('\n')[1] || ''] *)
Definition stackSource (stack : option string) : string :=
  match stack with
  | Some s => JsString.orEmpty (JsString.or (nth_error (splitOn newline s) 1) (Some ""))
  | None => ""
  end.

Definition pushJsError (e : JsError) (d : ErrorDetection) : ErrorDetection :=
  mkErrorDetection (jsErrors d ++ [e]) (networkErrors d) (consoleWarnings d).
Definition pushNetworkError (e : NetworkError) (d : ErrorDetection) : ErrorDetection :=
  mkErrorDetection (jsErrors d) (networkErrors d ++ [e]) (consoleWarnings d).
Definition pushConsoleWarning (e : ConsoleWarning) (d : ErrorDetection) : ErrorDetection :=
  mkErrorDetection (jsErrors d) (networkErrors d) (consoleWarnings d ++ [e]).

Section ErrorCollector.
Context {W : Type} {RT : Runtime W}.

(** The listener of [pageerror]. *)
Definition onPageError (message : string) (stack : option string)
    : M (W * ErrorDetection) unit :=
  let source := stackSource stack in
  timestamp <- liftW (total date_now) ;;
  assign (pushJsError (mkJsError message source timestamp)).

(** The listener of [response]. *)
Definition onResponse (ok : bool) (u : string) (status : Z) (statusText : string)
    : M (W * ErrorDetection) unit :=
  if negb ok then
    timestamp <- liftW (total date_now) ;;
    assign (pushNetworkError (mkNetworkError u status statusText timestamp))
  else ret tt.

(** The listener of [console]. *)
Definition onConsole (type text : string) : M (W * ErrorDetection) unit :=
  if String.eqb type "warning" then
    timestamp <- liftW (total date_now) ;;
    assign (pushConsoleWarning (mkConsoleWarning text timestamp))
  else ret tt.

(** The page hands each event to the listener registered for it. *)
Definition dispatch (event : PageEvent) : M (W * ErrorDetection) unit :=
  match event with
  | PageErrorEvent message stack => onPageError message stack
  | ResponseEvent ok u status statusText => onResponse ok u status statusText
  | ConsoleEvent type text => onConsole type text
  end.

Definition deliver (events : list PageEvent) : M (W * ErrorDetection) unit :=
  for_each events dispatch.

End ErrorCollector.

(** What a sequence of events should leave in the three arrays. *)
Definition pageErrorsOf (events : list PageEvent) : list (string * string) :=
  flat_map (fun e => match e with
                     | PageErrorEvent message stack => [(message, stackSource stack)]
                     | _ => []
                     end) events.

Definition failedResponsesOf (events : list PageEvent) : list (string * Z * string) :=
  flat_map (fun e => match e with
                     | ResponseEvent false u status statusText => [(u, status, statusText)]
                     | _ => []
                     end) events.

Definition warningsOf (events : list PageEvent) : list string :=
  flat_map (fun e => match e with
                     | ConsoleEvent type text =>
                         if String.eqb type "warning" then [text] else []
                     | _ => []
                     end) events.

(* ===================================================================== *)
(** * AIAnalysisService: the issue summary and the risk fallback *)
(* ===================================================================== *)

Module AIAnalysisService.
Import JsString.
Import PrimFloat.

(** What the callback of [forEach] pushes for one page result. *)
Definition issuesOf (test : PageResult) : list string :=
  (if negb (TextCheck.present (title (elements test)))
   then ["Missing product titles"] else [])
  ++ (if negb (TextCheck.present (price (elements test)))
      then ["Missing price display"] else [])
  ++ (if negb (CartCheck.present (addToCart (elements test)))
      then ["Missing add to cart buttons"] else []).

(** [[...new Set(issues)]]: each value once, in the order of first
    occurrence. *)
Fixpoint distinct (seen issues : list string) : list string :=
  match issues with
  | [] => []
  | x :: rest =>
      if existsb (String.eqb x) seen then distinct seen rest
      else x :: distinct (x :: seen) rest
  end.

(** [parts.join(sep)] *)
Fixpoint join (sep : string) (parts : list string) : string :=
  match parts with
  | [] => ""
  | [x] => x
  | x :: rest => x +++ sep +++ join sep rest
  end.

Definition getCriticalElementIssues (productPageTests : list PageResult) : string :=
  let issues := flat_map issuesOf productPageTests in
  let joined := join ", " (distinct [] issues) in
  if isEmpty joined then "None" else joined.

(** The leftmost match of [/(low|medium|high|critical)/] in a string. *)
Fixpoint riskWord (s : string) : option string :=
  if startsWith s "low" then Some "low"
  else if startsWith s "medium" then Some "medium"
  else if startsWith s "high" then Some "high"
  else if startsWith s "critical" then Some "critical"
  else match s with
       | EmptyString => None
       | String _ rest => riskWord rest
       end.

(** The argument of [calculateRiskLevel]: a results object, or the string
    [extractRiskLevel] passes. *)
Inductive RiskInput : Type :=
| OfResults (results : Results)
| OfText (text : string).

(** The JavaScript number of a length: a double, which holds every
    integer below 2^53 exactly, so that adding 1 is exact. *)
Fixpoint number (n : nat) : PrimFloat.float :=
  match n with
  | O => 0%float
  | S m => (number m + 1)%float
  end.

#[local] Set Warnings "-inexact-float".

(** The fallback risk computation, in double arithmetic as in the source.
    On a string [results.productPageTests] is undefined, so the failure rate
    is 0 there. *)
Definition calculateRiskLevel (results : RiskInput) : string :=
  let failureRate :=
    match results with
    | OfResults r =>
        (1 - number (List.length (filter passed (productPageTests r)))
             / number (List.length (productPageTests r)))%float
    | OfText _ => 0%float
    end in
  if (0.5 <? failureRate)%float then "critical"
  else if (0.3 <? failureRate)%float then "high"
  else if (0.1 <? failureRate)%float then "medium"
  else "low".

Definition extractRiskLevel (text : string) : string :=
  match riskWord (toLowerCase text) with
  | Some word => word
  | None => calculateRiskLevel (OfText text)
  end.

End AIAnalysisService.

Section DocumentSpecs.
Context {W : Type} {PW : Playwright W} {RT : Runtime W} {CO : Collaborators W}.

(** The document holds what the collaborators returned: the image records
    are those the auditor returned for the configured URLs, the detected
    errors are those collected on the page when the audit was over, and the
    analysis is the one computed from the results the document holds. *)
Definition settled (cfg : TestConfiguration) (d : TestResult.t) : Prop :=
  exists page w1 w2 w3 w4 a,
    testImageLoading page (map pp_url (productPages cfg)) w1
    = (Ok (imageValidation (TestResult.results d)), w2)
    /\ errorDetection (TestResult.results d) = collected page w2
    /\ analyzeTestResults (TestResult.results d) w3 = (Ok a, w4)
    /\ TestResult.aiAnalysis d = Some a.

End DocumentSpecs.

(* ===================================================================== *)
(** * The specification's wording, where the code differs from it *)
(* ===================================================================== *)

(** The count of the container tier as the specification words it: the
    options inside the first container found, whether it holds any or not.
    The code's count is [containerCount]. *)
Definition firstContainerCount (containers : list Handle) (options : Handle -> list Handle)
    : nat :=
  match containers with
  | c :: _ => List.length (options c)
  | [] => 0
  end.

Section CandidateWise.
Context {W : Type} {PW : Playwright W} {RT : Runtime W}.



End CandidateWise.

Module CandidateFixture.
Import Sim.


End CandidateFixture.

(* ===================================================================== *)
(** * Two runs in flight *)
(* ===================================================================== *)

(** The service is one object shared by every run, and a run is started
    without being awaited, so a second run can start while the first is
    suspended at an [await]. [initializeBrowser] has one [await], on
    [chromium.launch]: the code before it (the test of [this.browser] and
    the call that starts the launch) and the code after it (the assignment
    and the [return]) each run without interruption, and other code can run
    in between. [runTest] above is one run with no other run in flight. *)
Section SharedService.
Context {W : Type} {PW : Playwright W}.

(** [initializeBrowser] up to its [await]: [inl b] when the service holds
    the browser [b], which is returned; [inr o] when it holds none and the
    launch has been started, [o] being what the launch will settle with. *)
Definition startInitialize : M (Exec W) (BrowserProcess + outcome BrowserProcess) :=
  fun ex =>
    match browser (service ex) with
    | Some b => (Ok (inl b), ex)
    | None =>
        let (o, w') := chromium_launch (world ex) in
        (Ok (inr o), mkExec w' (service ex) (testResult ex) (history ex) (saves ex))
    end.

(** [initializeBrowser] from its [await] on: the assignment to
    [this.browser] and the [return], or the rejection. *)
Definition finishInitialize (r : BrowserProcess + outcome BrowserProcess)
    : M (Exec W) BrowserProcess :=
  match r with
  | inl b => ret b
  | inr (Ok b) =>
      modify (fun ex => mkExec (world ex) (mkService (Some b)) (testResult ex)
                          (history ex) (saves ex)) ;;;
      ret b                         (* [return this.browser], just assigned *)
  | inr (Throw e) => throw e
  end.

(** Two calls of [initializeBrowser], the second started while the first
    is suspended at its [await]; the launches settle in the order they were
    started. *)
Definition overlappingInitialize : M (Exec W) (BrowserProcess * BrowserProcess) :=
  first <- startInitialize ;;
  second <- startInitialize ;;
  b1 <- finishInitialize first ;;
  b2 <- finishInitialize second ;;
  ret (b1, b2).

(** Two calls of [initializeBrowser], the second started after the first
    has returned. *)
Definition successiveInitialize : M (Exec W) (BrowserProcess * BrowserProcess) :=
  b1 <- initializeBrowser ;;
  b2 <- initializeBrowser ;;
  ret (b1, b2).

End SharedService.

(** A launcher that numbers the browsers it starts; nothing else of the
    browser is there. *)
Module Launcher.

Definition World : Type := nat.

Definition absent {A : Type} : M World A := throw "not part of the launcher".

Definition playwright : Playwright World := {|
  page_goto := fun _ _ _ => absent;
  page_waitForTimeout := fun _ _ => absent;
  page_waitForLoadState := fun _ _ _ => absent;
  page_queryAll := fun _ _ => absent;
  page_query := fun _ _ => absent;
  handle_queryAll := fun _ _ => absent;
  isVisible := fun _ => absent;
  isEnabled := fun _ => absent;
  textContent := fun _ => absent;
  innerText := fun _ => absent;
  locator_count := fun _ _ => absent;
  page_document := fun _ => absent;
  getAttribute := fun _ _ => absent;
  boundingBox := fun _ => absent;
  chromium_launch := fun launched => (Ok (S launched), S launched);
  browser_newContext := fun _ _ => absent;
  context_newPage := fun _ => absent;
  context_close := fun _ => absent;
  page_on := fun _ _ w => w;
  collected := fun _ _ => mkErrorDetection [] [] []
|}.

Definition fresh : Exec World :=
  mkExec 0 (mkService None) (newTestResult "cfg-1" "run-1" 0) [] [].

End Launcher.

(* ===================================================================== *)
(** * A gallery that reports errors, for a run with something to hold *)
(* ===================================================================== *)

Module Report.

(** The gallery, with a listener record for every image that has left the
    document: a failed response for its source. *)
Definition failures (w : Gallery.World) : list NetworkError :=
  map (fun i => mkNetworkError (JsString.orEmpty (Gallery.lookup "src" (Gallery.attrs i)))
                  404 "Not Found" 0)
    (filter Gallery.stale (Gallery.shown w)).

Definition playwright : Playwright Gallery.World := {|
  page_goto := @page_goto _ Gallery.playwright;
  page_waitForTimeout := @page_waitForTimeout _ Gallery.playwright;
  page_waitForLoadState := @page_waitForLoadState _ Gallery.playwright;
  page_queryAll := @page_queryAll _ Gallery.playwright;
  page_query := @page_query _ Gallery.playwright;
  handle_queryAll := @handle_queryAll _ Gallery.playwright;
  isVisible := @isVisible _ Gallery.playwright;
  isEnabled := @isEnabled _ Gallery.playwright;
  textContent := @textContent _ Gallery.playwright;
  innerText := @innerText _ Gallery.playwright;
  locator_count := @locator_count _ Gallery.playwright;
  page_document := @page_document _ Gallery.playwright;
  getAttribute := @getAttribute _ Gallery.playwright;
  boundingBox := @boundingBox _ Gallery.playwright;
  chromium_launch := @chromium_launch _ Gallery.playwright;
  browser_newContext := @browser_newContext _ Gallery.playwright;
  context_newPage := @context_newPage _ Gallery.playwright;
  context_close := @context_close _ Gallery.playwright;
  page_on := @page_on _ Gallery.playwright;
  collected := fun _ w => mkErrorDetection [] (failures w) []
|}.

(** Persistence that accepts everything, and an analysis whose score is the
    number of image records, network errors and page results it was
    handed. *)
Definition collaborators : Collaborators Gallery.World := {|
  db_save := fun _ => ret tt;
  analyzeTestResults := fun rs =>
    ret (mkAiAnalysis "counted" [] "low"
           (Z.of_nat (List.length (imageValidation rs)
                      + List.length (networkErrors (errorDetection rs))
                      + List.length (productPageTests rs))))
|}.

Definition configuration : TestConfiguration :=
  mkTestConfiguration "cfg-2" [mkProductPage Gallery.home "home"]
    (mkTestSettings 30000 (mkViewport 1280 720)).

End Report.


(* ===================================================================== *)
(** * The string operations on samples *)
(* ===================================================================== *)

Example trim_sample : JsString.trim "  Blue Shirt  " = "Blue Shirt".
Proof. reflexivity. Qed.

Example toLowerCase_sample : JsString.toLowerCase "Out of Stock" = "out of stock".
Proof. reflexivity. Qed.

Example includes_sample :
  JsString.includes "unavailable" "available" = true
  /\ JsString.includes "out of stock" "in stock" = false.
Proof. split; reflexivity. Qed.

Example splitSpaces_sample : JsString.splitSpaces "btn  primary" = ["btn"; ""; "primary"].
Proof. reflexivity. Qed.

Example synthSelector_sample :
  synthSelector (mkDomNode 10 10 "block" "visible" (Some "x") (Some "x") ""
                   (Some " price  big") "SPAN") = ".price"
  /\ synthSelector (mkDomNode 10 10 "block" "visible" (Some "x") (Some "x") ""
                      None "SPAN") = "span".
Proof. split; reflexivity. Qed.

(* ===================================================================== *)
(** * Rules of the program logic *)
(* ===================================================================== *)

Section Rules.
Context {S : Type}.

Lemma run_eq {A} (m : M S A) (s : S) : m s = (fst (m s), snd (m s)).
Proof. destruct (m s); reflexivity. Qed.

Lemma bind_ok {A B} (m : M S A) (f : A -> M S B) s a s' :
  m s = (Ok a, s') -> bind m f s = f a s'.
Proof. intros E. unfold bind. rewrite E. reflexivity. Qed.

Lemma bind_throw {A B} (m : M S A) (f : A -> M S B) s e s' :
  m s = (Throw e, s') -> bind m f s = (Throw e, s').
Proof. intros E. unfold bind. rewrite E. reflexivity. Qed.

Lemma try_ok {A} (m : M S A) (h : string -> M S A) s a s' :
  m s = (Ok a, s') -> try_catch m h s = (Ok a, s').
Proof. intros E. unfold try_catch. rewrite E. reflexivity. Qed.

Lemma try_throw {A} (m : M S A) (h : string -> M S A) s e s' :
  m s = (Throw e, s') -> try_catch m h s = h e s'.
Proof. intros E. unfold try_catch. rewrite E. reflexivity. Qed.

Lemma bind_run {A B} (m : M S A) (f : A -> M S B) s :
  bind m f s = match m s with
               | (Ok a, s') => f a s'
               | (Throw e, s') => (Throw e, s')
               end.
Proof. reflexivity. Qed.

Lemma for_first_cons {X R} (x : X) (xs : list X) (body : X -> M S (option R)) s :
  for_first (x :: xs) body s
  = match body x s with
    | (Ok (Some v), s') => (Ok (Some v), s')
    | (Ok None, s') => for_first xs body s'
    | (Throw e, s') => (Throw e, s')
    end.
Proof. simpl. unfold bind. destruct (body x s) as [[[v |] | e] s']; reflexivity. Qed.

Lemma hoare_weaken {A} (P P' : S -> Prop) (Q Q' : outcome A -> S -> Prop) (m : M S A) :
  hoare P' m Q' ->
  (forall s, P s -> P' s) ->
  (forall o s, Q' o s -> Q o s) ->
  hoare P m Q.
Proof. intros H HP HQ s Hs. apply HQ, H, HP, Hs. Qed.

Lemma hoare_ret {A} (P : S -> Prop) (a : A) (Q : outcome A -> S -> Prop) :
  (forall s, P s -> Q (Ok a) s) -> hoare P (ret a) Q.
Proof. intros H s Hs. apply H, Hs. Qed.

Lemma hoare_throw {A} (P : S -> Prop) (e : string) (Q : outcome A -> S -> Prop) :
  (forall s, P s -> Q (Throw e) s) -> hoare P (throw e) Q.
Proof. intros H s Hs. apply H, Hs. Qed.

Lemma hoare_bind {A B} (P : S -> Prop) (m : M S A) (f : A -> M S B)
    (R : A -> S -> Prop) (Q : outcome B -> S -> Prop) :
  hoare P m (fun o s => match o with Ok a => R a s | Throw e => Q (Throw e) s end) ->
  (forall a, hoare (R a) (f a) Q) ->
  hoare P (bind m f) Q.
Proof.
  intros Hm Hf s Hs. specialize (Hm s Hs). unfold bind.
  destruct (m s) as [[a | e] s']; simpl in *.
  - apply Hf, Hm.
  - exact Hm.
Qed.

Lemma hoare_try {A} (P : S -> Prop) (m : M S A) (h : string -> M S A)
    (R : string -> S -> Prop) (Q : outcome A -> S -> Prop) :
  hoare P m (fun o s => match o with Ok a => Q (Ok a) s | Throw e => R e s end) ->
  (forall e, hoare (R e) (h e) Q) ->
  hoare P (try_catch m h) Q.
Proof.
  intros Hm Hh s Hs. specialize (Hm s Hs). unfold try_catch.
  destruct (m s) as [[a | e] s']; simpl in *.
  - exact Hm.
  - apply Hh, Hm.
Qed.

Lemma hoare_modify (P : S -> Prop) (f : S -> S) (Q : outcome unit -> S -> Prop) :
  (forall s, P s -> Q (Ok tt) (f s)) -> hoare P (modify f) Q.
Proof. intros H s Hs. apply H, Hs. Qed.

Lemma hoare_get (P : S -> Prop) (Q : outcome S -> S -> Prop) :
  (forall s, P s -> Q (Ok s) s) -> hoare P get Q.
Proof. intros H s Hs. apply H, Hs. Qed.

Lemma hoare_total {A} (P : S -> Prop) (f : S -> A * S) (Q : outcome A -> S -> Prop) :
  (forall s, P s -> Q (Ok (fst (f s))) (snd (f s))) -> hoare P (total f) Q.
Proof. intros H s Hs. unfold total. specialize (H s Hs). destruct (f s); exact H. Qed.

Lemma hoare_run {A} (P : S -> Prop) (m : M S A) (Q : outcome A -> S -> Prop) s o s' :
  hoare P m Q -> P s -> m s = (o, s') -> Q o s'.
Proof. intros H Hs E. specialize (H s Hs). rewrite E in H. exact H. Qed.

Lemma answers_run {A} (I : S -> Prop) (m : M S A) (v : outcome A) s :
  answers I m v -> I s -> m s = (v, snd (m s)) /\ I (snd (m s)).
Proof.
  intros H Hs. destruct (H s Hs) as [Hv Hi]. split; [| exact Hi].
  rewrite (run_eq m s) at 1. rewrite Hv. reflexivity.
Qed.

(** A loop with early return: [I] holds between iterations. *)
Lemma hoare_for_first {X R} (I : S -> Prop) (xs : list X) (body : X -> M S (option R))
    (Q : outcome (option R) -> S -> Prop) :
  (forall x, In x xs ->
     hoare I (body x) (fun o s => match o with Ok None => I s | _ => Q o s end)) ->
  (forall s, I s -> Q (Ok None) s) ->
  hoare I (for_first xs body) Q.
Proof.
  intros Hbody Hend. induction xs as [| x xs IH]; simpl.
  - apply hoare_ret, Hend.
  - eapply hoare_bind with (R := fun r s => match r with Some v => Q (Ok (Some v)) s | None => I s end).
    + eapply hoare_weaken; [apply (Hbody x); left; reflexivity | auto |].
      intros [[v |] | e] s; auto.
    + intros [v |].
      * apply hoare_ret. auto.
      * apply IH. intros y Hy. apply Hbody. right; exact Hy.
Qed.

Lemma hoare_for_each {X} (I : S -> Prop) (xs : list X) (body : X -> M S unit)
    (Q : outcome unit -> S -> Prop) :
  (forall x, In x xs ->
     hoare I (body x) (fun o s => match o with Ok _ => I s | Throw e => Q (Throw e) s end)) ->
  (forall s, I s -> Q (Ok tt) s) ->
  hoare I (for_each xs body) Q.
Proof.
  intros Hbody Hend. induction xs as [| x xs IH]; simpl.
  - apply hoare_ret, Hend.
  - eapply hoare_bind with (R := fun _ s => I s).
    + apply (Hbody x). left; reflexivity.
    + intros _. apply IH. intros y Hy. apply Hbody. right; exact Hy.
Qed.

(** What [safe] gives at a state. *)
Lemma safe_run {A} (m : M S A) : safe m -> forall s, exists a, m s = (Ok a, snd (m s)).
Proof.
  intros H s. destruct (H s I) as [a Ha]. exists a.
  rewrite (run_eq m s) at 1. rewrite Ha. reflexivity.
Qed.

Lemma safe_ret {A} (a : A) : safe (@ret S A a).
Proof. apply hoare_ret. intros; eexists; reflexivity. Qed.

Lemma safe_bind {A B} (m : M S A) (f : A -> M S B) :
  safe m -> (forall a, safe (f a)) -> safe (bind m f).
Proof.
  intros Hm Hf. eapply hoare_bind with (R := fun _ _ => True).
  - eapply hoare_weaken; [exact Hm | auto |]. intros [a | e] s [a' Ha]; [exact I | discriminate].
  - exact Hf.
Qed.

(** A [try] whose handler never throws never throws. *)
Lemma safe_try {A} (m : M S A) (h : string -> M S A) :
  (forall e, safe (h e)) -> safe (try_catch m h).
Proof.
  intros Hh s _. unfold try_catch. destruct (m s) as [[a | e] s'] eqn:E; simpl.
  - eexists; reflexivity.
  - apply Hh; exact I.
Qed.

Lemma safe_modify (f : S -> S) : safe (modify f).
Proof. apply hoare_modify. intros; eexists; reflexivity. Qed.

Lemma safe_get : safe (@get S).
Proof. apply hoare_get. intros; eexists; reflexivity. Qed.

Lemma safe_total {A} (f : S -> A * S) : safe (total f).
Proof. apply hoare_total. intros; eexists; reflexivity. Qed.

Lemma safe_for_first {X R} (xs : list X) (body : X -> M S (option R)) :
  (forall x, safe (body x)) -> safe (for_first xs body).
Proof.
  intros Hb. apply hoare_for_first.
  - intros x _. eapply hoare_weaken; [apply (Hb x) | auto |].
    intros [[v |] | e] s [a Ha]; try exact I; try discriminate. eexists; reflexivity.
  - intros; eexists; reflexivity.
Qed.

Lemma safe_for_each {X} (xs : list X) (body : X -> M S unit) :
  (forall x, safe (body x)) -> safe (for_each xs body).
Proof.
  intros Hb. apply hoare_for_each.
  - intros x _. eapply hoare_weaken; [apply (Hb x) | auto |].
    intros [[] | e] s [a Ha]; try exact I; discriminate.
  - intros; eexists; reflexivity.
Qed.

Lemma safe_orElse {A} (m k : M S (option A)) : safe m -> safe k -> safe (orElse m k).
Proof.
  intros Hm Hk. apply safe_bind; [exact Hm |]. intros [v |]; [apply safe_ret | exact Hk].
Qed.

End Rules.

(** Rules for the two-level states. *)
Section Frames.
Context {W R : Type}.

Lemma liftW_run {A} (m : M W A) (w : W) (r : R) :
  liftW m (w, r) = (fst (m w), (snd (m w), r)).
Proof. unfold liftW; simpl. destruct (m w); reflexivity. Qed.

Lemma hoare_liftW {A} (P : W -> Prop) (F : R -> Prop) (m : M W A)
    (Q : outcome A -> W -> Prop) :
  hoare P m Q ->
  hoare (fun s => P (fst s) /\ F (snd s)) (liftW m) (fun o s => Q o (fst s) /\ F (snd s)).
Proof.
  intros H [w r] [Hw Hr]; simpl in *. rewrite liftW_run; simpl. split; [apply H, Hw | exact Hr].
Qed.

Lemma safe_liftW {A} (m : M W A) : safe m -> safe (@liftW W R A m).
Proof.
  intros H [w r] _. rewrite liftW_run; simpl. apply H; exact I.
Qed.

Lemma safe_assign (f : R -> R) : safe (@assign W R f).
Proof. apply safe_modify. Qed.

Lemma scoped_run {A} (init : R) (m : M (W * R) A) (w : W) :
  scoped init m w =
  (match fst (m (w, init)) with
   | Ok a => Ok (a, snd (snd (m (w, init))))
   | Throw e => Throw e
   end, fst (snd (m (w, init)))).
Proof.
  unfold scoped. destruct (m (w, init)) as [[a | e] [w' r']]; reflexivity.
Qed.

Lemma safe_scoped {A} (init : R) (m : M (W * R) A) : safe m -> safe (scoped init m).
Proof.
  intros H w _. rewrite scoped_run; simpl.
  destruct (H (w, init) I) as [a Ha]. rewrite Ha. eexists; reflexivity.
Qed.

End Frames.

Create HintDb safe.
#[local] Hint Resolve safe_ret safe_modify safe_get safe_total safe_assign : safe.
#[local] Hint Resolve safe_bind safe_try safe_for_first safe_for_each safe_orElse
  safe_liftW safe_scoped : safe.

(* ===================================================================== *)
(** * The element locator *)
(* ===================================================================== *)

Section LocatorFacts.
Context {W : Type} {PW : Playwright W} {RT : Runtime W}.
Import JsString.

Lemma safe_cssStrategy page cfg : safe (cssStrategy page cfg).
Proof. unfold cssStrategy. auto with safe. Qed.

Lemma safe_textStrategy page cfg : safe (textStrategy page cfg).
Proof. unfold textStrategy. auto with safe. Qed.

Lemma safe_attributeStrategy page cfg : safe (attributeStrategy page cfg).
Proof. unfold attributeStrategy. auto with safe. Qed.

Lemma safe_contentStrategy page cfg : safe (contentStrategy page cfg).
Proof. unfold contentStrategy. destruct (0 <? _); auto with safe. Qed.

Lemma safe_locator page cfg : safe (findElementWithMultipleStrategies page cfg).
Proof.
  unfold findElementWithMultipleStrategies.
  auto using safe_orElse, safe_cssStrategy, safe_textStrategy,
    safe_attributeStrategy, safe_contentStrategy.
Qed.


(** ** Nothing to find *)





(** ** Where a result comes from *)

Lemma cssCandidate_result cfg sel h :
  In sel (selectors cfg) ->
  hoare (fun _ => True) (cssCandidate (contentPatterns cfg) sel h)
    (fun o _ => forall r, o = Ok (Some r) -> cssResult cfg r).
Proof.
  intros Hsel w _ r. unfold cssCandidate, bind, try_catch, ret.
  destruct (isVisible (Elem h) w) as [[[] | ?] w1]; simpl; try discriminate.
  destruct (textContent (Elem h) w1) as [[t | ?] w2]; simpl; try discriminate.
  destruct (innerText h w2) as [[i | ?] w3]; simpl;
    match goal with
    | |- context [trim ?x] => set (content := trim x)
    end;
    (destruct (0 <? String.length content) eqn:Elen; simpl; try discriminate);
    apply Nat.ltb_lt in Elen; unfold cssResult;
    (destruct (0 <? List.length (contentPatterns cfg)) eqn:Epat; simpl;
     [ destruct (existsb _ _) eqn:Ematch; simpl; try discriminate | ]);
    intros E; inversion E; subst; simpl; repeat split; eauto;
    subst content; eexists; reflexivity.
Qed.

Lemma cssStrategy_result page cfg :
  hoare (fun _ => True) (cssStrategy page cfg)
    (fun o _ => forall r, o = Ok (Some r) -> cssResult cfg r).
Proof.
  unfold cssStrategy. apply hoare_for_first; [| intros; discriminate].
  intros sel Hsel. eapply hoare_try with (R := fun _ _ => True).
  - unfold cssAttempt. eapply hoare_bind with (R := fun _ _ => True).
    + intros w _. destruct (fst _); exact I.
    + intros found. apply hoare_for_first.
      * intros h _. eapply hoare_weaken; [apply (cssCandidate_result cfg sel h Hsel) | auto |].
        intros [[v |] | e] w H; auto.
      * intros w _. exact I.
  - intros e. apply hoare_ret. auto.
Qed.

Lemma textStrategy_result page cfg :
  hoare (fun _ => True) (textStrategy page cfg)
    (fun o _ => forall r, o = Ok (Some r) -> textResult page cfg r).
Proof.
  unfold textStrategy. apply hoare_for_first; [| intros; discriminate].
  intros pattern Hp. eapply hoare_try with (R := fun _ _ => True);
    [| intros e; apply hoare_ret; auto].
  intros w _. unfold textAttempt, bind, ret.
  destruct (locator_count page pattern w) as [[n | ?] w1]; simpl; auto.
  destruct (0 <? n); simpl; auto.
  destruct (isVisible _ w1) as [[[] | ?] w2]; simpl; auto.
  destruct (textContent _ w2) as [[t | ?] w3]; simpl; auto.
  intros r E; inversion E; subst. split; [reflexivity |]. exists pattern. auto.
Qed.

Lemma attributeStrategy_result page cfg :
  hoare (fun _ => True) (attributeStrategy page cfg)
    (fun o _ => forall r, o = Ok (Some r) -> attributeResult cfg r).
Proof.
  unfold attributeStrategy. apply hoare_for_first; [| intros; discriminate].
  intros attr Ha. eapply hoare_try with (R := fun _ _ => True);
    [| intros e; apply hoare_ret; auto].
  unfold attributeAttempt. eapply hoare_bind with (R := fun _ _ => True).
  - intros w _. destruct (fst _); exact I.
  - intros found. apply hoare_for_first; [| intros w _; exact I].
    intros h _ w _. unfold attributeCandidate, bind, ret.
    destruct (isVisible _ w) as [[[] | ?] w1]; simpl; auto.
    destruct (textContent _ w1) as [[t | ?] w2]; simpl; auto.
    destruct (0 <? _) eqn:Elen; simpl; auto.
    intros r E; inversion E; subst. apply Nat.ltb_lt in Elen.
    split; [reflexivity |]. split; [exact Elen |]. exists attr. auto.
Qed.

Lemma scanNode_matches patterns node t sel :
  scanNode patterns node = Some (t, sel) -> existsb (matchesPattern t) patterns = true.
Proof.
  unfold scanNode. destruct (_ || _); [discriminate |]. destruct (_ || _); [discriminate |].
  destruct (0 <? _); [| discriminate].
  destruct (find _ patterns) as [p |] eqn:E; [| discriminate].
  intros H; inversion H; subst. apply find_some in E. apply existsb_exists. eauto.
Qed.

Lemma scanDocument_matches patterns nodes t sel :
  scanDocument patterns nodes = Some (t, sel) -> existsb (matchesPattern t) patterns = true.
Proof.
  induction nodes as [| n ns IH]; simpl; [discriminate |].
  destruct (scanNode patterns n) as [[t' sel'] |] eqn:E; [| exact IH].
  intros H; inversion H; subst. eapply scanNode_matches, E.
Qed.

Lemma contentStrategy_result page cfg :
  hoare (fun _ => True) (contentStrategy page cfg)
    (fun o _ => forall r, o = Ok (Some r) -> contentResult cfg r).
Proof.
  unfold contentStrategy. destruct (0 <? _) eqn:Epat; [| apply hoare_ret; intros; discriminate].
  apply Nat.ltb_lt in Epat.
  eapply hoare_try with (R := fun _ _ => True); [| intros e; apply hoare_ret; intros; discriminate].
  intros w _. unfold contentAttempt, bind, try_catch, ret.
  destruct (page_document page w) as [[nodes | ?] w1]; simpl; auto.
  destruct (scanDocument _ nodes) as [[t sel] |] eqn:Escan; simpl; [| intros; discriminate].
  destruct (page_query page sel w1) as [[[h |] | ?] w2]; simpl; try (intros; discriminate).
  intros r E; inversion E; subst. unfold contentResult; simpl.
  repeat split; auto. eapply scanDocument_matches, Escan.
Qed.

Lemma orElse_result {A} (m k : M W (option A)) (F : A -> Prop) :
  hoare (fun _ => True) m (fun o _ => forall r, o = Ok (Some r) -> F r) ->
  hoare (fun _ => True) k (fun o _ => forall r, o = Ok (Some r) -> F r) ->
  hoare (fun _ => True) (orElse m k) (fun o _ => forall r, o = Ok (Some r) -> F r).
Proof.
  intros Hm Hk. unfold orElse.
  eapply hoare_bind with (R := fun r _ => forall v, r = Some v -> F v).
  - eapply hoare_weaken; [exact Hm | auto |].
    intros [a | e] w H; [| intros; discriminate]. intros v ->. auto.
  - intros [v |].
    + apply hoare_ret. intros w H r E. inversion E; subst. auto.
    + eapply hoare_weaken; [exact Hk | intros; exact I | auto].
Qed.

Lemma locator_provenance page cfg :
  hoare (fun _ => True) (findElementWithMultipleStrategies page cfg)
    (fun o _ => forall r, o = Ok (Some r) -> provenance page cfg r).
Proof.
  unfold findElementWithMultipleStrategies, provenance.
  repeat apply orElse_result.
  - eapply hoare_weaken; [apply cssStrategy_result | auto |]. intros o w H r E; auto.
  - eapply hoare_weaken; [apply textStrategy_result | auto |]. intros o w H r E; auto.
  - eapply hoare_weaken; [apply attributeStrategy_result | auto |]. intros o w H r E; auto.
  - eapply hoare_weaken; [apply contentStrategy_result | auto |].
    intros o w H r E. right; right; right. auto.
Qed.

(** ** Strategy 1 on a page that answers from a snapshot *)

Lemma find_app {A} (f : A -> bool) (l1 l2 : list A) :
  find f (l1 ++ l2) = match find f l1 with Some x => Some x | None => find f l2 end.
Proof. induction l1 as [| a l1 IH]; simpl; [reflexivity |]. destruct (f a); auto. Qed.

Lemma find_map_pair {A B} (f : B -> bool) (a : A) (l : list B) :
  find (fun c => f (snd c)) (map (pair a) l) = option_map (pair a) (find f l).
Proof. induction l as [| b l IH]; simpl; [reflexivity |]. destruct (f b); auto. Qed.

Lemma cssCandidate_on_snapshot (I : W -> Prop) page d pats sel sel' h :
  reads I page d -> In h (snap_query d sel') ->
  hoare I (cssCandidate pats sel h)
    (fun o w => o = Ok (if accepted d pats h then Some (cssFound d pats (sel, h)) else None)
                /\ I w).
Proof.
  intros [_ Hh] Hin w Hw. destruct (Hh sel' h Hin) as (Hv & Ht & Hi).
  unfold cssCandidate, bind, try_catch, ret, accepted, eligible, cssFound, shown.
  destruct (answers_run _ _ _ _ Hv Hw) as [E1 I1]. rewrite E1.
  destruct (snap_visible d h); simpl; [| auto].
  destruct (answers_run _ _ _ _ Ht I1) as [E2 I2]. rewrite E2.
  destruct (answers_run _ _ _ _ Hi I2) as [E3 I3]. rewrite E3.
  destruct (snap_inner d h) as [s | e]; simpl;
    match goal with
    | |- context [trim ?x] => destruct (0 <? String.length (trim x)); simpl; auto
    end;
    destruct (0 <? List.length pats); simpl; auto;
    match goal with
    | |- context [existsb ?f ?l] => destruct (existsb f l); simpl; auto
    end.
Qed.

Lemma cssLoop_on_snapshot (I : W -> Prop) page d pats sel sel' hs :
  reads I page d -> incl hs (snap_query d sel') ->
  hoare I (for_first hs (cssCandidate pats sel))
    (fun o w => o = Ok (option_map (fun h => cssFound d pats (sel, h))
                          (find (accepted d pats) hs))
                /\ I w).
Proof.
  intros Hr. induction hs as [| h hs IH]; intros Hincl; simpl.
  - apply hoare_ret. auto.
  - eapply hoare_bind
      with (R := fun r w =>
                   r = (if accepted d pats h then Some (cssFound d pats (sel, h)) else None)
                   /\ I w).
    + eapply hoare_weaken;
        [apply (cssCandidate_on_snapshot I page d pats sel sel' h Hr);
         apply Hincl; left; reflexivity
        | auto |].
      intros [a | e] w [E Hw]; [inversion E; auto | discriminate].
    + intros r w [-> Hw]. destruct (accepted d pats h); simpl; [auto |].
      apply IH; [| exact Hw]. intros x Hx. apply Hincl. right; exact Hx.
Qed.

Lemma cssStrategy_on_snapshot (I : W -> Prop) page cfg d :
  reads I page d ->
  hoare I (cssStrategy page cfg)
    (fun o w => o = Ok (option_map (cssFound d (contentPatterns cfg))
                          (firstAccepted d (contentPatterns cfg) (selectors cfg)))
                /\ I w).
Proof.
  intros Hr. unfold cssStrategy, firstAccepted, candidates, cssAttempt.
  induction (selectors cfg) as [| sel sels IH]; simpl.
  - apply hoare_ret. auto.
  - rewrite find_app, find_map_pair.
    eapply hoare_bind
      with (R := fun r w =>
                   r = option_map (fun h => cssFound d (contentPatterns cfg) (sel, h))
                         (find (accepted d (contentPatterns cfg)) (snap_query d sel))
                   /\ I w).
    + eapply hoare_try with (R := fun _ _ => False); [| intros e w []].
      eapply hoare_bind with (R := fun found w => found = snap_query d sel /\ I w).
      * eapply hoare_weaken; [apply (proj1 Hr sel) | auto |].
        intros [a | e] w [E Hw]; [inversion E; auto | discriminate].
      * intros found w [-> Hw].
        pose proof (cssLoop_on_snapshot I page d (contentPatterns cfg) sel sel
                      (snap_query d sel) Hr (incl_refl _) w Hw) as [E Hw'].
        rewrite E. auto.
    + intros r w [-> Hw].
      destruct (find (accepted d (contentPatterns cfg)) (snap_query d sel)); simpl; [auto |].
      apply IH, Hw.
Qed.

Lemma accepted_no_patterns d h : accepted d [] h = eligible d h.
Proof. unfold accepted. simpl. apply andb_true_r. Qed.

Lemma firstAccepted_no_patterns d sels : firstAccepted d [] sels = firstEligible d sels.
Proof.
  unfold firstAccepted, firstEligible. induction (candidates d sels) as [| c l IH]; simpl.
  - reflexivity.
  - rewrite accepted_no_patterns, IH. reflexivity.
Qed.

(** The whole locator, once strategy 1 has settled. *)
Lemma locator_on_snapshot (I : W -> Prop) page cfg d w :
  reads I page d -> I w ->
  match firstAccepted d (contentPatterns cfg) (selectors cfg) with
  | Some c =>
      exists w', findElementWithMultipleStrategies page cfg w
                 = (Ok (Some (cssFound d (contentPatterns cfg) c)), w') /\ I w'
  | None =>
      exists w', cssStrategy page cfg w = (Ok None, w') /\ I w'
                 /\ findElementWithMultipleStrategies page cfg w
                    = orElse (textStrategy page cfg)
                        (orElse (attributeStrategy page cfg) (contentStrategy page cfg)) w'
  end.
Proof.
  intros Hr Hw. destruct (cssStrategy_on_snapshot I page cfg d Hr w Hw) as [E Hw'].
  unfold findElementWithMultipleStrategies.
  destruct (firstAccepted d (contentPatterns cfg) (selectors cfg)) as [c |]; simpl in E;
    exists (snd (cssStrategy page cfg w));
    unfold orElse at 1; unfold bind at 1; rewrite (run_eq (cssStrategy page cfg) w), E;
    simpl; auto.
Qed.

End LocatorFacts.

(** ** The deterministic browser answers from its page *)

Section SimFacts.
Import Sim SimPage.

Lemma nodeIn_found d h :
  attached d = true -> In h (map handle d) ->
  exists n, nodeIn d h = Some n /\ detached n = false.
Proof.
  intros Ha Hin. unfold nodeIn.
  destruct (find (fun n => handle n =? h) d) as [n |] eqn:E.
  - exists n. split; [reflexivity |]. apply find_some in E. destruct E as [Hn _].
    unfold attached in Ha. rewrite forallb_forall in Ha. specialize (Ha n Hn).
    destruct (detached n); [discriminate | reflexivity].
  - exfalso. apply in_map_iff in Hin. destruct Hin as (n & Hh & Hn).
    apply (find_none _ _ E) in Hn. subst h. rewrite Nat.eqb_refl in Hn. discriminate.
Qed.

Lemma sim_reads d page : attached d = true -> reads (showing d) page (snapshot d).
Proof.
  intros Ha. split.
  - intros sel w Hw. simpl. unfold showing in Hw. rewrite Hw. split; [reflexivity | exact Hw].
  - intros sel h Hin.
    assert (Hh : In h (map handle d)).
    { simpl in Hin. apply in_map_iff in Hin. destruct Hin as (n & Hn & Hf).
      apply filter_In in Hf. apply in_map_iff. exists n. tauto. }
    destruct (nodeIn_found d h Ha Hh) as (n & En & Hd).
    split; [| split]; intros w Hw; pose proof Hw as Hw0; unfold showing in Hw0;
      simpl; unfold onNode, resolve, nodeOf; rewrite ?Hw0; fold (nodeIn d h);
      rewrite ?En, ?Hd; simpl; auto.
    destruct (rendered n); simpl; auto.
Qed.

End SimFacts.

(* ===================================================================== *)
(** * Properties of the locator *)
(* ===================================================================== *)

Lemma find_first {A} (f : A -> bool) (l : list A) (x : A) :
  find f l = Some x ->
  f x = true /\ exists l1 l2, l = l1 ++ x :: l2 /\ forall y, In y l1 -> f y = false.
Proof.
  induction l as [| a l IH]; simpl; [discriminate |].
  destruct (f a) eqn:Ea.
  - intros E; inversion E; subst. split; [exact Ea |].
    exists [], l. split; [reflexivity | intros y []].
  - intros E. destruct (IH E) as (Hx & l1 & l2 & -> & Hl1). split; [exact Hx |].
    exists (a :: l1), l2. split; [reflexivity |].
    intros y [<- | Hy]; auto.
Qed.



(** The locator on concrete pages: an empty page gives [null]; a detached
    element makes strategy 1 leave its selector, so the usable heading under
    the same selector is passed over for the one under the next selector. *)
Example locate_on_empty_page :
  fst (findElementWithMultipleStrategies 1 Config.availConfig (LocatorFixture.loaded []))
  = Ok None.
Proof. vm_compute. reflexivity. Qed.

Example locate_past_detached_element :
  fst (findElementWithMultipleStrategies 1 Config.titleConfig
         (LocatorFixture.loaded LocatorFixture.stale))
  = Ok (Some (LocateResult.mk (Elem 3) "Red Shirt" "h2" "css")).
Proof. vm_compute. reflexivity. Qed.

(** C3. With at least one content pattern the locator never returns a
    result tagged [css]. A result tagged [css-pattern] carries one of the
    configured selectors and a trimmed text that matches at least one
    content pattern (case-insensitive substring for a string, [test] for a
    regular expression). On a page that answers from a snapshot, strategy 1
    settles on the first selector match, in selector then document order,
    that is visible, has non-empty trimmed text and matches a pattern:
    visible matches whose text fails every pattern are passed over. *)
Theorem content_patterns_exclude_css_tag {W : Type} {PW : Playwright W} {RT : Runtime W}
    (page : Page) (cfg : ElementConfig) :
  contentPatterns cfg <> [] ->
  (forall w r w',
     findElementWithMultipleStrategies page cfg w = (Ok (Some r), w') ->
     LocateResult.strategy r <> "css"
     /\ (LocateResult.strategy r = "css-pattern" ->
           In (LocateResult.selector r) (selectors cfg)
           /\ (exists raw, LocateResult.text r = JsString.trim raw)
           /\ existsb (matchesPattern (LocateResult.text r)) (contentPatterns cfg) = true))
  /\ (forall (I : W -> Prop) d w, reads I page d -> I w ->
        match firstAccepted d (contentPatterns cfg) (selectors cfg) with
        | Some (sel, h) =>
            snap_visible d h = true
            /\ existsb (matchesPattern (shown d h)) (contentPatterns cfg) = true
            /\ exists w', findElementWithMultipleStrategies page cfg w
                          = (Ok (Some (LocateResult.mk (Elem h) (shown d h) sel "css-pattern")),
                             w')
        | None => exists w', cssStrategy page cfg w = (Ok None, w')
        end).
Proof.
  intros Hne.
  assert (Hlen : (0 <? List.length (contentPatterns cfg)) = true)
    by (destruct (contentPatterns cfg); [contradiction | reflexivity]).
  split.
  - intros w r w' E.
    pose proof (hoare_run _ _ _ _ _ _ (locator_provenance page cfg) I E r eq_refl) as Hp.
    destruct Hp as [Hc | [Ht | [Ha | Hs]]].
    + destruct Hc as (Hsel & _ & Hraw & _ & Htag). rewrite Hlen in Htag.
      destruct Htag as [Htag Hm]. split; [rewrite Htag; discriminate | auto].
    + destruct Ht as [Htag _]. rewrite Htag. split; [discriminate | discriminate].
    + destruct Ha as [Htag _]. rewrite Htag. split; [discriminate | discriminate].
    + destruct Hs as [Htag _]. rewrite Htag. split; [discriminate | discriminate].
  - intros I d w Hr Hw. pose proof (locator_on_snapshot I page cfg d w Hr Hw) as H.
    destruct (firstAccepted d (contentPatterns cfg) (selectors cfg)) as [[sel h] |] eqn:E.
    + apply find_first in E. destruct E as [Hacc _]. simpl in Hacc.
      unfold accepted, eligible in Hacc. rewrite Hlen in Hacc.
      apply andb_prop in Hacc. destruct Hacc as [Hel Hm].
      apply andb_prop in Hel. destruct Hel as [Hv _].
      destruct H as (w' & Ew & _). unfold cssFound in Ew. rewrite Hlen in Ew. simpl in Ew.
      eauto.
    + destruct H as (w' & Ew & _). eauto.
Qed.

(** C3 on a page with two price tags, the first without an amount. *)
Lemma content_patterns_exclude_css_tag_witness :
  contentPatterns Config.priceConfig <> []
  /\ exists r w',
       findElementWithMultipleStrategies 1 Config.priceConfig
         (LocatorFixture.loaded LocatorFixture.prices) = (Ok (Some r), w')
       /\ LocateResult.element r = Elem 2
       /\ LocateResult.strategy r = "css-pattern"
       /\ LocateResult.strategy r <> "css"
       /\ existsb (matchesPattern (LocateResult.text r)) (contentPatterns Config.priceConfig)
          = true.
Proof.
  assert (Hne : contentPatterns Config.priceConfig <> []) by (simpl; discriminate).
  split; [exact Hne |].
  assert (E : findElementWithMultipleStrategies 1 Config.priceConfig
                (LocatorFixture.loaded LocatorFixture.prices)
              = (Ok (Some (LocateResult.mk (Elem 2) "$19.99" ".money" "css-pattern")),
                 LocatorFixture.loaded LocatorFixture.prices))
    by (vm_compute; reflexivity).
  eexists. eexists. split; [exact E |].
  split; [reflexivity |]. split; [reflexivity |].
  destruct (proj1 (content_patterns_exclude_css_tag 1 Config.priceConfig Hne) _ _ _ E)
    as [Hcss Hpat].
  split; [exact Hcss |]. apply Hpat. reflexivity.
Defined.

(** C6. With structural selectors only (no content patterns), on a page
    that answers from a snapshot, the locator returns the first element, in
    selector-list order and within one selector in document order, that is
    visible and has non-empty trimmed text; the result is tagged [css] and
    carries the selector that found it. When no such element exists and the
    configuration has no text patterns and no attributes either, it returns
    [null]. *)
Theorem selectors_only_first_eligible {W : Type} {PW : Playwright W} {RT : Runtime W}
    (I : W -> Prop) (page : Page) (cfg : ElementConfig) (d : Snapshot) (w : W) :
  reads I page d -> I w -> contentPatterns cfg = [] ->
  match firstEligible d (selectors cfg) with
  | Some (sel, h) =>
      (exists w', findElementWithMultipleStrategies page cfg w
                  = (Ok (Some (LocateResult.mk (Elem h) (shown d h) sel "css")), w')
                  /\ I w')
      /\ eligible d h = true
      /\ exists before after,
           candidates d (selectors cfg) = before ++ (sel, h) :: after
           /\ forall c, In c before -> eligible d (snd c) = false
  | None =>
      textPatterns cfg = [] -> attributes cfg = [] ->
      exists w', findElementWithMultipleStrategies page cfg w = (Ok None, w') /\ I w'
  end.
Proof.
  intros Hr Hw Hnone. pose proof (locator_on_snapshot I page cfg d w Hr Hw) as H.
  rewrite Hnone, firstAccepted_no_patterns in H.
  destruct (firstEligible d (selectors cfg)) as [[sel h] |] eqn:E.
  - split; [exact H |]. unfold firstEligible in E. apply find_first in E. exact E.
  - intros Ht Ha. destruct H as (w' & _ & Hw' & Erest). exists w'. split; [| exact Hw'].
    rewrite Erest. unfold textStrategy, attributeStrategy, contentStrategy.
    rewrite Ht, Ha, Hnone. reflexivity.
Qed.

(** C6 on a page whose first two headings are hidden and blank. *)
Lemma selectors_only_first_eligible_witness :
  reads (SimPage.showing LocatorFixture.headings) 1 (SimPage.snapshot LocatorFixture.headings)
  /\ SimPage.showing LocatorFixture.headings (LocatorFixture.loaded LocatorFixture.headings)
  /\ contentPatterns Config.titleConfig = []
  /\ exists w', findElementWithMultipleStrategies 1 Config.titleConfig
                  (LocatorFixture.loaded LocatorFixture.headings)
                = (Ok (Some (LocateResult.mk (Elem 3) "Blue Shirt" "h2" "css")), w').
Proof.
  assert (Hr : reads (SimPage.showing LocatorFixture.headings) 1
                 (SimPage.snapshot LocatorFixture.headings))
    by (apply sim_reads; reflexivity).
  split; [exact Hr |]. split; [reflexivity |]. split; [reflexivity |].
  pose proof (selectors_only_first_eligible (SimPage.showing LocatorFixture.headings) 1
                Config.titleConfig (SimPage.snapshot LocatorFixture.headings)
                (LocatorFixture.loaded LocatorFixture.headings) Hr eq_refl eq_refl) as H.
  assert (E : firstEligible (SimPage.snapshot LocatorFixture.headings)
                (selectors Config.titleConfig) = Some ("h2", 3))
    by (vm_compute; reflexivity).
  rewrite E in H. destruct H as [(w' & Ew & _) _]. exists w'. exact Ew.
Defined.

(* ===================================================================== *)
(** * The product-page validator, check by check *)
(* ===================================================================== *)

#[local] Arguments String.append : simpl never.
#[local] Arguments liftW : simpl never.
#[local] Arguments bind : simpl never.
#[local] Arguments try_catch : simpl never.
#[local] Arguments findElementWithMultipleStrategies : simpl never.

Section ValidatorFacts.
Context {W : Type} {PW : Playwright W} {RT : Runtime W}.
Import JsString.

(** The locator, run from inside the validator: it returns, and leaves the
    result object alone. *)
Lemma locate_run page cfg (w : W) (r : PageResult) :
  exists found,
    findElementWithMultipleStrategies page cfg w
    = (Ok found, snd (findElementWithMultipleStrategies page cfg w))
    /\ locate page cfg (w, r)
       = (Ok found, (snd (findElementWithMultipleStrategies page cfg w), r)).
Proof.
  destruct (safe_run _ (safe_locator page cfg) w) as [found E]. exists found.
  split; [exact E |]. unfold locate. rewrite liftW_run. rewrite E at 1. reflexivity.
Qed.

Lemma checkTitle_run page w r :
  exists found w',
    findElementWithMultipleStrategies page Config.titleConfig w = (Ok found, w')
    /\ checkTitle page (w, r) = (Ok tt, (w', applyTitle found r)).
Proof.
  destruct (locate_run page Config.titleConfig w r) as (found & E & El).
  exists found, (snd (findElementWithMultipleStrategies page Config.titleConfig w)).
  split; [exact E |]. unfold checkTitle. rewrite (bind_ok _ _ _ _ _ El). destruct found; reflexivity.
Qed.

Lemma checkPrice_run page w r :
  exists found w',
    findElementWithMultipleStrategies page Config.priceConfig w = (Ok found, w')
    /\ checkPrice page (w, r) = (Ok tt, (w', applyPrice found r)).
Proof.
  destruct (locate_run page Config.priceConfig w r) as (found & E & El).
  exists found, (snd (findElementWithMultipleStrategies page Config.priceConfig w)).
  split; [exact E |]. unfold checkPrice. rewrite (bind_ok _ _ _ _ _ El). destruct found; reflexivity.
Qed.

Lemma checkDescription_run page w r :
  exists found w',
    findElementWithMultipleStrategies page Config.descConfig w = (Ok found, w')
    /\ checkDescription page (w, r) = (Ok tt, (w', applyDescription found r)).
Proof.
  destruct (locate_run page Config.descConfig w r) as (found & E & El).
  exists found, (snd (findElementWithMultipleStrategies page Config.descConfig w)).
  split; [exact E |]. unfold checkDescription. rewrite (bind_ok _ _ _ _ _ El). destruct found; reflexivity.
Qed.

Lemma checkAvailability_run page w r :
  exists found w',
    findElementWithMultipleStrategies page Config.availConfig w = (Ok found, w')
    /\ checkAvailability page (w, r) = (Ok tt, (w', applyAvailability found r)).
Proof.
  destruct (locate_run page Config.availConfig w r) as (found & E & El).
  exists found, (snd (findElementWithMultipleStrategies page Config.availConfig w)).
  split; [exact E |]. unfold checkAvailability. rewrite (bind_ok _ _ _ _ _ El).
  destruct found as [l |]; [| reflexivity].
  unfold assign, modify, applyAvailability. simpl.
  destruct (stockFlag (LocateResult.text l)); reflexivity.
Qed.

(** The clickability check never throws. *)
Lemma safe_isClickable (element : Target) : safe (isClickable element).
Proof. unfold isClickable. auto with safe. Qed.

(** It answers with the conjunction of the enabled and the visible state,
    and with [true] when either call throws. *)
Lemma isClickable_spec (element : Target) (w : W) :
  isClickable element w =
  match isEnabled element w with
  | (Ok false, w1) => (Ok false, w1)
  | (Ok true, w1) =>
      match isVisible element w1 with
      | (Ok visible, w2) => (Ok visible, w2)
      | (Throw _, w2) => (Ok true, w2)
      end
  | (Throw _, w1) => (Ok true, w1)
  end.
Proof.
  unfold isClickable, try_catch, bind, ret.
  destruct (isEnabled element w) as [[[] | e] w1]; try reflexivity.
Qed.

Lemma checkAddToCart_run page w r :
  exists found w1,
    findElementWithMultipleStrategies page Config.cartConfig w = (Ok found, w1)
    /\ match found with
       | None => checkAddToCart page (w, r) = (Ok tt, (w1, r))
       | Some l =>
           exists clickable w2,
             isClickable (LocateResult.element l) w1 = (Ok clickable, w2)
             /\ checkAddToCart page (w, r)
                = (Ok tt, (w2, applyAddToCart (Some (l, clickable)) r))
       end.
Proof.
  destruct (locate_run page Config.cartConfig w r) as (found & E & El).
  exists found, (snd (findElementWithMultipleStrategies page Config.cartConfig w)).
  split; [exact E |]. unfold checkAddToCart. rewrite (bind_ok _ _ _ _ _ El).
  destruct found as [l |]; [| reflexivity].
  set (w1 := snd (findElementWithMultipleStrategies page Config.cartConfig w)).
  destruct (safe_run _ (safe_isClickable (LocateResult.element l)) w1) as [b Eb].
  exists b, (snd (isClickable (LocateResult.element l) w1)). split; [exact Eb |].
  unfold bind, assign, modify. simpl. rewrite liftW_run. rewrite Eb at 1. reflexivity.
Qed.

(** ** Variant detection *)

Lemma liftW2_run {R1 R2 A} (m : M W A) (w : W) (r : R1) (v : R2) :
  liftW (liftW m) ((w, r), v) = (fst (m w), ((snd (m w), r), v)).
Proof. rewrite liftW_run. simpl. rewrite liftW_run. reflexivity. Qed.

Lemma containerScan_nonempty cs w options w' :
  containerScan cs w = (Ok (Some options), w') -> 0 < List.length options.
Proof.
  revert w. unfold containerScan. induction cs as [| c cs IH]; intros w; [discriminate |].
  rewrite for_first_cons, bind_run.
  destruct (handle_queryAll c Config.variantOptions w) as [[os | e] w1]; [| discriminate].
  destruct (0 <? List.length os) eqn:E; simpl.
  - intros H; inversion H; subst. apply Nat.ltb_lt, E.
  - apply IH.
Qed.

(** The loop of the container tier, next to [containerScan]. *)
Lemma containerLoop_run cs (w : W) (r : PageResult) :
  for_first cs (fun container =>
    options <- liftW (liftW (handle_queryAll container Config.variantOptions)) ;;
    if 0 <? List.length options then
      assign (fun v => mkVariantVars (variantCount v + List.length options)
                         "container-based" "container") ;;;
      ret (Some tt)
    else ret None) ((w, r), mkVariantVars 0 "" "")
  = match containerScan cs w with
    | (Throw e, w') => (Throw e, ((w', r), mkVariantVars 0 "" ""))
    | (Ok None, w') => (Ok None, ((w', r), mkVariantVars 0 "" ""))
    | (Ok (Some options), w') =>
        (Ok (Some tt),
         ((w', r), mkVariantVars (List.length options) "container-based" "container"))
    end.
Proof.
  revert w. unfold containerScan. induction cs as [| c cs IH]; intros w; [reflexivity |].
  rewrite !for_first_cons, !bind_run, liftW2_run.
  destruct (handle_queryAll c Config.variantOptions w) as [[os | e] w1]; simpl;
    [| reflexivity].
  destruct (0 <? List.length os); simpl; [reflexivity |]. apply IH.
Qed.

Lemma detectVariants_run page (w : W) (r : PageResult) :
  detectVariants page ((w, r), mkVariantVars 0 "" "")
  = (Ok tt,
     match variantOutcome page w with
     | (NoVariants, w') => ((w', r), mkVariantVars 0 "" "")
     | (VariantError e, w') =>
         ((w', pushError ("Variant detection error: " +++ e) r), mkVariantVars 0 "" "")
     | (VariantsFound n sel strat, w') => ((w', r), mkVariantVars n sel strat)
     end)
    \/ exists l w', variantOutcome page w = (NoVariants, w')
                    /\ detectVariants page ((w, r), mkVariantVars 0 "" "")
                       = (Ok tt, ((w', r), mkVariantVars 0 (LocateResult.selector l)
                                             (LocateResult.strategy l))).
Proof.
  unfold detectVariants, variantOutcome, containerTier, fallbackTier, try_catch.
  rewrite !bind_run, liftW2_run.
  destruct (page_queryAll page Config.variantContainers w) as [[cs | e] w1]; simpl;
    [| left; reflexivity].
  rewrite bind_run, containerLoop_run.
  destruct (containerScan cs w1) as [[[os |] | e] w2] eqn:Escan; simpl;
    [| | left; reflexivity].
  - apply containerScan_nonempty in Escan.
    rewrite bind_run. unfold get. cbn [snd variantCount].
    destruct (List.length os) as [| n] eqn:En; [lia |]. left; reflexivity.
  - rewrite bind_run. unfold get. cbn [snd variantCount Nat.eqb].
    rewrite bind_run, liftW_run.
    destruct (locate_run page Config.variantConfig w2 r) as (found & E & El).
    cbn [fst snd]. rewrite El. cbn [fst snd]. rewrite E.
    destruct found as [l |]; [| left; reflexivity].
    rewrite bind_run, liftW2_run.
    destruct (page_queryAll page (LocateResult.selector l) _) as [[all | e] w4];
      cbn [fst snd]; [| left; reflexivity].
    destruct (List.length all) as [| n] eqn:En.
    + right. exists l, w4. split; reflexivity.
    + left. reflexivity.
Qed.

(** The variant check is [variantOutcome] applied to the result. *)
Lemma checkVariants_run page (w : W) (r : PageResult) :
  checkVariants page (w, r)
  = (Ok tt, (snd (variantOutcome page w), applyVariants (fst (variantOutcome page w)) r)).
Proof.
  unfold checkVariants. rewrite bind_run, scoped_run.
  destruct (detectVariants_run page w r) as [E | (l & w' & Eo & E)]; rewrite E; simpl.
  - destruct (variantOutcome page w) as [[| e | n sel strat] w'] eqn:Eo; simpl; try reflexivity.
    destruct n as [| n]; simpl; [| reflexivity].
    exfalso. unfold variantOutcome in Eo.
    destruct (page_queryAll page Config.variantContainers w) as [[cs | e] w1]; [| discriminate].
    destruct (containerScan cs w1) as [[[os |] | e] w2] eqn:Escan; [| | discriminate].
    + apply containerScan_nonempty in Escan. inversion Eo. lia.
    + destruct (findElementWithMultipleStrategies page Config.variantConfig w2)
        as [[[l |] | e] w3]; try discriminate.
      destruct (page_queryAll page (LocateResult.selector l) w3) as [[all | e] w4];
        [| discriminate].
      destruct (List.length all) eqn:En; simpl in Eo; [discriminate | inversion Eo].
  - rewrite Eo. reflexivity.
Qed.

Lemma variantOutcome_wellFormed page (w : W) :
  match fst (variantOutcome page w) with
  | VariantsFound n _ _ => 0 < n
  | _ => True
  end.
Proof.
  unfold variantOutcome.
  destruct (page_queryAll page Config.variantContainers w) as [[cs | e] w1]; simpl; [| exact I].
  destruct (containerScan cs w1) as [[[os |] | e] w2] eqn:Escan; simpl; try exact I.
  - eapply containerScan_nonempty, Escan.
  - destruct (findElementWithMultipleStrategies page Config.variantConfig w2)
      as [[[l |] | e] w3]; simpl; try exact I.
    destruct (page_queryAll page (LocateResult.selector l) w3) as [[all | e] w4];
      simpl; [| exact I].
    destruct (0 <? List.length all) eqn:E; simpl; [apply Nat.ltb_lt, E | exact I].
Qed.

(** ** The whole validation *)

Lemma inspect_run page (w : W) (r : PageResult) :
  exists f w', inspect page (w, r) = (Ok tt, (w', assemble f r)) /\ wellFormed f.
Proof.
  unfold inspect.
  destruct (checkTitle_run page w r) as (t & w1 & _ & E1).
  rewrite (bind_ok _ _ _ _ _ E1).
  destruct (checkPrice_run page w1 (applyTitle t r)) as (p & w2 & _ & E2).
  rewrite (bind_ok _ _ _ _ _ E2).
  destruct (checkAddToCart_run page w2 (applyPrice p (applyTitle t r)))
    as (c & w3 & _ & E3).
  assert (E3' : exists c' w3',
             checkAddToCart page (w2, applyPrice p (applyTitle t r))
             = (Ok tt, (w3', applyAddToCart c' (applyPrice p (applyTitle t r))))).
  { destruct c as [l |].
    - destruct E3 as (b & w3' & _ & E3). exists (Some (l, b)), w3'. exact E3.
    - exists None, w3. exact E3. }
  clear E3. destruct E3' as (c' & w3' & E3).
  rewrite (bind_ok _ _ _ _ _ E3).
  destruct (checkDescription_run page w3'
              (applyAddToCart c' (applyPrice p (applyTitle t r)))) as (d & w4 & _ & E4).
  rewrite (bind_ok _ _ _ _ _ E4).
  rewrite (bind_ok _ _ _ _ _ (checkVariants_run page w4 _)).
  destruct (checkAvailability_run page (snd (variantOutcome page w4))
              (applyVariants (fst (variantOutcome page w4))
                 (applyDescription d (applyAddToCart c' (applyPrice p (applyTitle t r))))))
    as (a & w6 & _ & E6).
  rewrite (bind_ok _ _ _ _ _ E6).
  exists (mkFindings t p c' d (fst (variantOutcome page w4)) a), w6.
  split; [reflexivity |]. unfold wellFormed. simpl. apply variantOutcome_wellFormed.
Qed.

Lemma navigate_run page u settings start (w : W) (r : PageResult) :
  (exists e w', navigate page u settings start (w, r) = (Throw e, (w', r)))
  \/ (exists t w', navigate page u settings start (w, r) = (Ok tt, (w', withLoadTime t r))).
Proof.
  unfold navigate. rewrite bind_run, liftW_run.
  destruct (page_goto page u (Some (timeout settings)) w) as [[[] | e] w1]; cbn [fst snd];
    [| left; eauto].
  rewrite bind_run, liftW_run.
  destruct (page_waitForTimeout page 2000%Z w1) as [[[] | e] w2]; cbn [fst snd];
    [| left; eauto].
  rewrite bind_run, liftW_run.
  assert (Hs : safe (try_catch (page_waitForLoadState page "networkidle" 5000%Z)
                       (fun _ => ret tt))) by auto with safe.
  destruct (safe_run _ Hs w2) as [[] E3]. rewrite E3. cbn [fst snd].
  rewrite bind_run, liftW_run. unfold total.
  destruct (date_now _) as [now w4]. cbn [fst snd]. right.
  exists (now - start)%Z, w4. reflexivity.
Qed.

(** Either navigation threw and the result is the initial one with the
    error recorded, or the result is assembled from what the checks found. *)
Lemma testProductPage_shape page u settings (w : W) :
  (exists e w',
     validate page u settings (fst (date_now w)) (snd (date_now w), initialResult u)
     = (Throw e, (w', initialResult u))
     /\ testProductPage page u settings w = (Ok (pushError e (initialResult u)), w'))
  \/ (exists t f w',
        wellFormed f
        /\ validate page u settings (fst (date_now w)) (snd (date_now w), initialResult u)
           = (Ok tt, (w', assemble f (withLoadTime t (initialResult u))))
        /\ testProductPage page u settings w
           = (Ok (assemble f (withLoadTime t (initialResult u))), w')).
Proof.
  unfold testProductPage. rewrite bind_run. unfold total.
  destruct (date_now w) as [start w0]. cbn [fst snd].
  rewrite bind_run, scoped_run. unfold validate.
  destruct (navigate_run page u settings start w0 (initialResult u))
    as [(e & w1 & E) | (t & w1 & E)].
  - left. exists e, w1. rewrite (bind_throw _ _ _ _ _ E). split; [reflexivity |].
    rewrite (try_throw _ _ _ _ _ (bind_throw _ _ _ _ _ E)). reflexivity.
  - right. destruct (inspect_run page w1 (withLoadTime t (initialResult u)))
      as (f & w2 & Ei & Hf).
    exists t, f, w2. split; [exact Hf |].
    rewrite (bind_ok _ _ _ _ _ E), Ei. split; [reflexivity |].
    rewrite (try_ok _ _ _ _ _ (eq_trans (bind_ok _ _ _ _ _ E) Ei)). reflexivity.
Qed.

End ValidatorFacts.

(* ===================================================================== *)
(** * Properties of the validator *)
(* ===================================================================== *)

Lemma length_substring0 (n : nat) (s : string) :
  String.length (JsString.substring0 n s) = Nat.min n (String.length s).
Proof.
  unfold JsString.substring0. revert s. induction n as [| n IH]; intros s.
  - destruct s; reflexivity.
  - destruct s as [| c s]; simpl; [reflexivity |]. rewrite IH. reflexivity.
Qed.

Lemma substring0_prefix (n : nat) (s : string) :
  exists rest, s = JsString.substring0 n s +++ rest.
Proof.
  unfold JsString.substring0. revert s. induction n as [| n IH]; intros s.
  - exists s. destruct s; reflexivity.
  - destruct s as [| c s]; simpl; [exists ""; reflexivity |].
    destruct (IH s) as [rest E]. exists rest.
    change (String c s = String c (substring 0 n s +++ rest)). rewrite <- E. reflexivity.
Qed.

Lemma assemble_verdict (f : Findings) (r : PageResult) :
  passed (assemble f r) = verdict (elements (assemble f r)).
Proof. reflexivity. Qed.

(** C2. Every result the validator produces has [passed] equal to: title
    present and price present and (add-to-cart present or variants
    present). This holds whatever the browser does, on the path where
    validation throws included. The second part runs the validator on the
    64 pages that hold each subset of the six elements: the result has
    exactly the presence flags of the page, and [passed] follows the title,
    price, add-to-cart and variants flags alone, whatever the description
    and availability flags are. *)
Theorem verdict_is_title_price_and_purchase_path :
  (forall (W : Type) (PW : Playwright W) (RT : Runtime W) page u settings (w : W),
     exists r w',
       testProductPage page u settings w = (Ok r, w')
       /\ passed r
          = TextCheck.present (title (elements r))
            && TextCheck.present (price (elements r))
            && (CartCheck.present (addToCart (elements r))
                || VariantCheck.present (variants (elements r))))
  /\ (forall t p c d v a : bool,
        exists r,
          Fixture.validated t p c d v a = Ok r
          /\ Fixture.flags r = (t, p, c, d, v, a)
          /\ passed r = t && p && (c || v)).
Proof.
  split.
  - intros W PW RT page u settings w.
    destruct (testProductPage_shape page u settings w)
      as [(e & w' & _ & E) | (t & f & w' & _ & _ & E)]; rewrite E; eauto.
  - intros [] [] [] [] [] []; eexists; (split; [vm_compute; reflexivity |]);
      split; reflexivity.
Qed.

(** C9. When an add-to-cart element is located, the check records it with
    the outcome of the clickability check on that element; when none is
    located the record is left as it is. The clickability check answers the
    conjunction of the element's enabled and visible states (the visible
    state is not asked when the element is disabled), and [true] when
    either call throws. In every result of the validator an absent
    add-to-cart element has [clickable = false]. *)
Theorem cart_clickable_is_enabled_and_visible :
  forall (W : Type) (PW : Playwright W) (RT : Runtime W) (page : Page),
    (forall (w : W) (r : PageResult),
       exists found w1,
         findElementWithMultipleStrategies page Config.cartConfig w = (Ok found, w1)
         /\ match found with
            | None => checkAddToCart page (w, r) = (Ok tt, (w1, r))
            | Some l =>
                exists clickable w2,
                  isClickable (LocateResult.element l) w1 = (Ok clickable, w2)
                  /\ checkAddToCart page (w, r)
                     = (Ok tt,
                        (w2, withElements (withAddToCart (fun _ =>
                               CartCheck.mk true clickable (LocateResult.selector l)
                                 (LocateResult.strategy l))) r))
            end)
    /\ (forall (element : Target) (w : W),
          (forall en w1 vis w2,
             isEnabled element w = (Ok en, w1) -> isVisible element w1 = (Ok vis, w2) ->
             fst (isClickable element w) = Ok (en && vis))
          /\ (forall e w1,
                isEnabled element w = (Throw e, w1) -> isClickable element w = (Ok true, w1))
          /\ (forall w1 e w2,
                isEnabled element w = (Ok true, w1) -> isVisible element w1 = (Throw e, w2) ->
                isClickable element w = (Ok true, w2)))
    /\ (forall u settings (w : W),
          exists r w',
            testProductPage page u settings w = (Ok r, w')
            /\ (CartCheck.present (addToCart (elements r)) = false ->
                CartCheck.clickable (addToCart (elements r)) = false)).
Proof.
  intros W PW RT page. split; [| split].
  - intros w r. destruct (checkAddToCart_run page w r) as (found & w1 & E & H).
    exists found, w1. split; [exact E |]. destruct found; exact H.
  - intros element w. repeat split.
    + intros en w1 vis w2 E1 E2. rewrite isClickable_spec, E1.
      destruct en; [rewrite E2 |]; reflexivity.
    + intros e w1 E1. rewrite isClickable_spec, E1. reflexivity.
    + intros w1 e w2 E1 E2. rewrite isClickable_spec, E1, E2. reflexivity.
  - intros u settings w.
    destruct (testProductPage_shape page u settings w)
      as [(e & w' & _ & E) | (t & f & w' & _ & _ & E)]; rewrite E.
    + eexists. eexists. split; [reflexivity |]. reflexivity.
    + eexists. eexists. split; [reflexivity |].
      destruct f as [ft fp [[l b] |] fd fv fa]; simpl;
        destruct ft, fp, fd, fv, fa; simpl; intros; try discriminate; reflexivity.
Qed.

(** A disabled button is found and recorded as not clickable. *)
Example disabled_button_not_clickable :
  exists r,
    fst (testProductPage 1 Fixture.shop Fixture.settings
           (Fixture.worldOf [(Fixture.shop, [Fixture.disabledButton])] [])) = Ok r
    /\ addToCart (elements r) = CartCheck.mk true false "button" "css".
Proof. eexists. split; [vm_compute; reflexivity | reflexivity]. Qed.

(** C10. The description check stores the first 200 code units of the
    located text; the title, price and availability checks store the located
    text as it is. The stored description is a prefix of the located text,
    of length [min 200 (its length)]. In every result of the validator the
    description text has length at most 200. *)
Theorem description_text_is_truncated_to_200 :
  forall (W : Type) (PW : Playwright W) (RT : Runtime W) (page : Page),
    (forall (w : W) (r : PageResult),
       (exists found w',
          findElementWithMultipleStrategies page Config.descConfig w = (Ok found, w')
          /\ checkDescription page (w, r)
             = (Ok tt, (w', match found with
                            | Some l =>
                                withElements (withDescription (fun _ =>
                                  TextCheck.mk true
                                    (JsString.substring0 200 (LocateResult.text l))
                                    (LocateResult.selector l) (LocateResult.strategy l))) r
                            | None => r
                            end)))
       /\ (exists found w',
             findElementWithMultipleStrategies page Config.titleConfig w = (Ok found, w')
             /\ checkTitle page (w, r)
                = (Ok tt, (w', match found with
                               | Some l =>
                                   withElements (withTitle (fun _ =>
                                     TextCheck.mk true (LocateResult.text l)
                                       (LocateResult.selector l) (LocateResult.strategy l))) r
                               | None => r
                               end)))
       /\ (exists found w',
             findElementWithMultipleStrategies page Config.priceConfig w = (Ok found, w')
             /\ checkPrice page (w, r)
                = (Ok tt, (w', match found with
                               | Some l =>
                                   withElements (withPrice (fun _ =>
                                     TextCheck.mk true (LocateResult.text l)
                                       (LocateResult.selector l) (LocateResult.strategy l))) r
                               | None => r
                               end)))
       /\ (exists found w' r',
             findElementWithMultipleStrategies page Config.availConfig w = (Ok found, w')
             /\ checkAvailability page (w, r) = (Ok tt, (w', r'))
             /\ forall l, found = Some l ->
                  AvailabilityCheck.text (availability (elements r')) = LocateResult.text l))
    /\ (forall s, String.length (JsString.substring0 200 s) = Nat.min 200 (String.length s)
                  /\ exists rest, s = JsString.substring0 200 s +++ rest)
    /\ (forall u settings (w : W),
          exists r w',
            testProductPage page u settings w = (Ok r, w')
            /\ String.length (TextCheck.text (description (elements r))) <= 200).
Proof.
  intros W PW RT page. split; [| split].
  - intros w r. repeat split.
    + destruct (checkDescription_run page w r) as (found & w' & E & H).
      exists found, w'. split; [exact E |]. destruct found; exact H.
    + destruct (checkTitle_run page w r) as (found & w' & E & H).
      exists found, w'. split; [exact E |]. destruct found; exact H.
    + destruct (checkPrice_run page w r) as (found & w' & E & H).
      exists found, w'. split; [exact E |]. destruct found; exact H.
    + destruct (checkAvailability_run page w r) as (found & w' & E & H).
      exists found, w', (applyAvailability found r). split; [exact E |]. split; [exact H |].
      intros l ->. reflexivity.
  - intros s. split; [apply length_substring0 | apply substring0_prefix].
  - intros u settings w.
    destruct (testProductPage_shape page u settings w)
      as [(e & w' & _ & E) | (t & f & w' & _ & _ & E)]; rewrite E.
    + eexists. eexists. split; [reflexivity |]. simpl. lia.
    + eexists. eexists. split; [reflexivity |].
      destruct f as [ft fp fc [l |] fv fa]; simpl.
      * destruct fa, fv, fc as [[? ?] |], fp, ft; simpl;
          rewrite length_substring0; apply Nat.le_min_l.
      * destruct fa, fv, fc as [[? ?] |], fp, ft; simpl; lia.
Qed.

(** A description of 263 characters is stored as its first 200. *)
Example long_description_is_cut :
  exists r,
    fst (testProductPage 1 Fixture.shop Fixture.settings
           (Fixture.worldOf
              [(Fixture.shop, [Fixture.node 4 [".description"] Fixture.longText])] [])) = Ok r
    /\ String.length (TextCheck.text (description (elements r))) = 200
    /\ TextCheck.text (description (elements r)) = JsString.substring0 200 Fixture.longText.
Proof. eexists. split; [vm_compute; reflexivity | split; vm_compute; reflexivity]. Qed.

(** ** The stock flag *)

Lemma includes_here s p : JsString.startsWith s p = true -> JsString.includes s p = true.
Proof. intros H. destruct s; simpl in *; rewrite H; reflexivity. Qed.

Lemma includes_later c s p : JsString.includes s p = true -> JsString.includes (String c s) p = true.
Proof. intros H. simpl. rewrite H. apply orb_true_r. Qed.

(** A text that holds [c] followed by [p] holds [p]. *)
Lemma includes_drop_char s c p :
  JsString.includes s (String c p) = true -> JsString.includes s p = true.
Proof.
  induction s as [| a s IH]; simpl.
  - discriminate.
  - intros H. apply orb_prop in H. destruct H as [H | H].
    + apply andb_prop in H. destruct H as [_ H].
      apply (includes_later a), includes_here, H.
    + apply (includes_later a), IH, H.
Qed.

(** The second test of the [else if] never decides: a text that holds
    "unavailable" holds "available", and the first branch has taken it. *)
Lemma unavailable_is_reported_in_stock (text : string) :
  JsString.includes (JsString.toLowerCase text) "unavailable" = true ->
  stockFlag text = Some true.
Proof.
  intros H. apply includes_drop_char, includes_drop_char in H.
  unfold stockFlag. rewrite H, orb_true_r. reflexivity.
Qed.

(** In every result of the validator, a present availability element has
    the stock flag [stockFlag] gives for its stored text. *)
Lemma availability_flag_follows_text {W : Type} {PW : Playwright W} {RT : Runtime W}
    page u settings (w : W) :
  exists r w',
    testProductPage page u settings w = (Ok r, w')
    /\ (AvailabilityCheck.present (availability (elements r)) = true ->
        AvailabilityCheck.inStock (availability (elements r))
        = stockFlag (AvailabilityCheck.text (availability (elements r)))).
Proof.
  destruct (testProductPage_shape page u settings w)
    as [(e & w' & _ & E) | (t & f & w' & _ & _ & E)]; rewrite E.
  - eexists. eexists. split; [reflexivity |]. simpl. discriminate.
  - eexists. eexists. split; [reflexivity |].
    destruct f as [ft fp fc fd fv [l |]]; simpl.
    + intros _. destruct fv, fd, fc as [[? ?] |], fp, ft; simpl;
        destruct (stockFlag (LocateResult.text l)); reflexivity.
    + destruct fv, fd, fc as [[? ?] |], fp, ft; simpl; discriminate.
Qed.

(** C1 (the code differs from the claim). The text "Unavailable", lowered,
    holds "available", so the first branch of the stock test takes it: the
    flag is [true], on [stockFlag] and on the result of validating a page
    that shows this notice. The other texts of the claim come out as it
    says: "In Stock" gives [true], "Out of Stock" [false], "Ships free"
    leaves the flag [null]. *)
Theorem stock_flag_of_unavailable_is_true :
  stockFlag "Unavailable" = Some true
  /\ (exists r,
        fst (testProductPage 1 Fixture.shop Fixture.settings (Fixture.notice "Unavailable"))
        = Ok r
        /\ availability (elements r)
           = AvailabilityCheck.mk true "Unavailable" (Some true) ".stock-status" "css-pattern")
  /\ stockFlag "In Stock" = Some true
  /\ stockFlag "Out of Stock" = Some false
  /\ stockFlag "Ships free" = None.
Proof.
  split; [reflexivity |]. split; [| repeat split; reflexivity].
  eexists. split; [vm_compute; reflexivity | reflexivity].
Qed.

(** ** Variant detection on a page whose containers answer *)

Section VariantTiers.
Context {W : Type} {PW : Playwright W} {RT : Runtime W}.

Lemma containerScan_answers (I : W -> Prop) (options : Handle -> list Handle) cs :
  (forall c, In c cs ->
     answers I (handle_queryAll c Config.variantOptions) (Ok (options c))) ->
  hoare I (containerScan cs)
    (fun o w => o = Ok (option_map options
                          (find (fun c => 0 <? List.length (options c)) cs))
                /\ I w).
Proof.
  unfold containerScan. induction cs as [| c cs IH]; intros Ho w Hw; [simpl; auto |].
  rewrite for_first_cons, bind_run.
  destruct (answers_run _ _ _ _ (Ho c (or_introl eq_refl)) Hw) as [E Hw1]. rewrite E.
  simpl. destruct (0 <? List.length (options c)); simpl; [auto |].
  apply IH; [| exact Hw1]. intros c' Hc'. apply Ho. right; exact Hc'.
Qed.

Lemma variantOutcome_containers (I : W -> Prop) page containers options (w : W) :
  answers I (page_queryAll page Config.variantContainers) (Ok containers) ->
  (forall c, In c containers ->
     answers I (handle_queryAll c Config.variantOptions) (Ok (options c))) ->
  I w ->
  exists w1, I w1 /\
    variantOutcome page w
    = if 0 <? containerCount containers options
      then (VariantsFound (containerCount containers options) "container-based" "container",
            w1)
      else match findElementWithMultipleStrategies page Config.variantConfig w1 with
           | (Throw e, w3) => (VariantError e, w3)
           | (Ok None, w3) => (NoVariants, w3)
           | (Ok (Some l), w3) =>
               match page_queryAll page (LocateResult.selector l) w3 with
               | (Throw e, w4) => (VariantError e, w4)
               | (Ok allVariants, w4) =>
                   (if 0 <? List.length allVariants
                    then VariantsFound (List.length allVariants)
                           (LocateResult.selector l) (LocateResult.strategy l)
                    else NoVariants, w4)
               end
           end.
Proof.
  intros Hc Ho Hw. unfold variantOutcome, containerCount.
  destruct (answers_run _ _ _ _ Hc Hw) as [E1 Hw1]. rewrite E1.
  set (w1 := snd (page_queryAll page Config.variantContainers w)) in *.
  destruct (containerScan_answers I options containers Ho w1 Hw1) as [E2 Hw2].
  exists (snd (containerScan containers w1)). split; [exact Hw2 |].
  rewrite (run_eq (containerScan containers) w1), E2.
  destruct (find (fun c => 0 <? List.length (options c)) containers) as [c |] eqn:Ef; simpl.
  - apply find_some in Ef. destruct Ef as [_ Ef]. rewrite Ef. reflexivity.
  - reflexivity.
Qed.

End VariantTiers.

Lemma sim_options d c sel :
  SimPage.attached d = true -> In c (map Sim.handle d) ->
  answers (SimPage.showing d) (handle_queryAll c sel) (Ok (SimOptions.optionsOf d c)).
Proof.
  intros Ha Hc w Hw. destruct (nodeIn_found d c Ha Hc) as (n & En & Hd).
  pose proof Hw as Hw0. unfold SimPage.showing in Hw0.
  simpl. unfold Sim.onNode, Sim.resolve, Sim.nodeOf, SimOptions.optionsOf.
  rewrite Hw0. fold (SimPage.nodeIn d c). rewrite En, Hd. simpl. auto.
Qed.

(** C7 as stated fails: the container tier does not count the options of
    the first container found. Its loop goes on past a container that holds
    no option and breaks at the first that holds one. On the page with an
    empty option container before one that holds three options, the first
    container found holds none, so the claim sends the check to the locator
    (which finds the size picker); the code records 3 from the container
    tier. *)
Lemma first_container_found_is_not_the_one_counted :
  fst (page_queryAll 1 Config.variantContainers (LocatorFixture.loaded Fixture.swatches))
  = Ok [1; 2]
  /\ firstContainerCount [1; 2] (SimOptions.optionsOf Fixture.swatches) = 0
  /\ containerCount [1; 2] (SimOptions.optionsOf Fixture.swatches) = 3
  /\ fst (findElementWithMultipleStrategies 1 Config.variantConfig
            (LocatorFixture.loaded Fixture.swatches))
     = Ok (Some (LocateResult.mk (Elem 5) "S M L" "select" "css"))
  /\ (exists r,
        fst (testProductPage 1 Fixture.shop Fixture.settings
               (Fixture.worldOf [(Fixture.shop, Fixture.swatches)] []))
        = Ok r
        /\ variants (elements r) = VariantCheck.mk true 3 "container-based" "container"
        /\ VariantCheck.count (variants (elements r))
           <> firstContainerCount [1; 2] (SimOptions.optionsOf Fixture.swatches)
        /\ VariantCheck.strategy (variants (elements r)) <> "css").
Proof.
  split; [vm_compute; reflexivity |]. split; [reflexivity |]. split; [reflexivity |].
  split; [vm_compute; reflexivity |].
  eexists. split; [vm_compute; reflexivity |].
  split; [reflexivity |]. split; [vm_compute; discriminate | discriminate].
Qed.

(** C7, amended. Variant detection has two tiers. With the containers the page
    reports, and the options each reports inside it, the first tier counts
    the options of the first container that holds any: when that count is
    above zero the check records it as [container-based] / [container] and
    the locator is not consulted. Only when the count is zero does the check
    consult the locator with the variant configuration and count every
    element of the selector it matched, recording that count with the
    locator's selector and strategy when it is above zero (an error of that
    last query is recorded in the result's error list). In every result of
    the validator, [variants.present] is [true] exactly when
    [variants.count] is above zero. *)
Theorem variant_detection_is_two_tier {W : Type} {PW : Playwright W} {RT : Runtime W}
    (I : W -> Prop) (page : Page) (containers : list Handle)
    (options : Handle -> list Handle) :
  answers I (page_queryAll page Config.variantContainers) (Ok containers) ->
  (forall c, In c containers ->
     answers I (handle_queryAll c Config.variantOptions) (Ok (options c))) ->
  (forall (w : W) (r : PageResult), I w ->
     let n := containerCount containers options in
     (0 < n ->
      exists w', checkVariants page (w, r)
                 = (Ok tt, (w', withElements (withVariants (fun _ =>
                                  VariantCheck.mk true n "container-based" "container")) r)))
     /\ (n = 0 ->
         exists w1 found w2,
           I w1
           /\ findElementWithMultipleStrategies page Config.variantConfig w1 = (Ok found, w2)
           /\ match found with
              | None => checkVariants page (w, r) = (Ok tt, (w2, r))
              | Some l =>
                  match page_queryAll page (LocateResult.selector l) w2 with
                  | (Ok allVariants, w3) =>
                      checkVariants page (w, r)
                      = (Ok tt,
                         (w3, if 0 <? List.length allVariants
                              then withElements (withVariants (fun _ =>
                                     VariantCheck.mk true (List.length allVariants)
                                       (LocateResult.selector l)
                                       (LocateResult.strategy l))) r
                              else r))
                  | (Throw e, w3) =>
                      checkVariants page (w, r)
                      = (Ok tt, (w3, pushError ("Variant detection error: " +++ e) r))
                  end
              end))
  /\ (forall u settings (w : W),
        exists r w',
          testProductPage page u settings w = (Ok r, w')
          /\ VariantCheck.present (variants (elements r))
             = (0 <? VariantCheck.count (variants (elements r)))).
Proof.
  intros Hc Ho. split.
  - intros w r Hw n.
    destruct (variantOutcome_containers I page containers options w Hc Ho Hw)
      as (w1 & Hw1 & E).
    fold n in E. rewrite checkVariants_run, E. split.
    + intros Hn. apply Nat.ltb_lt in Hn. rewrite Hn. eexists. reflexivity.
    + intros Hn. rewrite Hn. simpl.
      destruct (safe_run _ (safe_locator page Config.variantConfig) w1) as [found Ef].
      exists w1, found, (snd (findElementWithMultipleStrategies page Config.variantConfig w1)).
      split; [exact Hw1 |]. split; [exact Ef |]. rewrite Ef.
      destruct found as [l |]; [| reflexivity].
      destruct (page_queryAll page (LocateResult.selector l) _) as [[all | e] w3];
        [| reflexivity].
      destruct (0 <? List.length all); reflexivity.
  - intros u settings w.
    destruct (testProductPage_shape page u settings w)
      as [(e & w' & _ & E) | (t & f & w' & Hf & _ & E)]; rewrite E.
    + eexists. eexists. split; [reflexivity |]. reflexivity.
    + eexists. eexists. split; [reflexivity |].
      destruct f as [ft fp fc fd fv fa]. unfold wellFormed in Hf. simpl in Hf.
      destruct fv as [| e | n sel strat]; simpl;
        destruct fa, fd, fc as [[? ?] |], fp, ft; simpl; try reflexivity;
        symmetry; apply Nat.ltb_lt, Hf.
Qed.

(** C7 on a page with an empty option container before one that holds
    three options: the count is 3, from the container tier. *)
Lemma variant_detection_is_two_tier_witness :
  answers (SimPage.showing Fixture.swatches) (page_queryAll 1 Config.variantContainers)
    (Ok [1; 2])
  /\ (forall c, In c [1; 2] ->
        answers (SimPage.showing Fixture.swatches)
          (handle_queryAll c Config.variantOptions)
          (Ok (SimOptions.optionsOf Fixture.swatches c)))
  /\ containerCount [1; 2] (SimOptions.optionsOf Fixture.swatches) = 3
  /\ exists w',
       checkVariants 1 (LocatorFixture.loaded Fixture.swatches, initialResult Fixture.shop)
       = (Ok tt, (w', withElements (withVariants (fun _ =>
                        VariantCheck.mk true 3 "container-based" "container"))
                        (initialResult Fixture.shop))).
Proof.
  assert (Hc : answers (SimPage.showing Fixture.swatches)
                 (page_queryAll 1 Config.variantContainers) (Ok [1; 2])).
  { exact (proj1 (sim_reads Fixture.swatches 1 eq_refl) Config.variantContainers). }
  assert (Ho : forall c, In c [1; 2] ->
                 answers (SimPage.showing Fixture.swatches)
                   (handle_queryAll c Config.variantOptions)
                   (Ok (SimOptions.optionsOf Fixture.swatches c))).
  { intros c Hin. apply sim_options; [reflexivity |].
    simpl in Hin. simpl. tauto. }
  split; [exact Hc |]. split; [exact Ho |]. split; [reflexivity |].
  apply (proj1 (variant_detection_is_two_tier (SimPage.showing Fixture.swatches) 1 [1; 2]
                  (SimOptions.optionsOf Fixture.swatches) Hc Ho)
           (LocatorFixture.loaded Fixture.swatches) (initialResult Fixture.shop) eq_refl).
  vm_compute. lia.
Defined.

(* ===================================================================== *)
(** * The orchestrator *)
(* ===================================================================== *)

Section OrchestratorFacts.
Context {W : Type} {PW : Playwright W} {RT : Runtime W} {CO : Collaborators W}.

Lemma sameHeader_refl d : sameHeader d d.
Proof. unfold sameHeader. tauto. Qed.

Lemma keeps_refl (ex : Exec W) : keeps ex ex.
Proof. unfold keeps. auto using sameHeader_refl. Qed.

Lemma quiet_ret {A} (a : A) : quiet (@ret (Exec W) A a).
Proof. intros ex0 ex H. exact H. Qed.

Lemma quiet_get : quiet (@get (Exec W)).
Proof. intros ex0 ex H. exact H. Qed.

Lemma quiet_io {A} (m : M W A) : quiet (io m).
Proof.
  intros ex0 ex H. unfold io. destruct (m (world ex)) as [o w']. exact H.
Qed.

Lemma quiet_bind {A B} (m : M (Exec W) A) (f : A -> M (Exec W) B) :
  quiet m -> (forall a, quiet (f a)) -> quiet (bind m f).
Proof.
  intros Hm Hf ex0. eapply hoare_bind with (R := fun _ ex => keeps ex0 ex).
  - eapply hoare_weaken; [apply (Hm ex0) | auto |]. intros [a | e] ex H; exact H.
  - intros a. apply Hf.
Qed.

Lemma quiet_for_each {X} (xs : list X) (body : X -> M (Exec W) unit) :
  (forall x, quiet (body x)) -> quiet (for_each xs body).
Proof.
  intros Hb ex0. apply hoare_for_each; [| auto].
  intros x _. eapply hoare_weaken; [apply (Hb x ex0) | auto |].
  intros [a | e] ex H; exact H.
Qed.

Lemma quiet_update_results (f : Results -> Results) :
  quiet (@update W (withResults f)).
Proof. intros ex0 ex H. exact H. Qed.

Lemma quiet_update_analysis (a : AiAnalysis) :
  quiet (@update W (withAiAnalysis a)).
Proof. intros ex0 ex H. exact H. Qed.

Lemma quiet_initializeBrowser : quiet initializeBrowser.
Proof.
  unfold initializeBrowser. apply quiet_bind; [apply quiet_get |]. intros ex.
  destruct (browser (service ex)); [apply quiet_ret |].
  apply quiet_bind; [apply quiet_io |]. intros b.
  apply quiet_bind; [| intros; apply quiet_ret].
  intros ex0 ex' H. exact H.
Qed.

Lemma quiet_testOnePage page settings pp : quiet (testOnePage page settings pp).
Proof.
  unfold testOnePage. apply quiet_bind; [apply quiet_io |].
  intros r. apply quiet_update_results.
Qed.

(** Everything in [prepare] after the first [save]. *)
Lemma quiet_after_first_save cfg :
  quiet (b <- initializeBrowser ;;
         context <- io (browser_newContext b (viewport (testSettings cfg))) ;;
         page <- io (context_newPage context) ;;
         installListeners page ;;;
         testProductPages page cfg ;;;
         imageResults <- io (testImageLoading page (map pp_url (productPages cfg))) ;;
         update (withResults (withImageValidation imageResults)) ;;;
         detected <- io (fun w => (Ok (collected page w), w)) ;;
         update (withResults (withErrorDetection detected)) ;;;
         io (context_close context) ;;;
         ex <- get ;;
         analysis <- io (analyzeTestResults (TestResult.results (testResult ex))) ;;
         update (withAiAnalysis analysis)).
Proof.
  repeat first
    [ apply quiet_initializeBrowser
    | apply quiet_bind; [| intros ?]
    | apply quiet_io
    | apply quiet_get
    | apply quiet_update_results
    | apply quiet_update_analysis
    | unfold installListeners; apply quiet_io
    | unfold testProductPages; apply quiet_for_each; intros; apply quiet_testOnePage ].
Qed.

(** [save], run. *)
Lemma save_run (ex : Exec W) :
  save ex
  = match db_save (testResult ex) (world ex) with
    | (Ok _, w') =>
        (Ok tt, mkExec w' (service ex) (testResult ex) (history ex)
                  (saves ex ++ [(testResult ex, true)]))
    | (Throw e, w') =>
        (Throw e, mkExec w' (service ex) (testResult ex) (history ex)
                    (saves ex ++ [(testResult ex, false)]))
    end.
Proof. reflexivity. Qed.

(** [prepare]: the document goes to [save] first, from the world it was
    created in; nothing else is saved and no status is assigned. *)
Lemma prepare_run cfg (ex0 : Exec W) :
  exists ok,
    (ok = true <-> exists u w', db_save (testResult ex0) (world ex0) = (Ok u, w'))
    /\ history (snd (prepare cfg ex0)) = history ex0
    /\ saves (snd (prepare cfg ex0)) = saves ex0 ++ [(testResult ex0, ok)]
    /\ sameHeader (testResult ex0) (testResult (snd (prepare cfg ex0)))
    /\ (ok = false ->
        exists e, fst (prepare cfg ex0) = Throw e
                  /\ fst (db_save (testResult ex0) (world ex0)) = Throw e).
Proof.
  unfold prepare. rewrite bind_run, save_run.
  destruct (db_save (testResult ex0) (world ex0)) as [[u | e] w1] eqn:Es.
  - exists true. split; [split; eauto |].
    set (ex1 := mkExec w1 (service ex0) (testResult ex0) (history ex0)
                  (saves ex0 ++ [(testResult ex0, true)])).
    pose proof (quiet_after_first_save cfg ex1 ex1 (keeps_refl ex1)) as (Hh & Hs & Hd).
    cbv beta in Hh, Hs, Hd.
    repeat split; try assumption; try (apply Hd). discriminate.
  - exists false. split; [split; [discriminate | intros (u & w' & E); discriminate] |].
    simpl. repeat split; eauto.
Qed.

(** The final update of the document, run. *)
Lemma complete_run (ex : Exec W) :
  complete ex
  = let d := stamped completed (fst (date_now (world ex))) (testResult ex) in
    match db_save d (snd (date_now (world ex))) with
    | (Ok _, w2) =>
        (Ok d, mkExec w2 (service ex) d (history ex ++ [completed]) (saves ex ++ [(d, true)]))
    | (Throw e, w2) =>
        (Throw e,
         mkExec w2 (service ex) d (history ex ++ [completed]) (saves ex ++ [(d, false)]))
    end.
Proof.
  unfold complete, setStatus, update, io, total, save, modify, get, ret, bind, stamped.
  simpl. destruct (date_now (world ex)) as [t w1]. simpl.
  destruct (db_save _ w1) as [[u | e] w2]; reflexivity.
Qed.

(** The [catch] block, run. *)
Lemma onFailure_run (error : string) (ex : Exec W) :
  onFailure error ex
  = let d := stamped failed (fst (date_now (world ex))) (testResult ex) in
    match db_save d (snd (date_now (world ex))) with
    | (Ok _, w2) =>
        (Throw error,
         mkExec w2 (service ex) d (history ex ++ [failed]) (saves ex ++ [(d, true)]))
    | (Throw e, w2) =>
        (Throw e, mkExec w2 (service ex) d (history ex ++ [failed]) (saves ex ++ [(d, false)]))
    end.
Proof.
  unfold onFailure, setStatus, update, io, total, save, modify, get, ret, bind, throw, stamped.
  simpl. destruct (date_now (world ex)) as [t w1]. simpl.
  destruct (db_save _ w1) as [[u | e] w2]; reflexivity.
Qed.

Lemma stamped_fields (s : Status) (t : Z) (d : TestResult.t) :
  TestResult.status (stamped s t d) = s
  /\ TestResult.endTime (stamped s t d) = Some t
  /\ TestResult.duration (stamped s t d)
     = Some (t - TestResult.startTime (stamped s t d))%Z.
Proof. repeat split. Qed.

(** ** One page after the other *)

Lemma testProductPage_url page u settings (w : W) :
  exists r w', testProductPage page u settings w = (Ok r, w') /\ url r = u.
Proof.
  destruct (testProductPage_shape page u settings w)
    as [(e & w' & _ & E) | (t & f & w' & _ & _ & E)]; rewrite E.
  - eexists. eexists. split; reflexivity.
  - eexists. eexists. split; [reflexivity |].
    destruct f as [ft fp fc fd fv fa].
    destruct fa, fv, fd, fc as [[? ?] |], fp, ft; reflexivity.
Qed.

Lemma testOnePage_run page settings pp (ex : Exec W) :
  exists r w',
    testProductPage page (pp_url pp) settings (world ex) = (Ok r, w')
    /\ url r = pp_url pp
    /\ testOnePage page settings pp ex
       = (Ok tt, mkExec w' (service ex) (withResults (pushPageResult r) (testResult ex))
                   (history ex) (saves ex)).
Proof.
  destruct (testProductPage_url page (pp_url pp) settings (world ex)) as (r & w' & E & Hu).
  exists r, w'. split; [exact E |]. split; [exact Hu |].
  unfold testOnePage. rewrite bind_run. unfold io. rewrite E. reflexivity.
Qed.

(** The loop over the pages never throws: it appends one result per page,
    in the order of the pages, each under its page's URL. *)
Lemma testPages_run page settings pages (ex : Exec W) :
  exists rs ex',
    for_each pages (testOnePage page settings) ex = (Ok tt, ex')
    /\ pageResults ex' = pageResults ex ++ rs
    /\ map url rs = map pp_url pages.
Proof.
  revert ex. induction pages as [| pp pages IH]; intros ex.
  - exists [], ex. simpl. rewrite app_nil_r. auto.
  - destruct (testOnePage_run page settings pp ex) as (r & w' & _ & Hu & E).
    simpl. rewrite (bind_ok _ _ _ _ _ E).
    destruct (IH (mkExec w' (service ex) (withResults (pushPageResult r) (testResult ex))
                    (history ex) (saves ex))) as (rs & ex' & El & Hr & Hm).
    exists (r :: rs), ex'. split; [exact El |]. split.
    + rewrite Hr. unfold pageResults. simpl. rewrite <- app_assoc. reflexivity.
    + simpl. rewrite Hu, Hm. reflexivity.
Qed.

End OrchestratorFacts.

(** C5 as stated fails: when the finalising [save] raises, the status has
    already been assigned [completed] and the [catch] block assigns
    [failed] over it, two assignments in one execution. Here the second
    call of [save] is the one that fails. *)
Lemma status_assigned_twice_when_final_save_fails :
  history (snd (runTest Fixture.twoPages (Fixture.worldOf Fixture.fullShop [1]) Fixture.idle))
  = [completed; failed]
  /\ ~ singleTransition
         (history (snd (runTest Fixture.twoPages (Fixture.worldOf Fixture.fullShop [1])
                          Fixture.idle))).
Proof.
  assert (H : history (snd (runTest Fixture.twoPages (Fixture.worldOf Fixture.fullShop [1])
                              Fixture.idle)) = [completed; failed])
    by (vm_compute; reflexivity).
  split; [exact H |]. rewrite H. intros (s & E & _). discriminate.
Qed.

(** When the [save] of the [catch] block raises too, nothing of the failed
    execution is persisted, and the error that propagates is that of the
    last [save]. *)
Example failed_record_not_persisted_when_save_keeps_failing :
  map (fun x => (TestResult.status (fst x), snd x))
    (saves (snd (runTest Fixture.twoPages (Fixture.worldOf Fixture.fullShop [0; 1])
                   Fixture.idle)))
  = [(running, false); (failed, false)].
Proof. vm_compute. reflexivity. Qed.

(** C5, amended. The document is created with status [running], and it is
    the first thing handed to [save], from the world it was created in
    (before the browser is touched). The status is never assigned
    [running]. When [runTest] returns, the status was assigned once, to
    [completed]; the returned document carries it with end time and
    duration, and was saved. When [runTest] throws, the last assignment is
    [failed], with end time and duration stamped, and that document was
    handed to [save] last, before anything propagates; if that [save]
    succeeded, what propagates is the exception of the [try] block. The
    status was then assigned once, unless it was the finalising [save] that
    raised: then the assignments are [completed], then [failed]. *)
Theorem execution_status_lifecycle :
  forall (W : Type) (PW : Playwright W) (RT : Runtime W) (CO : Collaborators W)
         (cfg : TestConfiguration) (w : W) (svc : Service),
    let ex0 := startExec cfg w svc in
    let doc0 := testResult ex0 in
    let ex := snd (runTest cfg w svc) in
    let doc := testResult ex in
    (TestResult.status doc0 = running /\ history ex0 = [] /\ saves ex0 = [])
    /\ (exists ok rest,
          saves ex = (doc0, ok) :: rest
          /\ (ok = true <-> exists u w', db_save doc0 (world ex0) = (Ok u, w')))
    /\ ~ In running (history ex)
    /\ match fst (runTest cfg w svc) with
       | Ok d =>
           history ex = [completed]
           /\ d = doc
           /\ TestResult.status d = completed
           /\ (exists t, TestResult.endTime d = Some t
                         /\ TestResult.duration d = Some (t - TestResult.startTime d)%Z)
           /\ saves ex = [(doc0, true); (d, true)]
       | Throw e =>
           TestResult.status doc = failed
           /\ (exists t, TestResult.endTime doc = Some t
                         /\ TestResult.duration doc = Some (t - TestResult.startTime doc)%Z)
           /\ (exists ok before,
                 saves ex = before ++ [(doc, ok)]
                 /\ (ok = true -> exists ex1, execute cfg ex0 = (Throw e, ex1))
                 /\ (ok = false -> exists w1, fst (db_save doc w1) = Throw e))
           /\ ((history ex = [failed]
                /\ exists ok0 ok, saves ex = [(doc0, ok0); (doc, ok)])
               \/ (history ex = [completed; failed]
                   /\ exists dc ok,
                        TestResult.status dc = completed
                        /\ saves ex = [(doc0, true); (dc, false); (doc, ok)]))
       end.
Proof.
  intros W PW RT CO cfg w svc ex0 doc0. cbv zeta.
  assert (H0 : TestResult.status doc0 = running /\ history ex0 = [] /\ saves ex0 = []).
  { unfold doc0, ex0, startExec. destruct (uuidv4 w) as [id w1].
    destruct (date_now w1) as [t w2]. simpl. auto. }
  destruct H0 as (Hrun & Hh0 & Hs0). split; [auto |].
  destruct (prepare_run cfg ex0) as (ok0 & Hok0 & Hh1 & Hs1 & Hd1 & Hfail1).
  rewrite Hh0 in Hh1. rewrite Hs0 in Hs1. simpl in Hs1. fold doc0 in Hs1, Hok0, Hd1.
  unfold runTest. fold ex0. unfold try_catch, execute. rewrite bind_run.
  destruct (prepare cfg ex0) as [[[] | e] ex1] eqn:Ep; simpl in Hh1, Hs1, Hd1, Hfail1.
  - (* the browser phase went through *)
    assert (ok0 = true) as ->.
    { destruct ok0; [reflexivity |]. destruct (Hfail1 eq_refl) as (e & He & _). discriminate. }
    rewrite complete_run. cbv zeta.
    set (dc := stamped completed (fst (date_now (world ex1))) (testResult ex1)).
    destruct (db_save dc (snd (date_now (world ex1)))) as [[u | e] w2] eqn:Es.
    + (* completed *)
      cbn [fst snd world testResult history saves service]. rewrite Hh1, Hs1.
      split; [exists true, [(dc, true)]; split; [reflexivity | exact Hok0] |].
      split; [intros [H | []]; discriminate |].
      repeat split. eexists. split; reflexivity.
    + (* the finalising save raised *)
      rewrite onFailure_run. cbv zeta. cbn [fst snd world testResult history saves service].
      rewrite Hh1, Hs1.
      set (df := stamped failed (fst (date_now w2)) dc).
      destruct (db_save df (snd (date_now w2))) as [[u' | e'] w3] eqn:Es';
        cbn [fst snd world testResult history saves service].
      * split; [exists true, [(dc, false); (df, true)]; split; [reflexivity | exact Hok0] |].
        split; [intros [H | [H | []]]; discriminate |].
        split; [reflexivity |]. split; [eexists; split; reflexivity |].
        split.
        -- exists true, [(doc0, true); (dc, false)]. split; [reflexivity |].
           split; [intros _; eexists; reflexivity | discriminate].
        -- right. split; [reflexivity |]. exists dc, true. split; reflexivity.
      * split; [exists true, [(dc, false); (df, false)]; split; [reflexivity | exact Hok0] |].
        split; [intros [H | [H | []]]; discriminate |].
        split; [reflexivity |]. split; [eexists; split; reflexivity |].
        split.
        -- exists false, [(doc0, true); (dc, false)]. split; [reflexivity |].
           split; [discriminate |]. intros _. exists (snd (date_now w2)). rewrite Es'.
           reflexivity.
        -- right. split; [reflexivity |]. exists dc, false. split; reflexivity.
  - (* the browser phase threw *)
    rewrite onFailure_run. cbv zeta. rewrite Hh1, Hs1.
    set (df := stamped failed (fst (date_now (world ex1))) (testResult ex1)).
    destruct (db_save df (snd (date_now (world ex1)))) as [[u' | e'] w3] eqn:Es';
      cbn [fst snd world testResult history saves service].
    + split; [exists ok0, [(df, true)]; split; [reflexivity | exact Hok0] |].
      split; [intros [H | []]; discriminate |].
      split; [reflexivity |]. split; [eexists; split; reflexivity |].
      split; [| left; split; [reflexivity | eexists; eexists; reflexivity]].
      exists true, [(doc0, ok0)]. split; [reflexivity |].
      split; [intros _; eexists; reflexivity | discriminate].
    + split; [exists ok0, [(df, false)]; split; [reflexivity | exact Hok0] |].
      split; [intros [H | []]; discriminate |].
      split; [reflexivity |]. split; [eexists; split; reflexivity |].
      split; [| left; split; [reflexivity | eexists; eexists; reflexivity]].
      exists false, [(doc0, ok0)]. split; [reflexivity |].
      split; [discriminate |]. intros _. exists (snd (date_now (world ex1))). rewrite Es'.
      reflexivity.
Qed.

(** The lifecycle on a run that completes, and on one whose second page is
    validated after the first could not be reached. *)
Example two_page_run_completes :
  exists d,
    fst (runTest Fixture.twoPages (Fixture.worldOf Fixture.fullShop []) Fixture.idle) = Ok d
    /\ TestResult.status d = completed
    /\ map passed (productPageTests (TestResult.results d)) = [false; true]
    /\ history (snd (runTest Fixture.twoPages (Fixture.worldOf Fixture.fullShop [])
                       Fixture.idle)) = [completed].
Proof. eexists. split; [vm_compute; reflexivity |]. repeat split. Qed.

(* ===================================================================== *)
(** * The other strategies of the locator *)
(* ===================================================================== *)

Section StrategyFacts.
Context {W : Type} {PW : Playwright W} {RT : Runtime W}.
Import JsString.

Lemma firstSome_find {X R} (elig : X -> bool) (found : X -> R) (xs : list X) :
  firstSome (fun x => if elig x then Some (found x) else None) xs
  = option_map found (find elig xs).
Proof. induction xs as [| x xs IH]; simpl; [reflexivity |]. destruct (elig x); auto. Qed.

Lemma firstSome_ext {X R} (f g : X -> option R) (xs : list X) :
  (forall x, In x xs -> f x = g x) -> firstSome f xs = firstSome g xs.
Proof.
  induction xs as [| x xs IH]; intros H; simpl; [reflexivity |].
  rewrite (H x (or_introl eq_refl)). destruct (g x); [reflexivity |].
  apply IH. intros y Hy. apply H. right; exact Hy.
Qed.

(** A loop of attempts, each in its own swallowing [try], on a page where
    every attempt answers: the first answer that is not [null]. *)
Lemma attempts_first_answer {X R} (I : W -> Prop) (xs : list X)
    (attempt : X -> M W (option R)) (val : X -> option R) :
  (forall x, In x xs -> hoare I (attempt x) (fun o w => o = Ok (val x) /\ I w)) ->
  hoare I (for_first xs (fun x => try_catch (attempt x) (fun _ => ret None)))
    (fun o w => o = Ok (firstSome val xs) /\ I w).
Proof.
  induction xs as [| x xs IH]; intros H; simpl.
  - apply hoare_ret. auto.
  - eapply hoare_bind with (R := fun r w => r = val x /\ I w).
    + eapply hoare_try with (R := fun _ _ => False); [| intros e w []].
      eapply hoare_weaken; [apply (H x); left; reflexivity | auto |].
      intros [a | e] w [E Hw]; [inversion E; auto | discriminate].
    + intros r w [-> Hw]. destruct (val x); simpl; [auto |].
      apply IH; [| exact Hw]. intros y Hy. apply H. right; exact Hy.
Qed.

(** The same for a loop with no [try] around its body. *)
Lemma candidates_first_answer {X R} (I : W -> Prop) (xs : list X)
    (body : X -> M W (option R)) (val : X -> option R) :
  (forall x, In x xs -> hoare I (body x) (fun o w => o = Ok (val x) /\ I w)) ->
  hoare I (for_first xs body) (fun o w => o = Ok (firstSome val xs) /\ I w).
Proof.
  induction xs as [| x xs IH]; intros H; simpl.
  - apply hoare_ret. auto.
  - eapply hoare_bind with (R := fun r w => r = val x /\ I w).
    + eapply hoare_weaken; [apply (H x); left; reflexivity | auto |].
      intros [a | e] w [E Hw]; [inversion E; auto | discriminate].
    + intros r w [-> Hw]. destruct (val x); simpl; [auto |].
      apply IH; [| exact Hw]. intros y Hy. apply H. right; exact Hy.
Qed.

Lemma hoare_answer {A} (I : W -> Prop) (m : M W A) (v : outcome A) (w : W) :
  hoare I m (fun o w' => o = v /\ I w') -> I w ->
  exists w', m w = (v, w') /\ I w'.
Proof.
  intros H Hw. destruct (H w Hw) as [E Hw']. exists (snd (m w)). split; [| exact Hw'].
  rewrite (run_eq m w) at 1. rewrite E. reflexivity.
Qed.

Lemma hoare_of_run {A} (I : W -> Prop) (m : M W A) (v : outcome A) :
  (forall w, I w -> exists w', m w = (v, w') /\ I w') ->
  hoare I m (fun o w' => o = v /\ I w').
Proof. intros H w Hw. destruct (H w Hw) as (w' & E & Hw'). rewrite E. auto. Qed.

(** ** Strategy 2 *)

Lemma textAttempt_on_snapshot (I : W -> Prop) page d pattern :
  readsText I page d ->
  hoare I (textAttempt page pattern)
    (fun o w => o = Ok (if textEligible d pattern then Some (textFound page d pattern) else None)
                /\ I w).
Proof.
  intros [Hc Hf] w Hw. unfold textAttempt, textEligible, textFound.
  destruct (answers_run _ _ _ _ (Hc pattern) Hw) as [E1 I1].
  rewrite (bind_ok _ _ _ _ _ E1).
  destruct (0 <? text_count d pattern) eqn:En; simpl; [| auto].
  apply Nat.ltb_lt in En. destruct (Hf pattern En) as [Hv Ht].
  destruct (answers_run _ _ _ _ Hv I1) as [E2 I2]. rewrite (bind_ok _ _ _ _ _ E2).
  destruct (text_visible d pattern); simpl; [| auto].
  destruct (answers_run _ _ _ _ Ht I2) as [E3 I3]. rewrite (bind_ok _ _ _ _ _ E3).
  simpl. auto.
Qed.

Lemma textStrategy_on_snapshot (I : W -> Prop) page cfg d :
  readsText I page d ->
  hoare I (textStrategy page cfg)
    (fun o w => o = Ok (option_map (textFound page d) (find (textEligible d) (textPatterns cfg)))
                /\ I w).
Proof.
  intros Hr. unfold textStrategy. rewrite <- firstSome_find.
  apply attempts_first_answer. intros p _. apply textAttempt_on_snapshot, Hr.
Qed.

(** ** Strategy 3 *)

Lemma attributeCandidate_on_snapshot (I : W -> Prop) page d sel sel' h :
  readsElements I page d -> In h (snap_query d sel') ->
  hoare I (attributeCandidate sel h)
    (fun o w => o = Ok (if attributeEligible d h then Some (attributeFound d (sel, h)) else None)
                /\ I w).
Proof.
  intros [_ Hh] Hin w Hw. destruct (Hh sel' h Hin) as (Hv & Ht).
  unfold attributeCandidate, attributeEligible, attributeFound, ownText.
  destruct (answers_run _ _ _ _ Hv Hw) as [E1 I1]. rewrite (bind_ok _ _ _ _ _ E1).
  destruct (snap_visible d h); simpl; [| auto].
  destruct (answers_run _ _ _ _ Ht I1) as [E2 I2]. rewrite (bind_ok _ _ _ _ _ E2).
  destruct (0 <? _); simpl; auto.
Qed.

Lemma attributeAttempt_on_snapshot (I : W -> Prop) page d attr :
  readsElements I page d ->
  hoare I (attributeAttempt page attr)
    (fun o w => o = Ok (option_map (fun h => attributeFound d (attributeSelector attr, h))
                          (find (attributeEligible d) (snap_query d (attributeSelector attr))))
                /\ I w).
Proof.
  intros Hr. unfold attributeAttempt.
  eapply hoare_bind
    with (R := fun found w => found = snap_query d (attributeSelector attr) /\ I w).
  - eapply hoare_weaken; [apply (proj1 Hr) | auto |].
    intros [a | e] w [E Hw]; [inversion E; auto | discriminate].
  - intros found w [-> Hw]. rewrite <- firstSome_find.
    apply candidates_first_answer; [| exact Hw].
    intros h Hin. eapply attributeCandidate_on_snapshot; eauto.
Qed.

Lemma firstSome_candidates d (sels : list string) (elig : Handle -> bool)
    (found : string * Handle -> LocateResult.t) :
  firstSome (fun sel => option_map (fun h => found (sel, h)) (find elig (snap_query d sel))) sels
  = option_map found (find (fun c => elig (snd c)) (candidates d sels)).
Proof.
  unfold candidates. induction sels as [| sel sels IH]; simpl; [reflexivity |].
  rewrite find_app, find_map_pair.
  destruct (find elig (snap_query d sel)); simpl; [reflexivity | exact IH].
Qed.

Lemma firstSome_map {X Y R} (g : X -> Y) (val : Y -> option R) (xs : list X) :
  firstSome (fun x => val (g x)) xs = firstSome val (map g xs).
Proof. induction xs as [| x xs IH]; simpl; [reflexivity |]. destruct (val (g x)); auto. Qed.

Lemma attributeStrategy_on_snapshot (I : W -> Prop) page cfg d :
  readsElements I page d ->
  hoare I (attributeStrategy page cfg)
    (fun o w => o = Ok (option_map (attributeFound d) (firstByAttribute d (attributes cfg)))
                /\ I w).
Proof.
  intros Hr. unfold attributeStrategy, firstByAttribute.
  rewrite <- firstSome_candidates, <- firstSome_map.
  apply attempts_first_answer. intros attr _. apply attributeAttempt_on_snapshot, Hr.
Qed.

Lemma reads_elements (I : W -> Prop) page d : reads I page d -> readsElements I page d.
Proof.
  intros [Hq Hh]. split; [exact Hq |]. intros sel h Hin.
  destruct (Hh sel h Hin) as (Hv & Ht & _). auto.
Qed.

(** ** Strategy 4 *)

Lemma scanNode_accepts patterns node :
  scanNode patterns node
  = if scanAccepts patterns node then Some (scanText node, synthSelector node) else None.
Proof.
  unfold scanNode, scanAccepts, hasBox, styledVisible, scanText.
  destruct (_ || _); [reflexivity |]. destruct (_ || _); [reflexivity |]. simpl.
  destruct (0 <? _); [| reflexivity]. simpl.
  destruct (find _ patterns) as [p |] eqn:E.
  - apply find_some in E.
    assert (H : existsb (matchesPattern
                  (trim (orEmpty (or (or (node_textContent node) (node_innerText node))
                                    (Some ""))))) patterns = true)
      by (apply existsb_exists; eauto).
    rewrite H. reflexivity.
  - destruct (existsb _ patterns) eqn:H; [| reflexivity].
    apply existsb_exists in H. destruct H as (p & Hp & Hm).
    rewrite (find_none _ _ E p Hp) in Hm. discriminate.
Qed.

Lemma scanDocument_find patterns nodes :
  scanDocument patterns nodes
  = option_map (fun n => (scanText n, synthSelector n)) (find (scanAccepts patterns) nodes).
Proof.
  induction nodes as [| n ns IH]; simpl; [reflexivity |].
  rewrite scanNode_accepts. destruct (scanAccepts patterns n); simpl; [reflexivity | exact IH].
Qed.

Lemma contentStrategy_on_document (I : W -> Prop) page cfg nodes
    (resolved : string -> outcome (option Handle)) :
  contentPatterns cfg <> [] ->
  answers I (page_document page) (Ok nodes) ->
  (forall sel, answers I (page_query page sel) (resolved sel)) ->
  hoare I (contentStrategy page cfg)
    (fun o w => o = Ok (match find (scanAccepts (contentPatterns cfg)) nodes with
                        | Some n => contentFound resolved n
                        | None => None
                        end) /\ I w).
Proof.
  intros Hne Hd Hq. apply hoare_of_run. intros w Hw. unfold contentStrategy.
  assert (Hlen : (0 <? List.length (contentPatterns cfg)) = true)
    by (destruct (contentPatterns cfg); [contradiction | reflexivity]).
  rewrite Hlen. unfold contentAttempt.
  destruct (answers_run _ _ _ _ Hd Hw) as [E1 I1].
  unfold try_catch at 1. rewrite (bind_ok _ _ _ _ _ E1), scanDocument_find.
  destruct (find (scanAccepts (contentPatterns cfg)) nodes) as [n |]; simpl; [| eauto].
  unfold contentFound.
  destruct (answers_run _ _ _ _ (Hq (synthSelector n)) I1) as [E2 I2].
  rewrite bind_run. unfold try_catch. rewrite E2.
  destruct (resolved (synthSelector n)) as [[h |] | e]; simpl; eauto.
Qed.

(** ** The tags *)

Lemma attributeStrategy_tagged page cfg :
  hoare (fun _ => True) (attributeStrategy page cfg)
    (fun o _ => forall r, o = Ok (Some r) -> tagged page cfg r).
Proof.
  unfold attributeStrategy. apply hoare_for_first; [| intros; discriminate].
  intros attr Ha. eapply hoare_try with (R := fun _ _ => True);
    [| intros e; apply hoare_ret; auto].
  unfold attributeAttempt. eapply hoare_bind with (R := fun _ _ => True).
  - intros w _. destruct (fst _); exact I.
  - intros found. apply hoare_for_first; [| intros w _; exact I].
    intros h _ w _. unfold attributeCandidate, bind, ret.
    destruct (isVisible _ w) as [[[] | ?] w1]; simpl; auto.
    destruct (textContent _ w1) as [[t | ?] w2]; simpl; auto.
    destruct (0 <? _) eqn:Elen; simpl; auto.
    intros r E; inversion E; subst. apply Nat.ltb_lt in Elen.
    right; right; right; left. simpl. repeat split; eauto.
Qed.

Lemma contentStrategy_tagged page cfg :
  hoare (fun _ => True) (contentStrategy page cfg)
    (fun o _ => forall r, o = Ok (Some r) -> tagged page cfg r).
Proof.
  unfold contentStrategy. destruct (0 <? _) eqn:Epat; [| apply hoare_ret; intros; discriminate].
  assert (Hne : contentPatterns cfg <> [])
    by (destruct (contentPatterns cfg); [discriminate | discriminate]).
  eapply hoare_try with (R := fun _ _ => True); [| intros e; apply hoare_ret; intros; discriminate].
  intros w _. unfold contentAttempt. rewrite bind_run.
  destruct (page_document page w) as [[nodes | ?] w1]; simpl; [| exact I].
  rewrite scanDocument_find.
  destruct (find _ nodes) as [n |] eqn:Escan; simpl; [| intros; discriminate].
  rewrite bind_run. unfold try_catch.
  destruct (page_query page _ w1) as [[[h |] | ?] w2]; simpl; try (intros; discriminate).
  intros r E; inversion E; subst. apply find_some in Escan. destruct Escan as [_ Hacc].
  unfold scanAccepts in Hacc. apply andb_prop in Hacc. destruct Hacc as [Hacc Hm].
  apply andb_prop in Hacc. destruct Hacc as [_ Hlen]. apply Nat.ltb_lt in Hlen.
  right; right; right; right. simpl. repeat split; eauto.
Qed.

Lemma locator_tagged page cfg :
  hoare (fun _ => True) (findElementWithMultipleStrategies page cfg)
    (fun o _ => forall r, o = Ok (Some r) -> tagged page cfg r).
Proof.
  unfold findElementWithMultipleStrategies.
  repeat apply orElse_result.
  - eapply hoare_weaken; [apply cssStrategy_result | auto |]. intros o w H r E.
    destruct (H r E) as (Hsel & Hh & _ & Hlen & Htag).
    destruct (0 <? List.length (contentPatterns cfg)) eqn:Epat.
    + destruct Htag as [Htag Hm]. right; left.
      repeat split; auto. destruct (contentPatterns cfg); discriminate.
    + left. repeat split; auto. destruct (contentPatterns cfg); [reflexivity | discriminate].
  - eapply hoare_weaken; [apply textStrategy_result | auto |]. intros o w H r E.
    right; right; left. apply (H r E).
  - apply attributeStrategy_tagged.
  - apply contentStrategy_tagged.
Qed.

End StrategyFacts.

(** ** The deterministic browser answers text lookups from its page *)

Section SimTextFacts.
Import Sim SimPage.

Lemma shows_count_find pattern (d : list Node) :
  0 < List.length (filter (shows pattern) d) ->
  exists n, find (shows pattern) d = Some n /\ In n d.
Proof.
  induction d as [| a d IH]; simpl; [lia |].
  destruct (shows pattern a).
  - intros _. exists a. auto.
  - intros H. destruct (IH H) as (n & E & Hn). exists n. auto.
Qed.

Lemma sim_readsText d page :
  attached d = true -> readsText (showing d) page (SimText.snapshot d).
Proof.
  intros Ha. split.
  - intros pattern w Hw. simpl. unfold showing in Hw. rewrite Hw. auto.
  - intros pattern Hc. simpl in Hc. destruct (shows_count_find pattern d Hc) as (n & E & Hn).
    assert (Hd : detached n = false).
    { unfold attached in Ha. rewrite forallb_forall in Ha. specialize (Ha n Hn).
      destruct (detached n); [discriminate | reflexivity]. }
    split; intros w Hw; pose proof Hw as Hw0; unfold showing in Hw0;
      simpl; unfold onNode, resolve; rewrite Hw0, E, Hd; simpl; auto.
Qed.

Lemma sim_document d page :
  answers (showing d) (page_document page) (Ok (map asDomNode d)).
Proof. intros w Hw. simpl. unfold showing in Hw. rewrite Hw. auto. Qed.

Lemma sim_query d page sel :
  answers (showing d) (page_query page sel) (Ok (option_map handle (find (selects sel) d))).
Proof. intros w Hw. simpl. unfold showing in Hw. rewrite Hw. auto. Qed.

End SimTextFacts.

(* ===================================================================== *)
(** * Further properties of the locator *)
(* ===================================================================== *)

(** X1. Whatever the page does, a result of the locator carries one of
    five strategy tags, and the tag tells where the result comes from:
    [css] only without content patterns and [css-pattern] only with them,
    both under one of the configured selectors; [text] under the selector
    ["text:" + pattern] of a configured text pattern, aimed at the first
    match of that pattern; [attribute] under the selector made of a
    configured attribute; [content-search] only with content patterns.
    Except under [text], the element is a handle and the text is not empty;
    under [css-pattern] and [content-search] the text matches a content
    pattern. *)
Theorem locate_result_tag_tells_origin {W : Type} {PW : Playwright W} {RT : Runtime W}
    (page : Page) (cfg : ElementConfig) (w : W) (r : LocateResult.t) (w' : W) :
  findElementWithMultipleStrategies page cfg w = (Ok (Some r), w') ->
  tagged page cfg r
  /\ In (LocateResult.strategy r) ["css"; "css-pattern"; "text"; "attribute"; "content-search"].
Proof.
  intros E.
  pose proof (hoare_run _ _ _ _ _ _ (locator_tagged page cfg) I E r eq_refl) as Ht.
  split; [exact Ht |].
  destruct Ht as [H | [H | [H | [H | H]]]]; destruct H as [-> _]; simpl; auto 6.
Qed.

(** X1 on the page with two price tags. *)
Lemma locate_result_tag_tells_origin_witness :
  exists r w',
    findElementWithMultipleStrategies 1 Config.priceConfig
      (LocatorFixture.loaded LocatorFixture.prices) = (Ok (Some r), w')
    /\ LocateResult.strategy r = "css-pattern"
    /\ tagged 1 Config.priceConfig r.
Proof.
  assert (E : findElementWithMultipleStrategies 1 Config.priceConfig
                (LocatorFixture.loaded LocatorFixture.prices)
              = (Ok (Some (LocateResult.mk (Elem 2) "$19.99" ".money" "css-pattern")),
                 LocatorFixture.loaded LocatorFixture.prices))
    by (vm_compute; reflexivity).
  eexists. eexists. split; [exact E |]. split; [reflexivity |].
  exact (proj1 (locate_result_tag_tells_origin 1 Config.priceConfig _ _ _ E)).
Defined.

(** X2. Strategy 2 on a page that answers text lookups from a snapshot: it
    returns the first configured text pattern, in list order, that occurs
    on the page and whose first occurrence is visible; a pattern whose first
    occurrence is hidden is passed over, whatever its later occurrences are.
    The result is aimed at that first occurrence, carries its trimmed text
    content (the empty string when it has none), the selector
    ["text:" + pattern] and the tag [text]. It is the result of the locator
    whenever strategy 1 has found nothing. *)
Theorem text_strategy_takes_first_visible_match
    {W : Type} {PW : Playwright W} {RT : Runtime W}
    (I : W -> Prop) (page : Page) (cfg : ElementConfig) (d : TextSnapshot) :
  readsText I page d ->
  (forall w, I w ->
     exists w', textStrategy page cfg w
                = (Ok (option_map (textFound page d)
                         (find (textEligible d) (textPatterns cfg))), w')
                /\ I w')
  /\ (forall w w1 pattern,
        cssStrategy page cfg w = (Ok None, w1) -> I w1 ->
        find (textEligible d) (textPatterns cfg) = Some pattern ->
        exists w', findElementWithMultipleStrategies page cfg w
                   = (Ok (Some (LocateResult.mk (FirstByText page pattern)
                                  (JsString.orEmpty
                                     (JsString.or
                                        (option_map JsString.trim (text_content d pattern))
                                        (Some "")))
                                  ("text:" +++ pattern) "text")), w')
                   /\ I w').
Proof.
  intros Hr. split.
  - intros w Hw. apply hoare_answer; [| exact Hw]. apply textStrategy_on_snapshot, Hr.
  - intros w w1 pattern Ecss Hw1 Efind.
    destruct (hoare_answer I _ _ w1 (textStrategy_on_snapshot I page cfg d Hr) Hw1)
      as (w' & E & Hw').
    rewrite Efind in E. exists w'. split; [| exact Hw'].
    unfold findElementWithMultipleStrategies. unfold orElse at 1.
    rewrite (bind_ok _ _ _ _ _ Ecss). unfold orElse at 1.
    rewrite (bind_ok _ _ _ _ _ E). reflexivity.
Qed.

(** X2 on a page with a hidden "Buy Now" label and a visible "Add" link. *)
Lemma text_strategy_takes_first_visible_match_witness :
  readsText (SimPage.showing StrategyFixture.labels) 1
    (SimText.snapshot StrategyFixture.labels)
  /\ exists w',
       findElementWithMultipleStrategies 1 Config.cartConfig
         (LocatorFixture.loaded StrategyFixture.labels)
       = (Ok (Some (LocateResult.mk (FirstByText 1 "Add") "Add one" "text:Add" "text")), w').
Proof.
  assert (Hr : readsText (SimPage.showing StrategyFixture.labels) 1
                 (SimText.snapshot StrategyFixture.labels))
    by (apply sim_readsText; reflexivity).
  split; [exact Hr |].
  assert (Ecss : cssStrategy 1 Config.cartConfig (LocatorFixture.loaded StrategyFixture.labels)
                 = (Ok None, LocatorFixture.loaded StrategyFixture.labels))
    by (vm_compute; reflexivity).
  assert (Ef : find (textEligible (SimText.snapshot StrategyFixture.labels))
                 (textPatterns Config.cartConfig) = Some "Add")
    by (vm_compute; reflexivity).
  destruct (proj2 (text_strategy_takes_first_visible_match
                     (SimPage.showing StrategyFixture.labels) 1 Config.cartConfig
                     (SimText.snapshot StrategyFixture.labels) Hr)
              _ _ _ Ecss eq_refl Ef) as (w' & E & _).
  exists w'. exact E.
Defined.

(** X3. Strategy 3 on a page that answers from a snapshot: it returns the
    first element, in attribute-list order and within one attribute in
    document order, that is visible and whose trimmed text content is not
    empty. The rendered text is not asked for and the content patterns are
    not consulted: the result, tagged [attribute], need not match any of
    them. It is the result of the locator whenever strategies 1 and 2 have
    found nothing. *)
Theorem attribute_strategy_ignores_content_patterns
    {W : Type} {PW : Playwright W} {RT : Runtime W}
    (I : W -> Prop) (page : Page) (cfg : ElementConfig) (d : Snapshot) :
  readsElements I page d ->
  (forall w, I w ->
     exists w', attributeStrategy page cfg w
                = (Ok (option_map (attributeFound d) (firstByAttribute d (attributes cfg))), w')
                /\ I w')
  /\ (forall w w1 w2 sel h,
        cssStrategy page cfg w = (Ok None, w1) ->
        textStrategy page cfg w1 = (Ok None, w2) -> I w2 ->
        firstByAttribute d (attributes cfg) = Some (sel, h) ->
        (exists w', findElementWithMultipleStrategies page cfg w
                    = (Ok (Some (LocateResult.mk (Elem h) (ownText d h) sel "attribute")), w')
                    /\ I w')
        /\ snap_visible d h = true
        /\ ownText d h <> ""
        /\ exists before after,
             candidates d (map attributeSelector (attributes cfg)) = before ++ (sel, h) :: after
             /\ forall c, In c before -> attributeEligible d (snd c) = false).
Proof.
  intros Hr. split.
  - intros w Hw. apply hoare_answer; [| exact Hw]. apply attributeStrategy_on_snapshot, Hr.
  - intros w w1 w2 sel h Ecss Etext Hw2 Efind. split; [| split; [| split]].
    + destruct (hoare_answer I _ _ w2 (attributeStrategy_on_snapshot I page cfg d Hr) Hw2)
        as (w' & E & Hw').
      rewrite Efind in E. exists w'. split; [| exact Hw'].
      unfold findElementWithMultipleStrategies. unfold orElse at 1.
      rewrite (bind_ok _ _ _ _ _ Ecss). unfold orElse at 1.
      rewrite (bind_ok _ _ _ _ _ Etext). unfold orElse at 1.
      rewrite (bind_ok _ _ _ _ _ E). reflexivity.
    + apply find_first in Efind. destruct Efind as [He _]. simpl in He.
      unfold attributeEligible in He. apply andb_prop in He. tauto.
    + apply find_first in Efind. destruct Efind as [He _]. simpl in He.
      unfold attributeEligible in He. apply andb_prop in He. destruct He as [_ Hl].
      apply Nat.ltb_lt in Hl. intros E0. rewrite E0 in Hl. simpl in Hl. lia.
    + apply find_first in Efind. destruct Efind as [_ Hrest]. exact Hrest.
Qed.

(** X3 on a page with two elements under the price test id, the first
    blank and the second without an amount. *)
Lemma attribute_strategy_ignores_content_patterns_witness :
  readsElements (SimPage.showing StrategyFixture.testIds) 1
    (SimPage.snapshot StrategyFixture.testIds)
  /\ (exists w',
        findElementWithMultipleStrategies 1 Config.priceConfig
          (LocatorFixture.loaded StrategyFixture.testIds)
        = (Ok (Some (LocateResult.mk (Elem 2) "Call us"
                       (attributeSelector (mkAttribute "data-testid" "price")) "attribute")),
           w'))
  /\ existsb (matchesPattern "Call us") (contentPatterns Config.priceConfig) = false.
Proof.
  assert (Hr : readsElements (SimPage.showing StrategyFixture.testIds) 1
                 (SimPage.snapshot StrategyFixture.testIds))
    by (apply reads_elements, sim_reads; reflexivity).
  split; [exact Hr |]. split; [| vm_compute; reflexivity].
  assert (Ecss : cssStrategy 1 Config.priceConfig
                   (LocatorFixture.loaded StrategyFixture.testIds)
                 = (Ok None, LocatorFixture.loaded StrategyFixture.testIds))
    by (vm_compute; reflexivity).
  assert (Etext : textStrategy 1 Config.priceConfig
                    (LocatorFixture.loaded StrategyFixture.testIds)
                  = (Ok None, LocatorFixture.loaded StrategyFixture.testIds))
    by (vm_compute; reflexivity).
  assert (Ef : firstByAttribute (SimPage.snapshot StrategyFixture.testIds)
                 (attributes Config.priceConfig)
               = Some (attributeSelector (mkAttribute "data-testid" "price"), 2))
    by (vm_compute; reflexivity).
  destruct (proj2 (attribute_strategy_ignores_content_patterns
                     (SimPage.showing StrategyFixture.testIds) 1 Config.priceConfig
                     (SimPage.snapshot StrategyFixture.testIds) Hr)
              _ _ _ _ _ Ecss Etext eq_refl Ef) as [(w' & E & _) _].
  exists w'. exact E.
Defined.

(** X4. The in-page scan of strategy 4 settles on the first node, in
    document order, that has a box of non-zero width and height, is not
    hidden by its own [display] or [visibility], has non-empty trimmed text
    (its [textContent], else its [innerText]) and whose text matches a
    content pattern; it answers with that text and the selector made up for
    that node. Every node before it fails one of these tests. *)
Theorem document_scan_takes_first_matching_node {W : Type} {RT : Runtime W}
    (patterns : list Pattern) (nodes : list DomNode) :
  scanDocument patterns nodes
  = option_map (fun n => (scanText n, synthSelector n)) (find (scanAccepts patterns) nodes)
  /\ (forall t sel,
        scanDocument patterns nodes = Some (t, sel) ->
        exists before n after,
          nodes = before ++ n :: after
          /\ t = scanText n /\ sel = synthSelector n
          /\ hasBox n = true /\ styledVisible n = true
          /\ t <> "" /\ existsb (matchesPattern t) patterns = true
          /\ forall m, In m before -> scanAccepts patterns m = false)
  /\ (scanDocument patterns nodes = None ->
        forall n, In n nodes -> scanAccepts patterns n = false).
Proof.
  split; [apply scanDocument_find |]. split.
  - intros t sel E. rewrite scanDocument_find in E.
    destruct (find (scanAccepts patterns) nodes) as [n |] eqn:Ef; [| discriminate].
    simpl in E. inversion E; subst. apply find_first in Ef.
    destruct Ef as (Hacc & before & after & -> & Hb).
    exists before, n, after. unfold scanAccepts in Hacc.
    apply andb_prop in Hacc. destruct Hacc as [Hacc Hm].
    apply andb_prop in Hacc. destruct Hacc as [Hacc Hl].
    apply andb_prop in Hacc. destruct Hacc as [Hbox Hst].
    apply Nat.ltb_lt in Hl. repeat split; auto.
    intros E0. rewrite E0 in Hl. simpl in Hl. lia.
  - intros E n Hn. rewrite scanDocument_find in E.
    destruct (find (scanAccepts patterns) nodes) as [m |] eqn:Ef; [discriminate |].
    apply (find_none _ _ Ef n Hn).
Qed.

(** X5. Strategy 4 on a page whose document and selector lookups answer:
    without content patterns it returns [null] and leaves the page alone;
    with them, the element it returns is whatever [page.$] resolves the
    made-up selector of the scanned node to (which need not be that node),
    paired with the text of the scanned node and tagged [content-search];
    when the selector resolves to nothing, or resolving it throws, the
    strategy returns [null]. *)
Theorem content_strategy_resolves_made_up_selector
    {W : Type} {PW : Playwright W} {RT : Runtime W}
    (I : W -> Prop) (page : Page) (cfg : ElementConfig) (nodes : list DomNode)
    (resolved : string -> outcome (option Handle)) :
  answers I (page_document page) (Ok nodes) ->
  (forall sel, answers I (page_query page sel) (resolved sel)) ->
  (contentPatterns cfg = [] -> forall w, contentStrategy page cfg w = (Ok None, w))
  /\ (contentPatterns cfg <> [] -> forall w, I w ->
        exists w',
          contentStrategy page cfg w
          = (Ok match find (scanAccepts (contentPatterns cfg)) nodes with
                | Some n =>
                    match resolved (synthSelector n) with
                    | Ok (Some h) =>
                        Some (LocateResult.mk (Elem h) (scanText n) (synthSelector n)
                                "content-search")
                    | _ => None
                    end
                | None => None
                end, w')
          /\ I w').
Proof.
  intros Hd Hq. split.
  - intros E w. unfold contentStrategy. rewrite E. reflexivity.
  - intros Hne w Hw. apply hoare_answer; [| exact Hw].
    apply (contentStrategy_on_document I page cfg nodes resolved Hne Hd Hq).
Qed.

(** X5 on a page where the made-up selector of the price ([div]) finds the
    banner before it. *)
Lemma content_strategy_resolves_made_up_selector_witness :
  let d := StrategyFixture.loose in
  answers (SimPage.showing d) (page_document 1) (Ok (map Sim.asDomNode d))
  /\ (forall sel, answers (SimPage.showing d) (page_query 1 sel)
                    (Ok (option_map Sim.handle (find (Sim.selects sel) d))))
  /\ exists w',
       contentStrategy 1 Config.priceConfig (LocatorFixture.loaded d)
       = (Ok (Some (LocateResult.mk (Elem 1) "$19.99" "div" "content-search")), w').
Proof.
  intros d.
  split; [apply sim_document |]. split; [intros sel; apply sim_query |].
  assert (Hne : contentPatterns Config.priceConfig <> []) by (simpl; discriminate).
  destruct (proj2 (content_strategy_resolves_made_up_selector
                     (SimPage.showing d) 1 Config.priceConfig (map Sim.asDomNode d)
                     (fun sel => Ok (option_map Sim.handle (find (Sim.selects sel) d)))
                     (sim_document d 1) (fun sel => sim_query d 1 sel))
              Hne (LocatorFixture.loaded d) eq_refl) as (w' & E & _).
  exists w'. rewrite E. vm_compute. reflexivity.
Defined.

(* ===================================================================== *)
(** * The validator: what its result records *)
(* ===================================================================== *)

Section ResultFacts.
Context {W : Type} {PW : Playwright W} {RT : Runtime W}.
Import JsString.

Lemma locate_tagged page cfg (w : W) found w' :
  findElementWithMultipleStrategies page cfg w = (Ok found, w') ->
  forall l, found = Some l -> tagged page cfg l.
Proof.
  intros E l ->. exact (hoare_run _ _ _ _ _ _ (locator_tagged page cfg) I E l eq_refl).
Qed.

Lemma variantOutcome_sourced page (w : W) n sel strat :
  fst (variantOutcome page w) = VariantsFound n sel strat ->
  (sel = "container-based" /\ strat = "container")
  \/ exists l, tagged page Config.variantConfig l
               /\ sel = LocateResult.selector l /\ strat = LocateResult.strategy l.
Proof.
  unfold variantOutcome.
  destruct (page_queryAll page Config.variantContainers w) as [[cs | e] w1]; simpl;
    [| discriminate].
  destruct (containerScan cs w1) as [[[os |] | e] w2]; simpl; try discriminate.
  - intros E; inversion E; subst. left; auto.
  - destruct (findElementWithMultipleStrategies page Config.variantConfig w2)
      as [[[l |] | e] w3] eqn:El; simpl; try discriminate.
    destruct (page_queryAll page (LocateResult.selector l) w3) as [[all | e] w4];
      simpl; [| discriminate].
    destruct (0 <? List.length all); simpl; [| discriminate].
    intros E; inversion E; subst. right. exists l.
    split; [| auto]. eapply locate_tagged; eauto.
Qed.

Lemma inspect_sourced page (w : W) (r : PageResult) :
  exists f w', inspect page (w, r) = (Ok tt, (w', assemble f r))
               /\ wellFormed f /\ sourced page f.
Proof.
  unfold inspect.
  destruct (checkTitle_run page w r) as (t & w1 & L1 & E1).
  rewrite (bind_ok _ _ _ _ _ E1).
  destruct (checkPrice_run page w1 (applyTitle t r)) as (p & w2 & L2 & E2).
  rewrite (bind_ok _ _ _ _ _ E2).
  destruct (checkAddToCart_run page w2 (applyPrice p (applyTitle t r)))
    as (c & w3 & L3 & E3).
  assert (E3' : exists c' w3',
             checkAddToCart page (w2, applyPrice p (applyTitle t r))
             = (Ok tt, (w3', applyAddToCart c' (applyPrice p (applyTitle t r))))
             /\ forall l b, c' = Some (l, b) -> c = Some l).
  { destruct c as [l |].
    - destruct E3 as (b & w3' & _ & E3). exists (Some (l, b)), w3'. split; [exact E3 |].
      intros l' b' H; inversion H; reflexivity.
    - exists None, w3. split; [exact E3 | discriminate]. }
  clear E3. destruct E3' as (c' & w3' & E3 & Hc).
  rewrite (bind_ok _ _ _ _ _ E3).
  destruct (checkDescription_run page w3'
              (applyAddToCart c' (applyPrice p (applyTitle t r)))) as (d & w4 & L4 & E4).
  rewrite (bind_ok _ _ _ _ _ E4).
  rewrite (bind_ok _ _ _ _ _ (checkVariants_run page w4 _)).
  destruct (checkAvailability_run page (snd (variantOutcome page w4))
              (applyVariants (fst (variantOutcome page w4))
                 (applyDescription d (applyAddToCart c' (applyPrice p (applyTitle t r))))))
    as (a & w6 & L6 & E6).
  rewrite (bind_ok _ _ _ _ _ E6).
  exists (mkFindings t p c' d (fst (variantOutcome page w4)) a), w6.
  split; [reflexivity |]. split.
  - unfold wellFormed. simpl. apply variantOutcome_wellFormed.
  - unfold sourced.
    cbn [f_title f_price f_cart f_description f_availability f_variants].
    split; [| split; [| split; [| split; [| split]]]].
    + exact (locate_tagged page Config.titleConfig _ _ _ L1).
    + exact (locate_tagged page Config.priceConfig _ _ _ L2).
    + intros l b H. exact (locate_tagged page Config.cartConfig _ _ _ L3 l (Hc l b H)).
    + exact (locate_tagged page Config.descConfig _ _ _ L4).
    + exact (locate_tagged page Config.availConfig _ _ _ L6).
    + apply variantOutcome_sourced.
Qed.

(** Either validation was aborted by an exception and the result is the
    initial one with the message recorded, or the result is assembled from
    sourced findings. *)
Lemma testProductPage_sourced page u settings (w : W) :
  (exists e w', testProductPage page u settings w = (Ok (pushError e (initialResult u)), w'))
  \/ (exists t f w',
        wellFormed f /\ sourced page f
        /\ testProductPage page u settings w
           = (Ok (assemble f (withLoadTime t (initialResult u))), w')).
Proof.
  unfold testProductPage. rewrite bind_run. unfold total.
  destruct (date_now w) as [start w0]. cbn [fst snd].
  rewrite bind_run, scoped_run. unfold validate.
  destruct (navigate_run page u settings start w0 (initialResult u))
    as [(e & w1 & E) | (t & w1 & E)].
  - left. exists e, w1.
    rewrite (try_throw _ _ _ _ _ (bind_throw _ _ _ _ _ E)). reflexivity.
  - right. destruct (inspect_sourced page w1 (withLoadTime t (initialResult u)))
      as (f & w2 & Ei & Hf & Hs).
    exists t, f, w2. split; [exact Hf |]. split; [exact Hs |].
    rewrite (try_ok _ _ _ _ _ (eq_trans (bind_ok _ _ _ _ _ E) Ei)). reflexivity.
Qed.

End ResultFacts.

(** ** The fields of an assembled result *)

Ltac by_findings f :=
  destruct f as [ft fp fc fd fv fa];
  destruct fa, fv, fd, fc as [[? ?] |], fp, ft; reflexivity.

Lemma assemble_title f r :
  title (elements (assemble f r))
  = match f_title f with
    | Some l => TextCheck.mk true (LocateResult.text l) (LocateResult.selector l)
                  (LocateResult.strategy l)
    | None => title (elements r)
    end.
Proof. by_findings f. Qed.

Lemma assemble_price f r :
  price (elements (assemble f r))
  = match f_price f with
    | Some l => TextCheck.mk true (LocateResult.text l) (LocateResult.selector l)
                  (LocateResult.strategy l)
    | None => price (elements r)
    end.
Proof. by_findings f. Qed.

Lemma assemble_addToCart f r :
  addToCart (elements (assemble f r))
  = match f_cart f with
    | Some (l, b) => CartCheck.mk true b (LocateResult.selector l) (LocateResult.strategy l)
    | None => addToCart (elements r)
    end.
Proof. by_findings f. Qed.

Lemma assemble_description f r :
  description (elements (assemble f r))
  = match f_description f with
    | Some l => TextCheck.mk true (JsString.substring0 200 (LocateResult.text l))
                  (LocateResult.selector l) (LocateResult.strategy l)
    | None => description (elements r)
    end.
Proof. by_findings f. Qed.

Lemma assemble_variants f r :
  variants (elements (assemble f r))
  = match f_variants f with
    | VariantsFound n sel strat => VariantCheck.mk true n sel strat
    | _ => variants (elements r)
    end.
Proof. by_findings f. Qed.

Lemma assemble_availability f r :
  availability (elements (assemble f r))
  = match f_availability f with
    | Some l =>
        AvailabilityCheck.mk true (LocateResult.text l)
          (match stockFlag (LocateResult.text l) with
           | Some flag => Some flag
           | None => AvailabilityCheck.inStock (availability (elements r))
           end)
          (LocateResult.selector l) (LocateResult.strategy l)
    | None => availability (elements r)
    end.
Proof. by_findings f. Qed.

Lemma assemble_errors f r :
  errors (assemble f r)
  = match f_variants f with
    | VariantError m => errors r ++ ["Variant detection error: " +++ m]
    | _ => errors r
    end.
Proof. by_findings f. Qed.

Lemma assemble_url f r : url (assemble f r) = url r.
Proof. by_findings f. Qed.

Lemma assemble_performance f r : performance (assemble f r) = performance r.
Proof. by_findings f. Qed.

Lemma nonempty_text (s : string) : 0 < String.length s -> s <> "".
Proof. intros H E. rewrite E in H. simpl in H. lia. Qed.

Section TagFacts.
Context {W : Type} {PW : Playwright W} {RT : Runtime W}.

(** The tags a configuration without text patterns and content patterns
    can give. *)
Lemma tagged_structural page cfg l :
  contentPatterns cfg = [] -> textPatterns cfg = [] -> tagged page cfg l ->
  (LocateResult.strategy l = "css" \/ LocateResult.strategy l = "attribute")
  /\ LocateResult.text l <> "".
Proof.
  intros Hc Ht [H | [H | [H | [H | H]]]].
  - destruct H as (Hs & _ & _ & _ & Hl). auto using nonempty_text.
  - destruct H as (_ & Hne & _). contradiction.
  - destruct H as (_ & p & Hp & _). rewrite Ht in Hp. destruct Hp.
  - destruct H as (Hs & _ & _ & Hl). auto using nonempty_text.
  - destruct H as (_ & Hne & _). contradiction.
Qed.

End TagFacts.

(** X6. Every result of the validator is filed under the URL it was asked
    to validate, has [timeToInteractive] 0 (the field is never measured),
    and holds at most one error. With an error, either validation was
    aborted (the page did not pass, all six element records are in their
    initial shape and the load time is 0), or the error is that of variant
    detection, the message prefixed with "Variant detection error: ", and
    the variants record is in its initial shape. A recorded error does not
    by itself fail the page: the page whose option container has left the
    document passes with the variant error on record. *)
Theorem page_result_holds_at_most_one_error :
  (forall (W : Type) (PW : Playwright W) (RT : Runtime W) page u settings (w : W),
     exists r w',
       testProductPage page u settings w = (Ok r, w')
       /\ url r = u
       /\ timeToInteractive (performance r) = 0%Z
       /\ (errors r = []
           \/ (exists e, errors r = [e]
                 /\ passed r = false
                 /\ elements r = elements (initialResult u)
                 /\ loadTime (performance r) = 0%Z)
           \/ (exists m, errors r = ["Variant detection error: " +++ m]
                 /\ variants (elements r) = VariantCheck.absent)))
  /\ (exists r,
        fst (testProductPage 1 Fixture.shop Fixture.settings
               (Fixture.worldOf [(Fixture.shop, ValidatorFixture.staleContainer)] []))
        = Ok r
        /\ passed r = true
        /\ errors r = ["Variant detection error: Element is not attached to the DOM"]).
Proof.
  split.
  - intros W PW RT page u settings w.
    destruct (testProductPage_sourced page u settings w)
      as [(e & w' & E) | (t & f & w' & _ & _ & E)]; rewrite E.
    + eexists. eexists. split; [reflexivity |]. split; [reflexivity |].
      split; [reflexivity |]. right; left. exists e. repeat split.
    + eexists. eexists. split; [reflexivity |].
      rewrite assemble_url, assemble_performance, assemble_errors, assemble_variants.
      split; [reflexivity |]. split; [reflexivity |].
      destruct (f_variants f) as [| m | n sel strat]; simpl; auto.
      right; right. exists m. auto.
  - eexists. split; [vm_compute; reflexivity |]. split; reflexivity.
Qed.

(** X7. In every result of the validator each element record is either in
    its initial shape, or present with a strategy tag that the
    configuration of that element can give: title and description only
    [css] or [attribute], with a text that is not empty; price only
    [css-pattern], [attribute] or [content-search], with a text that is not
    empty and, unless the tag is [attribute], matches a price pattern;
    add-to-cart only [css], [text] or [attribute]; availability only
    [css-pattern], [text], [attribute] or [content-search]; variants with a
    positive count, tagged [container] under the selector
    ["container-based"], or [css] under a selector of the variant
    configuration, or [attribute] under the selector of one of its
    attributes. *)
Theorem element_records_follow_their_configuration
    {W : Type} {PW : Playwright W} {RT : Runtime W}
    (page : Page) (u : string) (settings : TestSettings) (w : W) :
  exists r w',
    testProductPage page u settings w = (Ok r, w')
    /\ (let c := title (elements r) in
        if TextCheck.present c
        then (TextCheck.strategy c = "css" \/ TextCheck.strategy c = "attribute")
             /\ TextCheck.text c <> ""
        else c = TextCheck.absent)
    /\ (let c := price (elements r) in
        if TextCheck.present c
        then (TextCheck.strategy c = "css-pattern" \/ TextCheck.strategy c = "attribute"
              \/ TextCheck.strategy c = "content-search")
             /\ TextCheck.text c <> ""
             /\ (TextCheck.strategy c <> "attribute" ->
                 existsb (matchesPattern (TextCheck.text c))
                   (contentPatterns Config.priceConfig) = true)
        else c = TextCheck.absent)
    /\ (let c := addToCart (elements r) in
        if CartCheck.present c
        then CartCheck.strategy c = "css" \/ CartCheck.strategy c = "text"
             \/ CartCheck.strategy c = "attribute"
        else c = CartCheck.absent)
    /\ (let c := description (elements r) in
        if TextCheck.present c
        then (TextCheck.strategy c = "css" \/ TextCheck.strategy c = "attribute")
             /\ TextCheck.text c <> ""
        else c = TextCheck.absent)
    /\ (let c := variants (elements r) in
        if VariantCheck.present c
        then 0 < VariantCheck.count c
             /\ ((VariantCheck.strategy c = "container"
                  /\ VariantCheck.selector c = "container-based")
                 \/ (VariantCheck.strategy c = "css"
                     /\ In (VariantCheck.selector c) (selectors Config.variantConfig))
                 \/ (VariantCheck.strategy c = "attribute"
                     /\ exists attr, In attr (attributes Config.variantConfig)
                          /\ VariantCheck.selector c = attributeSelector attr))
        else c = VariantCheck.absent)
    /\ (let c := availability (elements r) in
        if AvailabilityCheck.present c
        then AvailabilityCheck.strategy c = "css-pattern"
             \/ AvailabilityCheck.strategy c = "text"
             \/ AvailabilityCheck.strategy c = "attribute"
             \/ AvailabilityCheck.strategy c = "content-search"
        else c = AvailabilityCheck.absent).
Proof.
  destruct (testProductPage_sourced page u settings w)
    as [(e & w' & E) | (t & f & w' & Hf & Hs & E)]; rewrite E.
  - eexists. eexists. split; [reflexivity |]. simpl. repeat split.
  - eexists. eexists. split; [reflexivity |]. cbv zeta.
    rewrite assemble_title, assemble_price, assemble_addToCart, assemble_description,
      assemble_variants, assemble_availability.
    destruct Hs as (Ht & Hp & Hc & Hd & Ha & Hv).
    split; [| split; [| split; [| split; [| split]]]].
    + destruct (f_title f) as [l |]; simpl; [| reflexivity].
      apply (tagged_structural page Config.titleConfig l eq_refl eq_refl (Ht l eq_refl)).
    + destruct (f_price f) as [l |]; simpl; [| reflexivity].
      destruct (Hp l eq_refl) as [H | [H | [H | [H | H]]]].
      * destruct H as (_ & Hnone & _). discriminate.
      * destruct H as (Hs & _ & _ & _ & Hl & Hm). auto using nonempty_text.
      * destruct H as (_ & p & [] & _).
      * destruct H as (Hs & _ & _ & Hl). split; [auto |].
        split; [auto using nonempty_text |]. intros Hn. contradiction.
      * destruct H as (Hs & _ & _ & Hl & Hm). auto 6 using nonempty_text.
    + destruct (f_cart f) as [[l b] |]; simpl; [| reflexivity].
      destruct (Hc l b eq_refl) as [H | [H | [H | [H | H]]]].
      * destruct H as (Hs & _). auto.
      * destruct H as (_ & Hne & _). exfalso. apply Hne. reflexivity.
      * destruct H as (Hs & _). auto.
      * destruct H as (Hs & _). auto.
      * destruct H as (_ & Hne & _). exfalso. apply Hne. reflexivity.
    + destruct (f_description f) as [l |]; simpl; [| reflexivity].
      destruct (tagged_structural page Config.descConfig l eq_refl eq_refl (Hd l eq_refl))
        as [Hs Hl].
      split; [exact Hs |]. intros E0.
      assert (Hlen : String.length (JsString.substring0 200 (LocateResult.text l)) = 0)
        by (rewrite E0; reflexivity).
      rewrite length_substring0 in Hlen.
      destruct (LocateResult.text l); [apply Hl; reflexivity | simpl in Hlen; lia].
    + unfold wellFormed in Hf.
      destruct (f_variants f) as [| m | n sel strat]; simpl; try reflexivity.
      split; [exact Hf |].
      destruct (Hv n sel strat eq_refl) as [[-> ->] | (l & Hl & -> & ->)]; [auto |].
      destruct Hl as [H | [H | [H | [H | H]]]].
      * destruct H as (Hs & _ & Hin & _). auto.
      * destruct H as (_ & Hne & _). exfalso. apply Hne. reflexivity.
      * destruct H as (_ & p & [] & _).
      * destruct H as (Hs & Hattr & _). auto.
      * destruct H as (_ & Hne & _). exfalso. apply Hne. reflexivity.
    + destruct (f_availability f) as [l |]; simpl; [| reflexivity].
      destruct (Ha l eq_refl) as [H | [H | [H | [H | H]]]].
      * destruct H as (_ & Hnone & _). discriminate.
      * destruct H as (Hs & _). auto.
      * destruct H as (Hs & _). auto.
      * destruct H as (Hs & _). auto.
      * destruct H as (Hs & _). auto.
Qed.

(** X8. The stock flag is decided by three substrings of the lower-cased
    availability text: [true] when it holds "in stock" or "available";
    [false] when it holds "out of stock" and neither of these; [null]
    (the flag is left as it was) when it holds none of the three. Whether
    the text holds "unavailable" changes nothing. *)
Theorem stock_flag_is_decided_by_three_substrings (text : string) :
  (stockFlag text = Some true
   <-> JsString.includes (JsString.toLowerCase text) "in stock" = true
       \/ JsString.includes (JsString.toLowerCase text) "available" = true)
  /\ (stockFlag text = Some false
      <-> JsString.includes (JsString.toLowerCase text) "out of stock" = true
          /\ JsString.includes (JsString.toLowerCase text) "in stock" = false
          /\ JsString.includes (JsString.toLowerCase text) "available" = false)
  /\ (stockFlag text = None
      <-> JsString.includes (JsString.toLowerCase text) "out of stock" = false
          /\ JsString.includes (JsString.toLowerCase text) "in stock" = false
          /\ JsString.includes (JsString.toLowerCase text) "available" = false).
Proof.
  unfold stockFlag.
  pose proof (includes_drop_char (JsString.toLowerCase text) "u" "navailable") as H1.
  pose proof (includes_drop_char (JsString.toLowerCase text) "n" "available") as H2.
  destruct (JsString.includes (JsString.toLowerCase text) "in stock") eqn:Ein;
    destruct (JsString.includes (JsString.toLowerCase text) "available") eqn:Eav;
    destruct (JsString.includes (JsString.toLowerCase text) "out of stock") eqn:Eout;
    destruct (JsString.includes (JsString.toLowerCase text) "unavailable") eqn:Eun;
    simpl; try (specialize (H2 (H1 eq_refl)); discriminate);
    repeat split; intros; try discriminate; try tauto; auto;
    try (destruct H as [H | H]; discriminate);
    try (destruct H as (? & ? & ?); discriminate).
Qed.

(* ===================================================================== *)
(** * The image auditor *)
(* ===================================================================== *)

Section AuditorFacts.
Context {W : Type} {PW : Playwright W} {RT : Runtime W}.
Import JsString.

Lemma truthy_nonempty (o : option string) : truthy o = true -> orEmpty o <> "".
Proof. destruct o as [[| c s] |]; simpl; discriminate. Qed.

(** The [try] block that fills in a record: it never throws, leaves the
    list of records alone, and ends with the record [auditedImage] gives for
    the outcomes of the two calls it makes; the box is asked for only when
    the image is visible. *)
Lemma fillBlock_run u s alt img (w : W) (recs : list ImageRecord.t) :
  try_catch
    (visible <- liftW (liftW (isVisible (Elem img))) ;;
     if visible then
       assign markLoaded ;;;
       box <- liftW (liftW (boundingBox img)) ;;
       match box with
       | Some d => assign (withDimensions d)
       | None => ret tt
       end
     else ret tt)
    (fun error => assign (pushImageError error))
    ((w, recs), newImage u s (orEmpty (or alt (Some ""))))
  = (Ok tt,
     ((match fst (isVisible (Elem img) w) with
       | Ok true => snd (boundingBox img (snd (isVisible (Elem img) w)))
       | _ => snd (isVisible (Elem img) w)
       end, recs),
      auditedImage u s alt (fst (isVisible (Elem img) w))
        (fst (boundingBox img (snd (isVisible (Elem img) w)))))).
Proof.
  unfold try_catch. rewrite bind_run, liftW2_run.
  destruct (isVisible (Elem img) w) as [[[] | e] w1] eqn:Ev; cbn [fst snd];
    [| reflexivity | reflexivity].
  rewrite bind_run. unfold assign at 1, modify at 1. cbn [fst snd].
  rewrite bind_run, liftW2_run.
  destruct (boundingBox img w1) as [[[d |] | e] w2] eqn:Eb; reflexivity.
Qed.

Lemma fillRecord_run u s alt img (w : W) (recs : list ImageRecord.t) :
  scoped (newImage u s (orEmpty (or alt (Some ""))))
    (try_catch
       (visible <- liftW (liftW (isVisible (Elem img))) ;;
        if visible then
          assign markLoaded ;;;
          box <- liftW (liftW (boundingBox img)) ;;
          match box with
          | Some d => assign (withDimensions d)
          | None => ret tt
          end
        else ret tt)
       (fun error => assign (pushImageError error))) (w, recs)
  = (Ok (tt, auditedImage u s alt (fst (isVisible (Elem img) w))
               (fst (boundingBox img (snd (isVisible (Elem img) w))))),
     (match fst (isVisible (Elem img) w) with
      | Ok true => snd (boundingBox img (snd (isVisible (Elem img) w)))
      | _ => snd (isVisible (Elem img) w)
      end, recs)).
Proof. unfold scoped. rewrite fillBlock_run. reflexivity. Qed.

Lemma auditedImage_audited u s alt vis box :
  s <> "" -> audited u (auditedImage u s alt vis box).
Proof.
  intros Hs. unfold audited, auditedImage.
  destruct vis as [[] | e]; [destruct box as [[d |] | e] | |]; simpl;
    repeat split; auto; try (intros H; exfalso; apply H; reflexivity).
Qed.

(** One image node: the call may throw while it reads the attributes; the
    records it had are kept, and what it adds is audited. *)
Lemma auditImage_adds u img (w : W) (recs : list ImageRecord.t) :
  exists o w' added,
    auditImage u img (w, recs) = (o, (w', recs ++ added))
    /\ Forall (audited u) added.
Proof.
  unfold auditImage. rewrite bind_run, liftW_run.
  destruct (getAttribute img "src" w) as [[src1 | e] w1]; cbn [fst snd];
    [| exists (Throw e), w1, []; rewrite app_nil_r; auto].
  rewrite bind_run.
  assert (Hsrc : exists o w2,
             (if truthy src1 then ret src1 else liftW (getAttribute img "data-src"))
               (w1, recs) = (o, (w2, recs))).
  { destruct (truthy src1); [eexists; eexists; reflexivity |].
    rewrite liftW_run. eexists; eexists; reflexivity. }
  destruct Hsrc as ([src | e] & w2 & ->);
    [| exists (Throw e), w2, []; rewrite app_nil_r; auto].
  rewrite bind_run, liftW_run.
  destruct (getAttribute img "alt" w2) as [[alt | e] w3]; cbn [fst snd];
    [| exists (Throw e), w3, []; rewrite app_nil_r; auto].
  rewrite bind_run, liftW_run.
  destruct (getAttribute img "style" w3) as [[style | e] w4]; cbn [fst snd];
    [| exists (Throw e), w4, []; rewrite app_nil_r; auto].
  destruct (truthy (resolveSource src style)) eqn:Et;
    [| exists (Ok tt), w4, []; rewrite app_nil_r; auto].
  rewrite bind_run.
  rewrite fillRecord_run. eexists. eexists. eexists.
  split; [reflexivity |]. constructor; [| constructor].
  apply auditedImage_audited, truthy_nonempty, Et.
Qed.

Lemma auditImages_add u imgs (w : W) (recs : list ImageRecord.t) :
  exists o w' added,
    for_each imgs (auditImage u) (w, recs) = (o, (w', recs ++ added))
    /\ Forall (audited u) added.
Proof.
  revert w recs. induction imgs as [| img imgs IH]; intros w recs.
  - exists (Ok tt), w, []. rewrite app_nil_r. split; [reflexivity | constructor].
  - simpl. rewrite bind_run.
    destruct (auditImage_adds u img w recs) as ([[] | e] & w1 & a1 & -> & H1).
    + destruct (IH w1 (recs ++ a1)) as (o & w2 & a2 & -> & H2).
      exists o, w2, (a1 ++ a2). rewrite app_assoc. split; [reflexivity |].
      apply Forall_app; auto.
    + exists (Throw e), w1, a1. auto.
Qed.

(** One URL: its [try] never throws. *)
Lemma auditPage_adds page u (w : W) (recs : list ImageRecord.t) :
  exists w' added,
    try_catch
      (liftW (page_goto page u None) ;;;
       liftW (page_waitForTimeout page 2000%Z) ;;;
       images <- liftW (page_queryAll page Config.imageSelector) ;;
       for_each images (auditImage u))
      (fun _ => ret tt) (w, recs)
    = (Ok tt, (w', recs ++ added))
    /\ Forall (audited u) added.
Proof.
  unfold try_catch. rewrite bind_run, liftW_run.
  destruct (page_goto page u None w) as [[[] | e] w1]; cbn [fst snd];
    [| exists w1, []; rewrite app_nil_r; split; [reflexivity | constructor]].
  rewrite bind_run, liftW_run.
  destruct (page_waitForTimeout page 2000%Z w1) as [[[] | e] w2]; cbn [fst snd];
    [| exists w2, []; rewrite app_nil_r; split; [reflexivity | constructor]].
  rewrite bind_run, liftW_run.
  destruct (page_queryAll page Config.imageSelector w2) as [[imgs | e] w3]; cbn [fst snd];
    [| exists w3, []; rewrite app_nil_r; split; [reflexivity | constructor]].
  destruct (auditImages_add u imgs w3 recs) as ([[] | e] & w4 & added & -> & H).
  - exists w4, added. auto.
  - exists w4, added. auto.
Qed.

Lemma auditPages_add page urls (w : W) (recs : list ImageRecord.t) :
  exists w' groups,
    for_each urls (fun u =>
      try_catch
        (liftW (page_goto page u None) ;;;
         liftW (page_waitForTimeout page 2000%Z) ;;;
         images <- liftW (page_queryAll page Config.imageSelector) ;;
         for_each images (auditImage u))
        (fun _ => ret tt)) (w, recs)
    = (Ok tt, (w', recs ++ concat groups))
    /\ Forall2 (fun u g => Forall (audited u) g) urls groups.
Proof.
  revert w recs. induction urls as [| u urls IH]; intros w recs.
  - exists w, []. simpl. rewrite app_nil_r. split; [reflexivity | constructor].
  - cbn [for_each]. rewrite bind_run.
    destruct (auditPage_adds page u w recs) as (w1 & g & -> & Hg).
    destruct (IH w1 (recs ++ g)) as (w2 & gs & -> & Hgs).
    exists w2, (g :: gs). simpl. rewrite app_assoc. split; [reflexivity |].
    constructor; auto.
Qed.

Lemma testImageLoading_groups page urls (w : W) :
  exists w' groups,
    testImageLoading page urls w = (Ok (concat groups), w')
    /\ Forall2 (fun u g => Forall (audited u) g) urls groups.
Proof.
  unfold testImageLoading. rewrite bind_run, scoped_run.
  destruct (auditPages_add page urls w []) as (w' & groups & -> & H).
  exists w', groups. split; [reflexivity | exact H].
Qed.

End AuditorFacts.

(** X9. The image auditor never throws, whatever the browser does: it
    returns a list of records. Every record is filed under one of the URLs
    it was given and has a source that is not empty; it is either loaded
    with status 200, or not loaded with status 0 and dimensions 0 by 0; it
    holds at most one error, and a record with an error has dimensions 0 by
    0. The second part runs the auditor on a page with six image nodes: the
    node without a source leaves no record, a missing [alt] is recorded as
    the empty string, and the node that has left the document is recorded
    as not loaded with the error. *)
Theorem image_audit_returns_well_formed_records :
  (forall (W : Type) (PW : Playwright W) (RT : Runtime W) page urls (w : W),
     exists recs w',
       testImageLoading page urls w = (Ok recs, w')
       /\ forall r, In r recs ->
            In (ImageRecord.url r) urls
            /\ ImageRecord.src r <> ""
            /\ ((ImageRecord.loaded r = true /\ ImageRecord.status r = 200%Z)
                \/ (ImageRecord.loaded r = false /\ ImageRecord.status r = 0%Z
                    /\ ImageRecord.dimensions r = mkDimensions 0 0))
            /\ List.length (ImageRecord.errors r) <= 1
            /\ (ImageRecord.errors r <> [] -> ImageRecord.dimensions r = mkDimensions 0 0))
  /\ fst (@testImageLoading Gallery.World Gallery.playwright Gallery.runtime
            1 [Gallery.home] Gallery.world)
     = Ok [ ImageRecord.mk Gallery.home "/img/a.png" true 200 "Shirt" (mkDimensions 640 480) [];
            ImageRecord.mk Gallery.home "/img/b.png" true 200 "" (mkDimensions 0 0) [];
            ImageRecord.mk Gallery.home "/img/hero.png" true 200 "" (mkDimensions 1280 300) [];
            ImageRecord.mk Gallery.home "/img/c.png" false 0 "" (mkDimensions 0 0) [];
            ImageRecord.mk Gallery.home "/img/d.png" false 0 "" (mkDimensions 0 0)
              ["Element is not attached to the DOM"] ].
Proof.
  split; [| vm_compute; reflexivity].
  intros W PW RT page urls w.
  destruct (testImageLoading_groups page urls w) as (w' & groups & E & H).
  exists (concat groups), w'. split; [exact E |].
  intros r Hr. apply in_concat in Hr. destruct Hr as (g & Hg & Hrg).
  clear E. induction H as [| u g0 urls0 groups0 Hu Hrest IH]; [destruct Hg |].
  destruct Hg as [<- | Hg].
  - rewrite Forall_forall in Hu. destruct (Hu r Hrg) as (Eu & Hrec).
    split; [left; symmetry; exact Eu | exact Hrec].
  - destruct (IH Hg) as (Hin & Hrec). split; [right; exact Hin | exact Hrec].
Qed.

(** X10. The records of the image auditor come grouped by URL, the groups
    in the order of the URLs it was given (a URL may contribute none). A URL
    whose navigation throws contributes no record, and the audit goes on
    with the remaining URLs from the world the failure left. *)
Theorem image_records_are_grouped_by_url {W : Type} {PW : Playwright W} {RT : Runtime W}
    (page : Page) (urls : list string) (w : W) :
  (exists groups w',
     testImageLoading page urls w = (Ok (concat groups), w')
     /\ Forall2 (fun u g => forall r, In r g -> ImageRecord.url r = u) urls groups)
  /\ (forall u rest e w1,
        urls = u :: rest ->
        page_goto page u None w = (Throw e, w1) ->
        testImageLoading page urls w = testImageLoading page rest w1).
Proof.
  split.
  - destruct (testImageLoading_groups page urls w) as (w' & groups & E & H).
    exists groups, w'. split; [exact E |].
    clear E. induction H as [| u g urls0 groups0 Hu Hrest IH]; constructor; [| exact IH].
    intros r Hr. rewrite Forall_forall in Hu. apply (Hu r Hr).
  - intros u rest e w1 -> Hgo. unfold testImageLoading. rewrite !bind_run.
    unfold scoped. cbn [for_each]. rewrite bind_run.
    assert (E : try_catch
                  (liftW (page_goto page u None) ;;;
                   liftW (page_waitForTimeout page 2000%Z) ;;;
                   images <- liftW (page_queryAll page Config.imageSelector) ;;
                   for_each images (auditImage u))
                  (fun _ => ret tt) (w, @nil ImageRecord.t)
                = (Ok tt, (w1, []))).
    { unfold try_catch. rewrite bind_run, liftW_run, Hgo. reflexivity. }
    rewrite E. reflexivity.
Qed.

(** The auditor on an unreachable URL between two visits of the same page:
    the records of the first visit, then those of the second. *)
Example unreachable_url_contributes_no_image :
  map ImageRecord.src
    (match fst (@testImageLoading Gallery.World Gallery.playwright Gallery.runtime 1
                  [Gallery.home; "https://gone.example/"; Gallery.home] Gallery.world) with
     | Ok recs => recs
     | Throw _ => []
     end)
  = ["/img/a.png"; "/img/b.png"; "/img/hero.png"; "/img/c.png"; "/img/d.png";
     "/img/a.png"; "/img/b.png"; "/img/hero.png"; "/img/c.png"; "/img/d.png"].
Proof. vm_compute. reflexivity. Qed.

(** X11. One image node whose six calls answer: the source is [src] when
    that is not empty, else [data-src] when that is not empty, else what
    the background-image expression captures in an inline style that holds
    "background-image"; a node with none of these adds no record. With a
    source, exactly one record is appended: [alt] or the empty string;
    loaded with status 200 exactly when [isVisible] answers [true]; the
    dimensions of the bounding box when the image is visible and has one; the
    message of the exception when [isVisible] or [boundingBox] throws (an
    image whose [boundingBox] throws is still recorded as loaded). *)
Theorem audit_image_reads_source_in_order {W : Type} {PW : Playwright W} {RT : Runtime W}
    (I : W -> Prop) (u : string) (img : Handle)
    (src dataSrc alt style : option string)
    (visible : outcome bool) (box : outcome (option Dimensions)) :
  answers I (getAttribute img "src") (Ok src) ->
  answers I (getAttribute img "data-src") (Ok dataSrc) ->
  answers I (getAttribute img "alt") (Ok alt) ->
  answers I (getAttribute img "style") (Ok style) ->
  answers I (isVisible (Elem img)) visible ->
  answers I (boundingBox img) box ->
  (forall w recs, I w ->
     exists w',
       auditImage u img (w, recs)
       = (Ok tt,
          (w', recs ++ match imageSource src dataSrc style with
                       | Some (String c s) =>
                           [auditedImage u (String c s) alt visible box]
                       | _ => []
                       end))
       /\ I w')
  /\ (JsString.truthy src = true -> imageSource src dataSrc style = src)
  /\ (JsString.truthy src = false -> JsString.truthy dataSrc = true ->
      imageSource src dataSrc style = dataSrc)
  /\ (JsString.truthy src = false -> JsString.truthy dataSrc = false ->
      imageSource src dataSrc style
      = match style with
        | Some s =>
            if JsString.includes s "background-image"
            then match regexp_match1 Config.backgroundImage s with
                 | Some m => Some m
                 | None => dataSrc
                 end
            else dataSrc
        | None => dataSrc
        end).
Proof.
  intros Hsrc Hdata Halt Hstyle Hvis Hbox.
  split; [| split; [| split]].
  - intros w recs Hw. unfold auditImage.
    destruct (answers_run _ _ _ _ Hsrc Hw) as [E1 I1].
    rewrite bind_run, liftW_run, E1. cbn [fst snd].
    set (w1 := snd (getAttribute img "src" w)) in *.
    rewrite bind_run.
    assert (Hs : exists w2,
               (if JsString.truthy src then ret src
                else liftW (getAttribute img "data-src")) (w1, recs)
               = (Ok (if JsString.truthy src then src else dataSrc), (w2, recs))
               /\ I w2).
    { destruct (JsString.truthy src).
      - exists w1. split; [reflexivity | exact I1].
      - destruct (answers_run _ _ _ _ Hdata I1) as [E2 I2].
        exists (snd (getAttribute img "data-src" w1)).
        rewrite liftW_run, E2. split; [reflexivity | exact I2]. }
    destruct Hs as (w2 & -> & I2).
    destruct (answers_run _ _ _ _ Halt I2) as [E3 I3].
    rewrite bind_run, liftW_run, E3. cbn [fst snd].
    set (w3 := snd (getAttribute img "alt" w2)) in *.
    destruct (answers_run _ _ _ _ Hstyle I3) as [E4 I4].
    rewrite bind_run, liftW_run, E4. cbn [fst snd].
    set (w4 := snd (getAttribute img "style" w3)) in *.
    fold (imageSource src dataSrc style).
    destruct (imageSource src dataSrc style) as [[| c s] |]; cbn [JsString.truthy JsString.isEmpty negb];
      [exists w4; rewrite app_nil_r; auto | | exists w4; rewrite app_nil_r; auto].
    rewrite bind_run, fillRecord_run.
    destruct (answers_run _ _ _ _ Hvis I4) as [E5 I5].
    destruct (Hvis w4 I4) as [Ev _]. rewrite Ev.
    destruct visible as [[] | e].
    + destruct (Hbox _ I5) as [Eb I6]. rewrite Eb.
      eexists. split; [reflexivity | exact I6].
    + eexists. split; [reflexivity | exact I5].
    + eexists. split; [reflexivity | exact I5].
  - intros Ht. unfold imageSource, resolveSource. rewrite Ht. rewrite Ht. reflexivity.
  - intros Ht Hd. unfold imageSource, resolveSource. rewrite Ht, Hd. reflexivity.
  - intros Ht Hd. unfold imageSource, resolveSource. rewrite Ht, Hd.
    destruct style as [[| c s] |]; simpl; reflexivity.
Qed.

Section GalleryRuns.
#[local] Existing Instance Gallery.playwright.
#[local] Existing Instance Gallery.runtime.

(** X11 on the hero banner of the gallery, which has no [src] and no
    [data-src]. *)
Lemma audit_image_reads_source_in_order_witness :
  let I := fun w : Gallery.World => Gallery.shown w = Gallery.images in
  let loaded := Gallery.mkWorld [] Gallery.images in
  answers I (getAttribute 3 "src") (Ok None)
  /\ answers I (getAttribute 3 "data-src") (Ok None)
  /\ answers I (getAttribute 3 "alt") (Ok None)
  /\ answers I (getAttribute 3 "style") (Ok (Some Gallery.heroStyle))
  /\ answers I (isVisible (Elem 3)) (Ok true)
  /\ answers I (boundingBox 3) (Ok (Some (mkDimensions 1280 300)))
  /\ exists w',
       auditImage Gallery.home 3 (loaded, [])
       = (Ok tt,
          (w', [ImageRecord.mk Gallery.home "/img/hero.png" true 200 ""
                  (mkDimensions 1280 300) []])).
Proof.
  intros I loaded.
  assert (Ha : forall a v,
             Gallery.lookup a [("style", Gallery.heroStyle)] = v ->
             answers I (getAttribute 3 a) (Ok v)).
  { intros a v <- w Hw. simpl. unfold Gallery.onImage, Gallery.imageOf.
    unfold I in Hw. rewrite Hw. simpl. auto. }
  assert (Hv : answers I (isVisible (Elem 3)) (Ok true)).
  { intros w Hw. simpl. unfold Gallery.onImage, Gallery.imageOf.
    unfold I in Hw. rewrite Hw. simpl. auto. }
  assert (Hb : answers I (boundingBox 3) (Ok (Some (mkDimensions 1280 300)))).
  { intros w Hw. simpl. unfold Gallery.onImage, Gallery.imageOf.
    unfold I in Hw. rewrite Hw. simpl. auto. }
  pose proof (Ha "src" None eq_refl) as H1.
  pose proof (Ha "data-src" None eq_refl) as H2.
  pose proof (Ha "alt" None eq_refl) as H3.
  pose proof (Ha "style" (Some Gallery.heroStyle) eq_refl) as H4.
  repeat (split; [assumption |]).
  destruct (proj1 (audit_image_reads_source_in_order I Gallery.home 3 None None None
                     (Some Gallery.heroStyle) (Ok true) (Ok (Some (mkDimensions 1280 300)))
                     H1 H2 H3 H4 Hv Hb) loaded [] eq_refl) as (w' & E & _).
  exists w'. rewrite E. vm_compute. reflexivity.
Defined.

End GalleryRuns.

(* ===================================================================== *)
(** * The run orchestrator: what a run leaves in the document *)
(* ===================================================================== *)

Section DocumentFacts.
Context {W : Type} {PW : Playwright W} {RT : Runtime W} {CO : Collaborators W}.

(** Steps that leave the document alone keep whatever holds of it. *)
Lemma doc_io {A} (P : TestResult.t -> Prop) (m : M W A) :
  hoare (fun ex => P (testResult ex)) (io m) (fun _ ex => P (testResult ex)).
Proof. intros ex H. unfold io. destruct (m (world ex)) as [o w']. exact H. Qed.

Lemma doc_save (P : TestResult.t -> Prop) :
  hoare (fun ex : Exec W => P (testResult ex)) save (fun _ ex => P (testResult ex)).
Proof.
  intros ex H. rewrite save_run. destruct (db_save _ _) as [[u | e] w']; exact H.
Qed.

Lemma doc_initializeBrowser (P : TestResult.t -> Prop) :
  hoare (fun ex : Exec W => P (testResult ex)) initializeBrowser
    (fun _ ex => P (testResult ex)).
Proof.
  intros ex H. unfold initializeBrowser. rewrite bind_run. unfold get.
  destruct (browser (service ex)); [exact H |].
  rewrite bind_run. unfold io. destruct (chromium_launch (world ex)) as [[b | e] w']; exact H.
Qed.

Lemma doc_update (P Q : TestResult.t -> Prop) (f : TestResult.t -> TestResult.t) :
  (forall d, P d -> Q (f d)) ->
  hoare (fun ex : Exec W => P (testResult ex)) (update f) (fun _ ex => Q (testResult ex)).
Proof. intros H ex Hex. apply H, Hex. Qed.

(** A step that keeps [P] of the document, inside a block that may end
    with [P] or [Q] when it throws. *)
Lemma doc_step {A B} (P : TestResult.t -> Prop) (Q : outcome B -> Exec W -> Prop)
    (m : M (Exec W) A) (k : A -> M (Exec W) B) :
  hoare (fun ex => P (testResult ex)) m (fun _ ex => P (testResult ex)) ->
  (forall e ex, P (testResult ex) -> Q (Throw e) ex) ->
  (forall a, hoare (fun ex => P (testResult ex)) (k a) Q) ->
  hoare (fun ex => P (testResult ex)) (bind m k) Q.
Proof.
  intros Hm Ht Hk. eapply hoare_bind with (R := fun _ ex => P (testResult ex)).
  - eapply hoare_weaken; [exact Hm | auto |]. intros [a | e] ex H; auto.
  - exact Hk.
Qed.

Lemma prepare_pages cfg :
  hoare (fun ex : Exec W => noPages (testResult ex)) (prepare cfg)
    (fun o ex => match o with
                 | Ok _ => allPages cfg (testResult ex)
                           /\ TestResult.aiAnalysis (testResult ex) <> None
                 | Throw _ => noPages (testResult ex) \/ allPages cfg (testResult ex)
                 end).
Proof.
  unfold prepare.
  apply doc_step; [apply doc_save | auto |]. intros _.
  apply doc_step; [apply doc_initializeBrowser | auto |]. intros b.
  apply doc_step; [apply doc_io | auto |]. intros context.
  apply doc_step; [apply doc_io | auto |]. intros page.
  apply doc_step; [unfold installListeners; apply doc_io | auto |]. intros _.
  eapply hoare_bind with (R := fun _ ex => allPages cfg (testResult ex)).
  { intros ex [Hp _]. unfold testProductPages.
    destruct (testPages_run page (testSettings cfg) (productPages cfg) ex)
      as (rs & ex' & E & Hr & Hm).
    rewrite E. simpl. unfold allPages. unfold pageResults in Hr. rewrite Hr, Hp. exact Hm. }
  intros _.
  apply doc_step; [apply doc_io | auto |]. intros imageResults.
  apply doc_step; [apply doc_update; auto | auto |]. intros _.
  apply doc_step; [apply doc_io | auto |]. intros detected.
  apply doc_step; [apply doc_update; auto | auto |]. intros _.
  apply doc_step; [apply doc_io | auto |]. intros _.
  apply doc_step; [intros ex H; exact H | auto |]. intros ex0.
  apply doc_step; [apply doc_io | auto |]. intros analysis.
  intros ex H. simpl. split; [exact H | discriminate].
Qed.

Lemma startExec_fields cfg (w : W) svc :
  noPages (testResult (startExec cfg w svc))
  /\ service (startExec cfg w svc) = svc
  /\ TestResult.configurationId (testResult (startExec cfg w svc)) = _id cfg
  /\ TestResult.executionId (testResult (startExec cfg w svc)) = fst (uuidv4 w)
  /\ TestResult.startTime (testResult (startExec cfg w svc))
     = fst (date_now (snd (uuidv4 w))).
Proof.
  unfold startExec. destruct (uuidv4 w) as [id w1]. simpl.
  destruct (date_now w1) as [t w2]. simpl. repeat split.
Qed.

End DocumentFacts.

Section ReturnedPages.
Context {W : Type} {PW : Playwright W} {RT : Runtime W} {CO : Collaborators W}.

(** A run that returns has been through the loop over the pages. *)
Lemma returned_run_holds_all_pages cfg (w : W) svc d :
  fst (runTest cfg w svc) = Ok d -> allPages cfg d.
Proof.
  destruct (startExec_fields cfg w svc) as (H0 & _).
  pose proof (prepare_pages cfg (startExec cfg w svc) H0) as Hp.
  unfold runTest, try_catch, execute. rewrite bind_run.
  destruct (prepare cfg (startExec cfg w svc)) as [[[] | e] ex1]; cbn [fst snd] in Hp.
  - destruct Hp as [Hall _]. rewrite complete_run. cbv zeta.
    destruct (db_save _ _) as [[u | e] w2]; cbn [fst].
    + intros H; inversion H; subst. exact Hall.
    + rewrite onFailure_run. cbv zeta. destruct (db_save _ _) as [[u' | e'] w3]; discriminate.
  - rewrite onFailure_run. cbv zeta. destruct (db_save _ _) as [[u' | e'] w3]; discriminate.
Qed.

End ReturnedPages.

(** C4. When the validation of a page throws (navigation to an unreachable
    host, for one), the validator catches the exception and returns a
    result all the same: the initial result of that URL with the message
    appended to its error list, so [passed] is [false], the six element
    checks are in their absent shape and the error list is not empty. The
    orchestrator's loop over the configured pages, [testProductPages],
    records that result (read here through its URL, verdict and error
    list) and goes on with the remaining pages from the world the failure
    left; over any configuration it never throws and appends one result per
    configured page, in order, each under its page's URL. So a run that
    returns holds a result for every configured page, whichever of them
    failed. *)
Theorem failing_page_is_recorded_and_run_continues
    {W : Type} {PW : Playwright W} {RT : Runtime W} {CO : Collaborators W}
    (page : Page) (u : string) (settings : TestSettings) (w : W)
    (e : string) (s' : W * PageResult) :
  validate page u settings (fst (date_now w)) (snd (date_now w), initialResult u)
  = (Throw e, s') ->
  let r := pushError e (initialResult u) in
  let recorded := fun x : PageResult => (url x, passed x, errors x) in
  testProductPage page u settings w = (Ok r, fst s')
  /\ passed r = false
  /\ elements r = mkElements TextCheck.absent TextCheck.absent CartCheck.absent
                    TextCheck.absent VariantCheck.absent AvailabilityCheck.absent
  /\ errors r = [e]
  /\ (forall (cfg : TestConfiguration) id rest (ex : Exec W),
        world ex = w ->
        testSettings cfg = settings ->
        productPages cfg = mkProductPage u id :: rest ->
        exists ex1 rs ex',
          world ex1 = fst s'
          /\ service ex1 = service ex /\ history ex1 = history ex /\ saves ex1 = saves ex
          /\ map recorded (pageResults ex1)
             = map recorded (pageResults ex) ++ [(u, false, [e])]
          /\ testProductPages page cfg ex
             = testProductPages page (mkTestConfiguration (_id cfg) rest settings) ex1
          /\ testProductPages page cfg ex = (Ok tt, ex')
          /\ pageResults ex' = pageResults ex1 ++ rs
          /\ map url rs = map pp_url rest)
  /\ (forall (cfg : TestConfiguration) (ex : Exec W),
        exists rs ex',
          testProductPages page cfg ex = (Ok tt, ex')
          /\ pageResults ex' = pageResults ex ++ rs
          /\ map url rs = map pp_url (productPages cfg))
  /\ (forall (cfg : TestConfiguration) (w0 : W) (svc : Service) (d : TestResult.t),
        fst (runTest cfg w0 svc) = Ok d ->
        map url (productPageTests (TestResult.results d)) = map pp_url (productPages cfg)).
Proof.
  intros Hthrow r recorded.
  assert (E : testProductPage page u settings w = (Ok r, fst s')).
  { destruct (testProductPage_shape page u settings w)
      as [(e' & w' & Ev & E) | (t & f & w' & _ & Ev & _)];
      rewrite Ev in Hthrow; [| discriminate].
    inversion Hthrow; subst. exact E. }
  split; [exact E |]. split; [reflexivity |]. split; [reflexivity |].
  split; [reflexivity |]. split; [| split].
  - intros cfg id rest ex Hw Hs Hp.
    set (ex1 := mkExec (fst s') (service ex) (withResults (pushPageResult r) (testResult ex))
                  (history ex) (saves ex)).
    assert (E1 : testProductPages page cfg ex
                 = testProductPages page (mkTestConfiguration (_id cfg) rest settings) ex1).
    { unfold testProductPages. rewrite Hp, Hs. cbn [for_each productPages testSettings].
      rewrite bind_run. unfold testOnePage at 1. rewrite bind_run. unfold io at 1.
      rewrite Hw. cbn [pp_url]. rewrite E. reflexivity. }
    destruct (testPages_run page settings rest ex1) as (rs & ex' & El & Hr & Hm).
    exists ex1, rs, ex'.
    split; [reflexivity |]. split; [reflexivity |]. split; [reflexivity |].
    split; [reflexivity |]. split.
    { unfold pageResults, ex1. cbn [testResult]. unfold withResults, pushPageResult.
      cbn [TestResult.results productPageTests]. rewrite map_app. reflexivity. }
    split; [exact E1 |]. split; [rewrite E1; exact El |].
    split; [exact Hr | exact Hm].
  - intros cfg ex. unfold testProductPages. apply testPages_run.
  - intros cfg w0 svc d H. exact (returned_run_holds_all_pages cfg w0 svc d H).
Qed.

(** C4 on a run whose first page cannot be reached: the validator returns
    the failed result, and the run returns a document that holds it before
    the result of the second page, which passes. *)
Lemma failing_page_is_recorded_and_run_continues_witness :
  let w := Fixture.worldOf Fixture.fullShop [] in
  let e := "net::ERR_NAME_NOT_RESOLVED at https://unreachable.invalid/" in
  validate 1 Fixture.gone Fixture.settings (fst (date_now w))
    (snd (date_now w), initialResult Fixture.gone)
  = (Throw e, (snd (date_now w), initialResult Fixture.gone))
  /\ testProductPage 1 Fixture.gone Fixture.settings w
     = (Ok (pushError e (initialResult Fixture.gone)), snd (date_now w))
  /\ (exists ex',
        testProductPages 1 Fixture.twoPages (startExec Fixture.twoPages w Fixture.idle)
        = (Ok tt, ex')
        /\ map (fun x => (url x, passed x, errors x)) (pageResults ex')
           = [(Fixture.gone, false, [e]); (Fixture.shop, true, [])])
  /\ (exists d,
        fst (runTest Fixture.twoPages w Fixture.idle) = Ok d
        /\ map (fun x => (url x, passed x, errors x)) (productPageTests (TestResult.results d))
           = [(Fixture.gone, false, [e]); (Fixture.shop, true, [])]).
Proof.
  intros w e.
  assert (H : validate 1 Fixture.gone Fixture.settings (fst (date_now w))
                (snd (date_now w), initialResult Fixture.gone)
              = (Throw e, (snd (date_now w), initialResult Fixture.gone)))
    by (vm_compute; reflexivity).
  split; [exact H |]. split.
  - exact (proj1 (@failing_page_is_recorded_and_run_continues Sim.World Sim.playwright
                    Sim.runtime Sim.collaborators 1 Fixture.gone Fixture.settings
                    w e _ H)).
  - split.
    + eexists. split; vm_compute; reflexivity.
    + eexists. split; vm_compute; reflexivity.
Defined.

(** X12. A run leaves either no page result or all of them: the document
    never holds the results of only some of the configured pages (the loop
    over the pages cannot throw, and nothing after it touches the page
    results). With all of them there is one result per configured page, in
    the order of the configuration, each under its page's URL. The document
    keeps the configuration id, the execution id and the start time it was
    created with. When the run returns, the returned document holds all page
    results and an analysis. *)
Theorem run_records_every_page_or_none :
  forall (W : Type) (PW : Playwright W) (RT : Runtime W) (CO : Collaborators W)
         (cfg : TestConfiguration) (w : W) (svc : Service),
    let doc := testResult (snd (runTest cfg w svc)) in
    (productPageTests (TestResult.results doc) = []
     \/ map url (productPageTests (TestResult.results doc)) = map pp_url (productPages cfg))
    /\ TestResult.configurationId doc = _id cfg
    /\ TestResult.executionId doc = fst (uuidv4 w)
    /\ TestResult.startTime doc = fst (date_now (snd (uuidv4 w)))
    /\ match fst (runTest cfg w svc) with
       | Ok d =>
           d = doc
           /\ map url (productPageTests (TestResult.results d)) = map pp_url (productPages cfg)
           /\ TestResult.aiAnalysis d <> None
       | Throw _ => True
       end.
Proof.
  intros W PW RT CO cfg w svc. cbv zeta.
  destruct (startExec_fields cfg w svc) as (H0 & _ & Hc & Hi & Ht).
  set (ex0 := startExec cfg w svc) in *.
  destruct (prepare_run cfg ex0) as (ok0 & _ & _ & _ & Hd & _).
  pose proof (prepare_pages cfg ex0 H0) as Hp.
  destruct Hd as (Hd1 & Hd2 & _ & Hd4 & _).
  rewrite Hc in Hd1. rewrite Hi in Hd2. rewrite Ht in Hd4.
  unfold runTest. fold ex0. unfold try_catch, execute. rewrite bind_run.
  destruct (prepare cfg ex0) as [[[] | e] ex1]; cbn [fst snd] in *.
  - destruct Hp as [Hall Hai]. rewrite complete_run. cbv zeta.
    destruct (db_save _ _) as [[u | e] w2]; cbn [fst snd testResult].
    + repeat split; auto.
    + rewrite onFailure_run. cbv zeta.
      destruct (db_save _ _) as [[u' | e'] w3]; cbn [fst snd testResult];
        repeat split; auto.
  - rewrite onFailure_run. cbv zeta.
    destruct (db_save _ _) as [[u' | e'] w3]; cbn [fst snd testResult];
      (split; [destruct Hp as [[Hp _] | Hp]; [left | right]; exact Hp | repeat split; auto]).
Qed.

(* ===================================================================== *)
(** * The browser the service holds *)
(* ===================================================================== *)

Section ServiceFacts.
Context {W : Type} {PW : Playwright W} {RT : Runtime W} {CO : Collaborators W}.

Lemma steady_ret {A} (a : A) : steady (@ret (Exec W) A a).
Proof. intros svc ex H. exact H. Qed.

Lemma steady_throw {A} (e : string) : steady (@throw (Exec W) A e).
Proof. intros svc ex H. exact H. Qed.

Lemma steady_get : steady (@get (Exec W)).
Proof. intros svc ex H. exact H. Qed.

Lemma steady_io {A} (m : M W A) : steady (io m).
Proof. intros svc ex H. unfold io. destruct (m (world ex)) as [o w']. exact H. Qed.

Lemma steady_update (f : TestResult.t -> TestResult.t) : steady (@update W f).
Proof. intros svc ex H. exact H. Qed.

Lemma steady_setStatus (s : Status) : steady (@setStatus W s).
Proof. intros svc ex H. exact H. Qed.

Lemma steady_save : steady save.
Proof.
  intros svc ex H. rewrite save_run. destruct (db_save _ _) as [[u | e] w']; exact H.
Qed.

Lemma steady_bind {A B} (m : M (Exec W) A) (f : A -> M (Exec W) B) :
  steady m -> (forall a, steady (f a)) -> steady (bind m f).
Proof.
  intros Hm Hf svc. eapply hoare_bind with (R := fun _ ex => service ex = svc).
  - eapply hoare_weaken; [apply (Hm svc) | auto |]. intros [a | e] ex H; exact H.
  - intros a. apply Hf.
Qed.

Lemma steady_for_each {X} (xs : list X) (body : X -> M (Exec W) unit) :
  (forall x, steady (body x)) -> steady (for_each xs body).
Proof.
  intros Hb svc. apply hoare_for_each; [| auto].
  intros x _. eapply hoare_weaken; [apply (Hb x svc) | auto |].
  intros [a | e] ex H; exact H.
Qed.

Ltac steady_tac :=
  repeat first
    [ apply steady_bind; [| intros ?]
    | apply steady_io
    | apply steady_get
    | apply steady_ret
    | apply steady_throw
    | apply steady_save
    | apply steady_update
    | apply steady_setStatus
    | apply steady_for_each; intros ? ].

(** Everything in [prepare] after the browser is there. *)
Lemma steady_with_browser cfg b :
  steady (context <- io (browser_newContext b (viewport (testSettings cfg))) ;;
          page <- io (context_newPage context) ;;
          installListeners page ;;;
          testProductPages page cfg ;;;
          imageResults <- io (testImageLoading page (map pp_url (productPages cfg))) ;;
          update (withResults (withImageValidation imageResults)) ;;;
          detected <- io (fun w => (Ok (collected page w), w)) ;;
          update (withResults (withErrorDetection detected)) ;;;
          io (context_close context) ;;;
          ex <- get ;;
          analysis <- io (analyzeTestResults (TestResult.results (testResult ex))) ;;
          update (withAiAnalysis analysis)).
Proof. unfold installListeners, testProductPages, testOnePage. steady_tac. Qed.

Lemma steady_pred {A} (m : M (Exec W) A) :
  steady m ->
  forall P : Service -> Prop,
    hoare (fun ex => P (service ex)) m (fun _ ex => P (service ex)).
Proof.
  intros H P ex HP. rewrite (H (service ex) ex eq_refl). exact HP.
Qed.

Lemma steady_complete : steady complete.
Proof. unfold complete. steady_tac. Qed.

Lemma steady_onFailure e : steady (onFailure e).
Proof. unfold onFailure. steady_tac. Qed.

(** [initializeBrowser], run. *)
Lemma initializeBrowser_run (ex : Exec W) :
  initializeBrowser ex
  = match browser (service ex) with
    | Some b => (Ok b, ex)
    | None =>
        match chromium_launch (world ex) with
        | (Ok b, w') =>
            (Ok b, mkExec w' (mkService (Some b)) (testResult ex) (history ex) (saves ex))
        | (Throw e, w') =>
            (Throw e, mkExec w' (service ex) (testResult ex) (history ex) (saves ex))
        end
    end.
Proof.
  unfold initializeBrowser. rewrite bind_run. unfold get.
  destruct (browser (service ex)); [reflexivity |].
  rewrite bind_run. unfold io. destruct (chromium_launch (world ex)) as [[b | e] w'];
    reflexivity.
Qed.

End ServiceFacts.

(** X13. One run, with no other run in flight while it lasts (two runs in
    flight are X20's subject), never closes or replaces the browser the
    service holds: a service that enters the run with a browser leaves it
    with the same one, whether the run returns or throws. A service without
    a browser gets one
    only from the launch that follows the first [save]: when that [save]
    throws no launch is attempted, when the launch throws the service stays
    without a browser, and when it succeeds the service keeps the launched
    browser to the end of the run, failed or not. *)
Theorem run_keeps_the_browser_of_the_service :
  forall (W : Type) (PW : Playwright W) (RT : Runtime W) (CO : Collaborators W)
         (cfg : TestConfiguration) (w : W) (svc : Service),
    let ex0 := startExec cfg w svc in
    browser (service (snd (runTest cfg w svc)))
    = match browser svc with
      | Some b => Some b
      | None =>
          match db_save (testResult ex0) (world ex0) with
          | (Ok _, w1) =>
              match chromium_launch w1 with
              | (Ok b, _) => Some b
              | (Throw _, _) => None
              end
          | (Throw _, _) => None
          end
      end.
Proof.
  intros W PW RT CO cfg w svc ex0.
  assert (Hsvc : service ex0 = svc) by apply (startExec_fields cfg w svc).
  set (expected := match browser svc with
                   | Some b => Some b
                   | None =>
                       match db_save (testResult ex0) (world ex0) with
                       | (Ok _, w1) =>
                           match chromium_launch w1 with
                           | (Ok b, _) => Some b
                           | (Throw _, _) => None
                           end
                       | (Throw _, _) => None
                       end
                   end).
  set (P := fun s : Service => browser s = expected).
  assert (H : hoare (fun ex => ex = ex0) (try_catch (execute cfg) onFailure)
                (fun _ ex => P (service ex))).
  { eapply hoare_try with (R := fun _ ex => P (service ex));
      [| intros e; apply steady_pred, steady_onFailure].
    unfold execute.
    eapply hoare_bind with (R := fun _ ex => P (service ex));
      [| intros _; eapply hoare_weaken;
         [apply (steady_pred _ steady_complete P) | auto |];
         intros [a | e] ex Hex; exact Hex].
    unfold prepare.
    eapply hoare_bind
      with (R := fun _ ex => service ex = svc
                             /\ exists u, db_save (testResult ex0) (world ex0)
                                          = (Ok u, world ex)).
    - intros ex ->. rewrite save_run. unfold P, expected.
      destruct (db_save (testResult ex0) (world ex0)) as [[u | e] w1]; cbn [fst snd service world].
      + split; [exact Hsvc | eauto].
      + rewrite Hsvc. destruct (browser svc); reflexivity.
    - intros _.
      eapply hoare_bind with (R := fun _ ex => P (service ex)).
      + intros ex [Hs (u & Eu)]. rewrite initializeBrowser_run, Hs. unfold P, expected.
        rewrite Eu.
        destruct (browser svc) as [b |] eqn:Eb; cbn [fst snd service].
        * rewrite Hs. exact Eb.
        * destruct (chromium_launch (world ex)) as [[b | e] w2]; cbn [fst snd service];
            [reflexivity | exact Eb].
      + intros b. eapply hoare_weaken;
          [apply (steady_pred _ (steady_with_browser cfg b) P) | auto |].
        intros [a | e] ex Hex; exact Hex. }
  exact (H ex0 eq_refl).
Qed.

(** X14. [closeBrowser] forgets the browser only after [browser.close()]
    has succeeded: then the service holds none, and the next
    [initializeBrowser] launches a new one. When [browser.close()] throws,
    the exception propagates and the service still holds the browser, which
    the next [initializeBrowser] hands out again without launching; without
    a browser [closeBrowser] does nothing. The document of the execution is
    not touched. *)
Theorem close_browser_forgets_only_a_closed_browser
    {W : Type} {PW : Playwright W} {BS : BrowserShutdown W}
    (ex : Exec W) (b : BrowserProcess) :
  browser (service ex) = Some b ->
  (forall u w1,
     browser_close b (world ex) = (Ok u, w1) ->
     let ex1 := mkExec w1 (mkService None) (testResult ex) (history ex) (saves ex) in
     closeBrowser ex = (Ok tt, ex1)
     /\ closeBrowser ex1 = (Ok tt, ex1)
     /\ initializeBrowser ex1
        = match chromium_launch w1 with
          | (Ok b', w2) =>
              (Ok b', mkExec w2 (mkService (Some b')) (testResult ex) (history ex) (saves ex))
          | (Throw e, w2) =>
              (Throw e, mkExec w2 (mkService None) (testResult ex) (history ex) (saves ex))
          end)
  /\ (forall e w1,
        browser_close b (world ex) = (Throw e, w1) ->
        let ex1 := mkExec w1 (service ex) (testResult ex) (history ex) (saves ex) in
        closeBrowser ex = (Throw e, ex1)
        /\ initializeBrowser ex1 = (Ok b, ex1)).
Proof.
  intros Hb. split.
  - intros u w1 Hc ex1. split; [| split].
    + unfold closeBrowser. rewrite bind_run. unfold get. rewrite Hb.
      rewrite bind_run. unfold io. rewrite Hc. destruct u. reflexivity.
    + reflexivity.
    + rewrite initializeBrowser_run. reflexivity.
  - intros e w1 Hc ex1. split.
    + unfold closeBrowser. rewrite bind_run. unfold get. rewrite Hb.
      rewrite bind_run. unfold io. rewrite Hc. reflexivity.
    + rewrite initializeBrowser_run. unfold ex1. cbn [service]. rewrite Hb. reflexivity.
Qed.

(** X14 on a service whose browser refuses to close. *)
Lemma close_browser_forgets_only_a_closed_browser_witness :
  let ex := mkExec (Fixture.worldOf [] []) (mkService (Some 13))
              (newTestResult "cfg-1" "run-1" 0) [] [] in
  browser (service ex) = Some 13
  /\ @closeBrowser Sim.World simShutdown ex = (Throw "Target closed", ex)
  /\ initializeBrowser ex = (Ok 13, ex).
Proof.
  intros ex. split; [reflexivity |].
  exact (proj2 (@close_browser_forgets_only_a_closed_browser Sim.World Sim.playwright
                  simShutdown ex 13 eq_refl)
           "Target closed" (Fixture.worldOf [] []) eq_refl).
Defined.

(** X20. [initializeBrowser] is its part before the [await] followed by its
    part after it, and another call can run between the two. When two calls
    are made on a service without a browser, the second before the launch
    of the first has settled, both find no browser and both launch: the
    first call hands out the first browser, the second call assigns and
    hands out the second, and the service ends up holding the second; the
    first browser is no longer held by the service. When the second call is
    made after the first has returned, there is one launch and both calls
    hand out the same browser. *)
Theorem overlapping_calls_launch_two_browsers :
  (forall (W : Type) (PW : Playwright W) (ex : Exec W),
     initializeBrowser ex = (r <- startInitialize ;; finishInitialize r) ex
     /\ (forall a w1 b w2,
           browser (service ex) = None ->
           chromium_launch (world ex) = (Ok a, w1) ->
           chromium_launch w1 = (Ok b, w2) ->
           overlappingInitialize ex
           = (Ok (a, b),
              mkExec w2 (mkService (Some b)) (testResult ex) (history ex) (saves ex))
           /\ successiveInitialize ex
              = (Ok (a, a),
                 mkExec w1 (mkService (Some a)) (testResult ex) (history ex) (saves ex))))
  /\ @overlappingInitialize Launcher.World Launcher.playwright Launcher.fresh
     = (Ok (1, 2), mkExec 2 (mkService (Some 2)) (testResult Launcher.fresh) [] [])
  /\ @successiveInitialize Launcher.World Launcher.playwright Launcher.fresh
     = (Ok (1, 1), mkExec 1 (mkService (Some 1)) (testResult Launcher.fresh) [] []).
Proof.
  split; [| split; reflexivity].
  intros W PW ex. split.
  - rewrite initializeBrowser_run, bind_run. unfold startInitialize.
    destruct (browser (service ex)) as [b |]; [reflexivity |].
    destruct (chromium_launch (world ex)) as [[b | e] w1]; reflexivity.
  - intros a w1 b w2 Hnone Ha Hb. split.
    + unfold overlappingInitialize. rewrite bind_run. unfold startInitialize at 1.
      rewrite Hnone, Ha. rewrite bind_run. unfold startInitialize at 1.
      cbn [service world]. rewrite Hnone, Hb. reflexivity.
    + unfold successiveInitialize. rewrite bind_run, initializeBrowser_run, Hnone, Ha.
      rewrite bind_run, initializeBrowser_run. reflexivity.
Qed.

(* ===================================================================== *)
(** * The listeners *)
(* ===================================================================== *)

Section ListenerFacts.
Context {W : Type} {RT : Runtime W}.

Lemma dispatch_run (event : PageEvent) (w : W) (d : ErrorDetection) :
  dispatch event (w, d)
  = (Ok tt,
     match event with
     | PageErrorEvent message stack =>
         (snd (date_now w),
          pushJsError (mkJsError message (stackSource stack) (fst (date_now w))) d)
     | ResponseEvent false u status statusText =>
         (snd (date_now w),
          pushNetworkError (mkNetworkError u status statusText (fst (date_now w))) d)
     | ResponseEvent true _ _ _ => (w, d)
     | ConsoleEvent type text =>
         if String.eqb type "warning"
         then (snd (date_now w),
               pushConsoleWarning (mkConsoleWarning text (fst (date_now w))) d)
         else (w, d)
     end).
Proof.
  destruct event as [message stack | [] u status statusText | type text]; simpl.
  - unfold onPageError. rewrite bind_run, liftW_run. unfold total.
    destruct (date_now w) as [t w']. reflexivity.
  - reflexivity.
  - unfold onResponse. simpl. rewrite bind_run, liftW_run. unfold total.
    destruct (date_now w) as [t w']. reflexivity.
  - unfold onConsole. destruct (String.eqb type "warning"); [| reflexivity].
    rewrite bind_run, liftW_run. unfold total. destruct (date_now w) as [t w']. reflexivity.
Qed.

End ListenerFacts.

(** X15. The three listeners never throw, and after any sequence of page
    events the three arrays hold, behind what they held before and in the
    order of arrival: one entry per [pageerror], with the message and the
    second line of the stack (the empty string when the stack is undefined
    or has one line); one entry per response whose [ok()] is false, with its
    URL, status and status text; one entry per console message whose type is
    exactly "warning", with its text. Responses that are ok and console
    messages of any other type leave no entry. The second part shows the
    source of an error with a three-line stack, and that a console message
    of type "error" is not recorded. *)
Theorem listeners_record_errors_failures_and_warnings :
  (forall (W : Type) (RT : Runtime W) (events : list PageEvent) (w : W) (d : ErrorDetection),
     exists w' d',
       deliver events (w, d) = (Ok tt, (w', d'))
       /\ map (fun e => (js_message e, js_source e)) (jsErrors d')
          = map (fun e => (js_message e, js_source e)) (jsErrors d) ++ pageErrorsOf events
       /\ map (fun e => (net_url e, net_status e, net_error e)) (networkErrors d')
          = map (fun e => (net_url e, net_status e, net_error e)) (networkErrors d)
            ++ failedResponsesOf events
       /\ map warn_message (consoleWarnings d')
          = map warn_message (consoleWarnings d) ++ warningsOf events)
  /\ stackSource (Some ("TypeError: x is undefined" +++ String newline
                          ("    at add (app.js:10:5)" +++ String newline
                             "    at HTMLButtonElement.onclick (index.html:1:1)")))
     = "    at add (app.js:10:5)"
  /\ stackSource (Some "TypeError: x is undefined") = ""
  /\ warningsOf [ConsoleEvent "error" "boom"; ConsoleEvent "warning" "deprecated";
                 ConsoleEvent "Warning" "shouted"; ConsoleEvent "log" "hello"]
     = ["deprecated"].
Proof.
  split; [| repeat split; reflexivity].
  intros W RT events. induction events as [| event events IH]; intros w d.
  - exists w, d. simpl. rewrite !app_nil_r. repeat split.
  - unfold deliver. cbn [for_each]. rewrite bind_run, dispatch_run.
    fold (@deliver W RT events).
    destruct event as [message stack | [] u status statusText | type text].
    + destruct (IH (snd (date_now w))
                  (pushJsError (mkJsError message (stackSource stack) (fst (date_now w))) d))
        as (w' & d' & E & Hj & Hn & Hw).
      exists w', d'. split; [exact E |]. simpl in *.
      rewrite Hj, Hn, Hw, map_app, <- app_assoc. repeat split.
    + destruct (IH w d) as (w' & d' & E & Hj & Hn & Hw).
      exists w', d'. split; [exact E |]. simpl. auto.
    + destruct (IH (snd (date_now w))
                  (pushNetworkError
                     (mkNetworkError u status statusText (fst (date_now w))) d))
        as (w' & d' & E & Hj & Hn & Hw).
      exists w', d'. split; [exact E |]. simpl in *.
      rewrite Hj, Hn, Hw, map_app, <- app_assoc. repeat split.
    + simpl. destruct (String.eqb type "warning").
      * destruct (IH (snd (date_now w))
                    (pushConsoleWarning (mkConsoleWarning text (fst (date_now w))) d))
          as (w' & d' & E & Hj & Hn & Hw).
        exists w', d'. split; [exact E |]. simpl in *.
        rewrite Hj, Hn, Hw, map_app, <- app_assoc. repeat split.
      * destruct (IH w d) as (w' & d' & E & Hj & Hn & Hw).
        exists w', d'. split; [exact E |]. simpl. auto.
Qed.

(* ===================================================================== *)
(** * The analysis service: issue summary and risk fallback *)
(* ===================================================================== *)

Section IssueFacts.
Import AIAnalysisService.

Lemma seen_In (x : string) (seen : list string) :
  existsb (String.eqb x) seen = true <-> In x seen.
Proof.
  rewrite existsb_exists. split.
  - intros (y & Hy & E). apply String.eqb_eq in E. subst. exact Hy.
  - intros H. exists x. split; [exact H | apply String.eqb_refl].
Qed.

Lemma distinct_In (seen issues : list string) (x : string) :
  In x (distinct seen issues) <-> In x issues /\ ~ In x seen.
Proof.
  revert seen. induction issues as [| y rest IH]; intros seen; simpl.
  - tauto.
  - destruct (existsb (String.eqb y) seen) eqn:E.
    + apply seen_In in E. rewrite IH. split.
      * intros [H1 H2]. auto.
      * intros [[<- | H1] H2]; [contradiction | auto].
    + assert (Hy : ~ In y seen).
      { intros H. apply seen_In in H. rewrite H in E. discriminate. }
      simpl. rewrite IH. simpl. split.
      * intros [<- | [H1 H2]]; [auto |]. split; [auto |]. intros H. apply H2. auto.
      * intros [[<- | H1] H2]; [auto |].
        destruct (String.eqb y x) eqn:Eyx.
        -- apply String.eqb_eq in Eyx. auto.
        -- right. split; [exact H1 |]. intros [H | H]; [| contradiction].
           subst. rewrite String.eqb_refl in Eyx. discriminate.
Qed.

Lemma distinct_NoDup (seen issues : list string) : NoDup (distinct seen issues).
Proof.
  revert seen. induction issues as [| y rest IH]; intros seen; simpl.
  - constructor.
  - destruct (existsb (String.eqb y) seen); [apply IH |].
    constructor; [| apply IH]. rewrite distinct_In. intros [_ H]. apply H. left; reflexivity.
Qed.

Lemma join_head (sep x : string) (rest : list string) :
  exists tail, join sep (x :: rest) = x +++ tail.
Proof.
  destruct rest as [| y rest]; simpl.
  - exists "". induction x as [| c x IH]; simpl; [reflexivity |].
    change (String c x = String c (x +++ "")). rewrite <- IH. reflexivity.
  - eexists. reflexivity.
Qed.

Lemma issuesOf_labels (t : PageResult) (x : string) :
  In x (issuesOf t) ->
  x = "Missing product titles" \/ x = "Missing price display"
  \/ x = "Missing add to cart buttons".
Proof.
  unfold issuesOf.
  destruct (TextCheck.present (title (elements t))),
    (TextCheck.present (price (elements t))),
    (CartCheck.present (addToCart (elements t))); simpl; intuition.
Qed.

Lemma issuesOf_title (t : PageResult) :
  In "Missing product titles" (issuesOf t)
  <-> TextCheck.present (title (elements t)) = false.
Proof.
  unfold issuesOf.
  destruct (TextCheck.present (title (elements t))),
    (TextCheck.present (price (elements t))),
    (CartCheck.present (addToCart (elements t))); simpl;
    split; intros H; auto; try discriminate;
    repeat (destruct H as [H | H]; try discriminate); try contradiction.
Qed.

Lemma issuesOf_price (t : PageResult) :
  In "Missing price display" (issuesOf t)
  <-> TextCheck.present (price (elements t)) = false.
Proof.
  unfold issuesOf.
  destruct (TextCheck.present (title (elements t))),
    (TextCheck.present (price (elements t))),
    (CartCheck.present (addToCart (elements t))); simpl;
    split; intros H; auto; try discriminate;
    repeat (destruct H as [H | H]; try discriminate); try contradiction.
Qed.

Lemma issuesOf_cart (t : PageResult) :
  In "Missing add to cart buttons" (issuesOf t)
  <-> CartCheck.present (addToCart (elements t)) = false.
Proof.
  unfold issuesOf.
  destruct (TextCheck.present (title (elements t))),
    (TextCheck.present (price (elements t))),
    (CartCheck.present (addToCart (elements t))); simpl;
    split; intros H; auto; try discriminate;
    repeat (destruct H as [H | H]; try discriminate); try contradiction.
Qed.

(** The labels come in the order of their first occurrence: whatever comes
    up before the first occurrence of a label is listed before it. *)
Lemma distinct_order (seen issues before : list string) (x : string) (after : list string) :
  distinct seen issues = before ++ x :: after ->
  exists pre post,
    issues = pre ++ x :: post
    /\ ~ In x pre
    /\ forall y, In y pre -> In y before \/ In y seen.
Proof.
  revert seen before. induction issues as [| i rest IH]; intros seen before; simpl.
  - destruct before; discriminate.
  - destruct (existsb (String.eqb i) seen) eqn:E.
    + intros H. apply seen_In in E.
      assert (Hx : In x (distinct seen rest)) by (rewrite H; apply in_elt).
      apply distinct_In in Hx. destruct Hx as [_ Hx].
      destruct (IH seen before H) as (pre & post & -> & Hn & Hb).
      exists (i :: pre), post. split; [reflexivity |]. split.
      * intros [<- | Hin]; [contradiction | contradiction].
      * intros y [<- | Hy]; [right; exact E | apply Hb, Hy].
    + destruct before as [| b before]; simpl; intros H; inversion H; subst.
      * exists [], rest. split; [reflexivity |]. split; [intros [] | intros y []].
      * assert (Hx : In x (distinct (b :: seen) rest))
          by (match goal with Hd : distinct _ _ = _ |- _ => rewrite Hd end; apply in_elt).
        apply distinct_In in Hx. destruct Hx as [_ Hx].
        match goal with Hd : distinct _ _ = _ |- _ =>
          destruct (IH (b :: seen) before Hd) as (pre & post & -> & Hn & Hb)
        end.
        exists (b :: pre), post. split; [reflexivity |]. split.
        -- intros [<- | Hin]; [apply Hx; left; reflexivity | contradiction].
        -- intros y [<- | Hy]; [left; left; reflexivity |].
           destruct (Hb y Hy) as [H1 | [<- | H1]]; simpl; auto.
Qed.

End IssueFacts.

(** X16. The summary of critical element issues lists, once each and in
    the order they first come up over the page results, the labels of the
    elements some page lacks: "Missing product titles" when some page has no
    title, "Missing price display" when some page has no price, "Missing add
    to cart buttons" when some page has no add-to-cart element; the labels
    are joined with ", ". The order is that of first occurrence: every issue
    that comes up before the first occurrence of a label (page by page, and
    within a page title, then price, then button) is listed before that
    label. It is "None" exactly when every page has all three. Variants are
    not looked at: the page that passes through its variant picker, without
    a button, is still listed as missing the button; and with that page
    before one without a title, the button comes first in the summary. *)
Theorem critical_issues_lists_each_missing_element_once :
  (forall tests : list PageResult,
     exists labels,
       NoDup labels
       /\ (In "Missing product titles" labels
           <-> exists t, In t tests /\ TextCheck.present (title (elements t)) = false)
       /\ (In "Missing price display" labels
           <-> exists t, In t tests /\ TextCheck.present (price (elements t)) = false)
       /\ (In "Missing add to cart buttons" labels
           <-> exists t, In t tests /\ CartCheck.present (addToCart (elements t)) = false)
       /\ (forall x, In x labels ->
             x = "Missing product titles" \/ x = "Missing price display"
             \/ x = "Missing add to cart buttons")
       /\ (forall before x after,
             labels = before ++ x :: after ->
             exists pre post,
               flat_map AIAnalysisService.issuesOf tests = pre ++ x :: post
               /\ ~ In x pre
               /\ forall y, In y pre -> In y before)
       /\ AIAnalysisService.getCriticalElementIssues tests
          = match labels with
            | [] => "None"
            | _ => AIAnalysisService.join ", " labels
            end
       /\ (AIAnalysisService.getCriticalElementIssues tests = "None"
           <-> forall t, In t tests ->
                 TextCheck.present (title (elements t)) = true
                 /\ TextCheck.present (price (elements t)) = true
                 /\ CartCheck.present (addToCart (elements t)) = true))
  /\ (exists r,
        Fixture.validated true true false false true false = Ok r
        /\ passed r = true
        /\ AIAnalysisService.getCriticalElementIssues [r] = "Missing add to cart buttons")
  /\ (exists noButton noTitle nothing,
        Fixture.validated true true false false true false = Ok noButton
        /\ Fixture.validated false true true false false false = Ok noTitle
        /\ Fixture.validated false false false false false false = Ok nothing
        /\ AIAnalysisService.getCriticalElementIssues [noButton; noTitle; noButton]
           = "Missing add to cart buttons, Missing product titles"
        /\ AIAnalysisService.getCriticalElementIssues [noTitle; noButton]
           = "Missing product titles, Missing add to cart buttons"
        /\ AIAnalysisService.getCriticalElementIssues [noButton; nothing]
           = "Missing add to cart buttons, Missing product titles, Missing price display"
        /\ AIAnalysisService.getCriticalElementIssues [nothing; noButton]
           = "Missing product titles, Missing price display, Missing add to cart buttons").
Proof.
  split.
  - intros tests.
    set (issues := flat_map AIAnalysisService.issuesOf tests).
    set (labels := AIAnalysisService.distinct [] issues).
    assert (Hin : forall x, In x labels
                            <-> exists t, In t tests /\ In x (AIAnalysisService.issuesOf t)).
    { intros x. unfold labels. rewrite distinct_In. unfold issues. rewrite in_flat_map.
      simpl. tauto. }
    assert (Hlab : forall x, In x labels ->
                     x = "Missing product titles" \/ x = "Missing price display"
                     \/ x = "Missing add to cart buttons").
    { intros x Hx. apply Hin in Hx. destruct Hx as (t & _ & Ht).
      eapply issuesOf_labels, Ht. }
    assert (Hres : AIAnalysisService.getCriticalElementIssues tests
                   = match labels with
                     | [] => "None"
                     | _ => AIAnalysisService.join ", " labels
                     end).
    { unfold AIAnalysisService.getCriticalElementIssues. fold issues. fold labels.
      destruct labels as [| x rest] eqn:El; [reflexivity |].
      destruct (join_head ", " x rest) as [tail ->].
      destruct (Hlab x (or_introl eq_refl)) as [-> | [-> | ->]]; reflexivity. }
    assert (Hord : forall before x after,
                     labels = before ++ x :: after ->
                     exists pre post,
                       flat_map AIAnalysisService.issuesOf tests = pre ++ x :: post
                       /\ ~ In x pre
                       /\ forall y, In y pre -> In y before).
    { intros before x after El.
      destruct (distinct_order [] issues before x after El) as (pre & post & Ei & Hn & Hb).
      exists pre, post. split; [exact Ei |]. split; [exact Hn |].
      intros y Hy. destruct (Hb y Hy) as [H | []]. exact H. }
    exists labels. split; [apply distinct_NoDup |].
    split; [| split; [| split; [| split; [exact Hlab | split; [exact Hord | split; [exact Hres |]]]]]].
    + rewrite Hin. split; intros (t & Ht & H); exists t; split; auto; apply issuesOf_title, H.
    + rewrite Hin. split; intros (t & Ht & H); exists t; split; auto; apply issuesOf_price, H.
    + rewrite Hin. split; intros (t & Ht & H); exists t; split; auto; apply issuesOf_cart, H.
    + rewrite Hres. split.
      * intros E t Ht.
        destruct labels as [| x rest] eqn:El.
        -- assert (Hno : forall y, ~ In y (AIAnalysisService.issuesOf t)).
           { intros y Hy. apply (proj2 (Hin y)). exists t. auto. }
           destruct (TextCheck.present (title (elements t))) eqn:E1;
             [| exfalso; apply (Hno "Missing product titles"), issuesOf_title, E1].
           destruct (TextCheck.present (price (elements t))) eqn:E2;
             [| exfalso; apply (Hno "Missing price display"), issuesOf_price, E2].
           destruct (CartCheck.present (addToCart (elements t))) eqn:E3;
             [| exfalso; apply (Hno "Missing add to cart buttons"), issuesOf_cart, E3].
           auto.
        -- exfalso. destruct (join_head ", " x rest) as [tail Et]. rewrite Et in E.
           destruct (Hlab x (or_introl eq_refl)) as [-> | [-> | ->]]; discriminate.
      * intros H. destruct labels as [| x rest] eqn:El; [reflexivity |].
        exfalso. assert (Hx : In x (x :: rest)) by (left; reflexivity).
        apply Hin in Hx. destruct Hx as (t & Ht & Hx).
        destruct (H t Ht) as (H1 & H2 & H3).
        destruct (issuesOf_labels t x Hx) as [-> | [-> | ->]].
        -- apply issuesOf_title in Hx. rewrite H1 in Hx. discriminate.
        -- apply issuesOf_price in Hx. rewrite H2 in Hx. discriminate.
        -- apply issuesOf_cart in Hx. rewrite H3 in Hx. discriminate.
  - split.
    + eexists. split; [vm_compute; reflexivity |]. split; reflexivity.
    + eexists. eexists. eexists.
      split; [vm_compute; reflexivity |]. split; [vm_compute; reflexivity |].
      split; [vm_compute; reflexivity |]. repeat split; reflexivity.
Qed.

Section RiskFacts.
Import AIAnalysisService.

Lemma riskWord_words (s : string) (word : string) :
  riskWord s = Some word ->
  In word ["low"; "medium"; "high"; "critical"] /\ JsString.includes s word = true.
Proof.
  induction s as [| c s IH].
  - simpl. discriminate.
  - cbn [riskWord].
    destruct (JsString.startsWith (String c s) "low") eqn:E1.
    { intros H; inversion H; subst. split; [simpl; auto | apply includes_here, E1]. }
    destruct (JsString.startsWith (String c s) "medium") eqn:E2.
    { intros H; inversion H; subst. split; [simpl; auto | apply includes_here, E2]. }
    destruct (JsString.startsWith (String c s) "high") eqn:E3.
    { intros H; inversion H; subst. split; [simpl; auto | apply includes_here, E3]. }
    destruct (JsString.startsWith (String c s) "critical") eqn:E4.
    { intros H; inversion H; subst. split; [simpl; auto 6 | apply includes_here, E4]. }
    intros H. destruct (IH H) as [Hw Hi]. split; [exact Hw | apply includes_later, Hi].
Qed.

Lemma riskWord_none (s : string) :
  riskWord s = None ->
  JsString.includes s "low" = false /\ JsString.includes s "medium" = false
  /\ JsString.includes s "high" = false /\ JsString.includes s "critical" = false.
Proof.
  induction s as [| c s IH].
  - intros _. repeat split.
  - cbn [riskWord].
    destruct (JsString.startsWith (String c s) "low") eqn:E1; [discriminate |].
    destruct (JsString.startsWith (String c s) "medium") eqn:E2; [discriminate |].
    destruct (JsString.startsWith (String c s) "high") eqn:E3; [discriminate |].
    destruct (JsString.startsWith (String c s) "critical") eqn:E4; [discriminate |].
    intros H. destruct (IH H) as (H1 & H2 & H3 & H4).
    cbn [JsString.includes]. rewrite E1, E2, E3, E4, H1, H2, H3, H4. repeat split.
Qed.

End RiskFacts.

(** X17. The risk level read off a response is always one of "low",
    "medium", "high" and "critical": the leftmost of these words in the
    lower-cased response, wherever it stands (inside another word too). When
    the response holds none of them the fallback is taken, and the fallback
    is "low" whatever the test results were: [calculateRiskLevel] is handed
    the response text, on which the failure rate is 0. Handed a results
    object it would grade the share of failed pages, and three failed pages
    of ten grade "high", not "medium", because [1 - 7/10] exceeds [0.3] in
    floating point. *)
Theorem risk_fallback_ignores_the_results :
  (forall text,
     In (AIAnalysisService.extractRiskLevel text) ["low"; "medium"; "high"; "critical"])
  /\ (forall text word,
        AIAnalysisService.riskWord (JsString.toLowerCase text) = Some word ->
        AIAnalysisService.extractRiskLevel text = word
        /\ JsString.includes (JsString.toLowerCase text) word = true)
  /\ (forall text,
        AIAnalysisService.extractRiskLevel text = "low"
        \/ JsString.includes (JsString.toLowerCase text) "medium" = true
        \/ JsString.includes (JsString.toLowerCase text) "high" = true
        \/ JsString.includes (JsString.toLowerCase text) "critical" = true)
  /\ (forall text, AIAnalysisService.calculateRiskLevel (AIAnalysisService.OfText text) = "low")
  /\ AIAnalysisService.extractRiskLevel "Most checks failed; fix the checkout first." = "low"
  /\ AIAnalysisService.extractRiskLevel "Overall risk: HIGH. Follow up on the low stock." = "high"
  /\ AIAnalysisService.extractRiskLevel "Please follow the steps." = "low"
  /\ (forall (failing ok : PageResult),
        passed failing = false -> passed ok = true ->
        AIAnalysisService.calculateRiskLevel
          (AIAnalysisService.OfResults
             (mkResults (repeat failing 3 ++ repeat ok 7) [] (mkErrorDetection [] [] [])))
        = "high").
Proof.
  split; [| split; [| split; [| split]]].
  - intros text. unfold AIAnalysisService.extractRiskLevel.
    destruct (AIAnalysisService.riskWord (JsString.toLowerCase text)) as [word |] eqn:E.
    + apply (riskWord_words _ _ E).
    + simpl. auto.
  - intros text word E. unfold AIAnalysisService.extractRiskLevel. rewrite E.
    split; [reflexivity | apply (riskWord_words _ _ E)].
  - intros text. unfold AIAnalysisService.extractRiskLevel.
    destruct (AIAnalysisService.riskWord (JsString.toLowerCase text)) as [word |] eqn:E.
    + destruct (riskWord_words _ _ E) as [Hw Hi].
      destruct Hw as [<- | [<- | [<- | [<- | []]]]]; auto.
    + left. reflexivity.
  - intros text. reflexivity.
  - split; [vm_compute; reflexivity |]. split; [vm_compute; reflexivity |].
    split; [vm_compute; reflexivity |].
    intros failing ok Hf Ho. unfold AIAnalysisService.calculateRiskLevel. simpl.
    rewrite Hf, Ho. vm_compute. reflexivity.
Qed.

(* ===================================================================== *)
(** * The selector strategy 4 makes up *)
(* ===================================================================== *)

Section SelectorFacts.
Import JsString.

Lemma append_cons (c : ascii) (s t : string) : String c s +++ t = String c (s +++ t).
Proof. reflexivity. Qed.

Lemma append_empty_l (t : string) : "" +++ t = t.
Proof. reflexivity. Qed.

Lemma append_empty_r (s : string) : s +++ "" = s.
Proof.
  induction s as [| c s IH]; [reflexivity |]. rewrite append_cons, IH. reflexivity.
Qed.

Lemma splitSpaces_spaceFree (c : string) : spaceFree c = true -> splitSpaces c = [c].
Proof.
  induction c as [| a c IH]; simpl; [reflexivity |].
  intros H. apply andb_prop in H. destruct H as [Ha Hc].
  destruct (Ascii.eqb a " "); [discriminate |]. rewrite (IH Hc). reflexivity.
Qed.

Lemma splitSpaces_token (c rest : string) :
  spaceFree c = true -> splitSpaces (c +++ String " " rest) = c :: splitSpaces rest.
Proof.
  induction c as [| a c IH]; intros H.
  - rewrite append_empty_l. reflexivity.
  - simpl in H. apply andb_prop in H. destruct H as [Ha Hc].
    rewrite append_cons. simpl. destruct (Ascii.eqb a " "); [discriminate |].
    rewrite (IH Hc). reflexivity.
Qed.

Lemma splitSpaces_spaces (n : nat) (s : string) :
  splitSpaces (spaces n +++ s) = repeat "" n ++ splitSpaces s.
Proof.
  induction n as [| n IH]; simpl; [reflexivity |].
  rewrite IH. reflexivity.
Qed.

Lemma filter_blank (n : nat) (l : list string) :
  filter (fun c => 0 <? String.length c) (repeat "" n ++ l)
  = filter (fun c => 0 <? String.length c) l.
Proof. induction n as [| n IH]; simpl; auto. Qed.

Lemma first_class_token (n : nat) (c rest : string) :
  c <> "" -> spaceFree c = true -> rest = "" \/ startsWith rest " " = true ->
  exists others,
    filter (fun c => 0 <? String.length c) (splitSpaces (spaces n +++ c +++ rest))
    = c :: others.
Proof.
  intros Hne Hc Hrest.
  assert (Hlen : (0 <? String.length c) = true).
  { destruct c; [contradiction | reflexivity]. }
  rewrite splitSpaces_spaces, filter_blank.
  destruct Hrest as [-> | Hs].
  - rewrite append_empty_r, (splitSpaces_spaceFree c Hc). simpl. rewrite Hlen. eauto.
  - destruct rest as [| a rest]; [simpl in Hs; discriminate |].
    change (Ascii.eqb " " a && startsWith rest "" = true) in Hs.
    apply andb_prop in Hs. destruct Hs as [Ea _].
    apply Ascii.eqb_eq in Ea. subst a.
    rewrite (splitSpaces_token c rest Hc). simpl. rewrite Hlen. eauto.
Qed.

Lemma no_class_token (n : nat) :
  filter (fun c => 0 <? String.length c) (splitSpaces (spaces n)) = [].
Proof.
  rewrite <- (append_empty_r (spaces n)), splitSpaces_spaces, filter_blank. reflexivity.
Qed.

End SelectorFacts.

(** X18. The selector strategy 4 makes up for a node: ["#" + id] when the
    node has an id; otherwise ["." + c] where [c] is the first class of its
    class attribute (the first run of characters other than the space,
    whatever spaces come before it and whatever follows it); otherwise, when
    the class attribute is missing, empty or made of spaces only, the tag
    name in lower case. Only the first class is used, and the selector is
    never qualified by the tag or a position. *)
Theorem made_up_selector_is_id_then_first_class_then_tag (node : DomNode) :
  (node_id node <> "" -> synthSelector node = "#" +++ node_id node)
  /\ (forall n c rest,
        node_id node = "" ->
        node_className node = Some (spaces n +++ c +++ rest) ->
        c <> "" -> spaceFree c = true ->
        rest = "" \/ JsString.startsWith rest " " = true ->
        synthSelector node = "." +++ c)
  /\ (node_id node = "" ->
      node_className node = None \/ (exists n, node_className node = Some (spaces n)) ->
      synthSelector node = JsString.toLowerCase (node_tagName node)).
Proof.
  split; [| split].
  - intros Hid. unfold synthSelector.
    destruct (node_id node) as [| a i]; [contradiction | reflexivity].
  - intros n c rest Hid Hcls Hne Hc Hrest. unfold synthSelector. rewrite Hid, Hcls.
    destruct (first_class_token n c rest Hne Hc Hrest) as [others E].
    cbn [JsString.isEmpty negb]. rewrite E.
    assert (Hnon : JsString.isEmpty (spaces n +++ c +++ rest) = false).
    { destruct (spaces n +++ c +++ rest) eqn:Es; [| reflexivity].
      simpl in E. discriminate. }
    rewrite Hnon. reflexivity.
  - intros Hid Hcls. unfold synthSelector. rewrite Hid. cbn [JsString.isEmpty negb].
    destruct Hcls as [-> | [n ->]]; [reflexivity |].
    rewrite no_class_token. destruct (negb (JsString.isEmpty (spaces n))); reflexivity.
Qed.

(* ===================================================================== *)
(** * What the returned document holds *)
(* ===================================================================== *)

Section SettledFacts.
Context {W : Type} {PW : Playwright W} {RT : Runtime W} {CO : Collaborators W}.

(** The end of [prepare], from the image audit on. *)
Lemma finish_settles cfg page context (ex ex' : Exec W) :
  (imageResults <- io (testImageLoading page (map pp_url (productPages cfg))) ;;
   update (withResults (withImageValidation imageResults)) ;;;
   detected <- io (fun w => (Ok (collected page w), w)) ;;
   update (withResults (withErrorDetection detected)) ;;;
   io (context_close context) ;;;
   ex <- get ;;
   analysis <- io (analyzeTestResults (TestResult.results (testResult ex))) ;;
   update (withAiAnalysis analysis)) ex = (Ok tt, ex') ->
  settled cfg (testResult ex').
Proof.
  rewrite bind_run. unfold io at 1.
  destruct (testImageLoading page (map pp_url (productPages cfg)) (world ex))
    as [[images | e] w2] eqn:Ei; [| discriminate].
  rewrite bind_run. unfold update at 1, modify at 1.
  rewrite bind_run. unfold io at 1. cbn [world].
  rewrite bind_run. unfold update at 1, modify at 1.
  rewrite bind_run. unfold io at 1. cbn [world].
  destruct (context_close context w2) as [[[] | e] w3]; [| discriminate].
  rewrite bind_run. unfold get. rewrite bind_run. unfold io at 1. cbn [world testResult].
  match goal with
  | |- context [analyzeTestResults ?r w3] =>
      destruct (analyzeTestResults r w3) as [[a | e] w4] eqn:Ea; [| discriminate]
  end.
  unfold update, modify. intros H. inversion H; subst. clear H.
  exists page, (world ex), w2, w3, w4, a. cbn [testResult]. repeat split; assumption.
Qed.

Lemma prepare_settles cfg :
  hoare (fun _ : Exec W => True) (prepare cfg)
    (fun o ex => match o with
                 | Ok _ => settled cfg (testResult ex)
                 | Throw _ => True
                 end).
Proof.
  unfold prepare.
  eapply hoare_bind with (R := fun _ _ => True); [intros ex _; destruct (fst _); exact I |].
  intros _.
  eapply hoare_bind with (R := fun _ _ => True); [intros ex _; destruct (fst _); exact I |].
  intros b.
  eapply hoare_bind with (R := fun _ _ => True); [intros ex _; destruct (fst _); exact I |].
  intros context.
  eapply hoare_bind with (R := fun _ _ => True); [intros ex _; destruct (fst _); exact I |].
  intros page.
  eapply hoare_bind with (R := fun _ _ => True); [intros ex _; destruct (fst _); exact I |].
  intros _.
  eapply hoare_bind with (R := fun _ _ => True); [intros ex _; destruct (fst _); exact I |].
  intros _ ex _.
  match goal with
  | |- match fst (?m ex) with _ => _ end =>
      destruct (m ex) as [[[] | e] ex'] eqn:E; [| exact I]
  end.
  exact (finish_settles cfg page context ex ex' E).
Qed.

End SettledFacts.

(** X19. The document a run returns holds what the collaborators returned:
    its image records are those the image auditor returned for the
    configured URLs, in the order of the configuration; its detected errors
    are those collected on the page once the audit was over; and its
    analysis is the one the analysis service computed from exactly the
    results the document holds (nothing is added to the results after the
    analysis). *)
Theorem returned_document_holds_what_was_computed
    {W : Type} {PW : Playwright W} {RT : Runtime W} {CO : Collaborators W}
    (cfg : TestConfiguration) (w : W) (svc : Service) (d : TestResult.t) :
  fst (runTest cfg w svc) = Ok d ->
  exists page w1 w2 w3 w4 a,
    testImageLoading page (map pp_url (productPages cfg)) w1
    = (Ok (imageValidation (TestResult.results d)), w2)
    /\ errorDetection (TestResult.results d) = collected page w2
    /\ analyzeTestResults (TestResult.results d) w3 = (Ok a, w4)
    /\ TestResult.aiAnalysis d = Some a.
Proof.
  unfold runTest, try_catch, execute. rewrite bind_run.
  pose proof (prepare_settles cfg (startExec cfg w svc) I) as Hp.
  destruct (prepare cfg (startExec cfg w svc)) as [[[] | e] ex1]; cbn [fst snd] in Hp.
  - rewrite complete_run. cbv zeta.
    destruct (db_save _ _) as [[u | e] w2]; cbn [fst].
    + intros H; inversion H; subst. exact Hp.
    + rewrite onFailure_run. cbv zeta. destruct (db_save _ _) as [[u' | e'] w3]; discriminate.
  - rewrite onFailure_run. cbv zeta. destruct (db_save _ _) as [[u' | e'] w3]; discriminate.
Qed.

Section ReportRun.
#[local] Existing Instance Report.playwright.
#[local] Existing Instance Gallery.runtime.
#[local] Existing Instance Report.collaborators.

(** X19 on a run over the gallery, whose page shows six image nodes, one of
    them gone from the document: the returned document holds the five image
    records of the audit and the failed response collected for the sixth,
    and an analysis whose score, 7, counts the five records, the failed
    response and the page result, so it was computed once all of them were
    in the document. *)
Lemma returned_document_holds_what_was_computed_witness :
  exists d,
    fst (runTest Report.configuration Gallery.world Fixture.idle) = Ok d
    /\ map ImageRecord.src (imageValidation (TestResult.results d))
       = ["/img/a.png"; "/img/b.png"; "/img/hero.png"; "/img/c.png"; "/img/d.png"]
    /\ networkErrors (errorDetection (TestResult.results d))
       = [mkNetworkError "/img/d.png" 404 "Not Found" 0]
    /\ TestResult.aiAnalysis d = Some (mkAiAnalysis "counted" [] "low" 7)
    /\ settled Report.configuration d.
Proof.
  eexists. split; [vm_compute; reflexivity |].
  split; [reflexivity |]. split; [reflexivity |]. split; [reflexivity |].
  apply (returned_document_holds_what_was_computed Report.configuration
           Gallery.world Fixture.idle).
  vm_compute. reflexivity.
Defined.

End ReportRun.
